(** * repo-agent: the incremental PR review engine, embedded in Rocq

    A shallow embedding of [src/github_commenter.py] and
    [src/pr_review_service.py], and the properties of the specification
    that concern them; then the handler of review comment events, the
    helpers of the webhook in [server/app_enhanced.py], and further
    properties of the code.

    Conventions of the embedding.
    - A Python [str] is a [string]; each [ascii] stands for the code point
      of the same number, so the strings covered are those whose code
      points are below 256.  On that range [str.isspace], the line
      boundaries of [str.splitlines] and the [\d] of [re] are the tables
      written out below.
    - A Python [int] is a [Z].
    - A JSON object received from GitHub or decoded from a model response
      is a record; a key that may be absent or null is an [option] field.
      A model is free to answer anything: the line keys of a review item,
      which the service converts with [int], hold any JSON value ([json]),
      [None] standing for an absent key only; its ["path"] and
      ["comment"], which the service passes on as [str], are strings.
    - Code that talks to GitHub runs in a state-and-exception monad over a
      model of the pull request on GitHub ([World]). *)

From Stdlib Require Import ZArith Lia Bool List Ascii String DecimalString.
From Stdlib Require Import Floats.SpecFloat.
From stdpp Require Import base option list gmap.
Import ListNotations.

#[local] Open Scope string_scope.
#[local] Open Scope Z_scope.

(** ** Python string primitives *)

Module PyStr.

Definition code (c : ascii) : nat := nat_of_ascii c.

Definition LF : ascii := ascii_of_nat 10.
Definition CR : ascii := ascii_of_nat 13.
Definition NL : string := String LF "".

(** [bool(s)] *)
Definition truthy (s : string) : bool :=
  match s with "" => false | String _ _ => true end.

(** [s[1:]] *)
Definition tail (s : string) : string :=
  match s with "" => "" | String _ t => t end.

(** [s[n:]] *)
Fixpoint drop (n : nat) (s : string) : string :=
  match n, s with
  | O, _ => s
  | S _, "" => ""
  | S n', String _ t => drop n' t
  end.

(** [s.startswith(p)] *)
Definition startswith (p s : string) : bool := String.prefix p s.

(** [needle in hay] *)
Fixpoint contains (needle hay : string) : bool :=
  String.prefix needle hay
  || match hay with
     | "" => false
     | String _ hay' => contains needle hay'
     end.

(** [s.split(sep, 1)] for a [sep] that occurs in [s]: the text before
    and after the first occurrence; [None] when [sep] does not occur. *)
Fixpoint split_once (sep s : string) : option (string * string) :=
  if String.prefix sep s then Some ("", drop (String.length sep) s)
  else match s with
       | "" => None
       | String c s' =>
           match split_once sep s' with
           | Some (a, b) => Some (String c a, b)
           | None => None
           end
       end.

(** [c.isspace()] on code points below 256 *)
Definition isspace (c : ascii) : bool :=
  let n := code c in
  ((9 <=? n) && (n <=? 13) || (28 <=? n) && (n <=? 32)
   || (n =? 133) || (n =? 160))%nat.

(** [s.lstrip()], [s.rstrip()], [s.strip()] *)
Fixpoint lstrip (s : string) : string :=
  match s with
  | "" => ""
  | String c t => if isspace c then lstrip t else s
  end.

Fixpoint rstrip (s : string) : string :=
  match s with
  | "" => ""
  | String c t =>
      match rstrip t with
      | "" => if isspace c then "" else String c ""
      | t' => String c t'
      end
  end.

Definition strip (s : string) : string := lstrip (rstrip s).

(** The line boundaries of [str.splitlines]: LF, VT, FF, CR, FS, GS, RS
    and NEL (CR LF counts once). *)
Definition is_linebreak (c : ascii) : bool :=
  let n := code c in
  ((10 <=? n) && (n <=? 13) || (28 <=? n) && (n <=? 30) || (n =? 133))%nat.

(** [s.splitlines()], with [cur] the line read so far *)
Fixpoint splitlines_from (cur s : string) : list string :=
  match s with
  | "" => if truthy cur then [cur] else []
  | String c rest =>
      if is_linebreak c then
        if Ascii.eqb c CR then
          match rest with
          | String c2 rest2 =>
              if Ascii.eqb c2 LF then cur :: splitlines_from "" rest2
              else cur :: splitlines_from "" rest
          | "" => [cur]
          end
        else cur :: splitlines_from "" rest
      else splitlines_from (cur ++ String c "") rest
  end.

Definition splitlines (s : string) : list string := splitlines_from "" s.

(** [sep.join(parts)] *)
Definition join (sep : string) (parts : list string) : string :=
  String.concat sep parts.

(** [str(n)] and [f"{n}"] for an int *)
Definition str (n : Z) : string := NilZero.string_of_int (Z.to_int n).

(** [\d] on code points below 256 *)
Definition isdigit (c : ascii) : bool :=
  let n := code c in ((48 <=? n) && (n <=? 57))%nat.


(** The longest run of digits at the start of [s], and what follows it *)
Fixpoint span_digits (s : string) : string * string :=
  match s with
  | "" => ("", "")
  | String c t =>
      if isdigit c then let '(d, r) := span_digits t in (String c d, r)
      else ("", s)
  end.

(** [int(d)] for a string of digits *)
Definition int_of_digits (d : string) : Z :=
  fold_left (fun acc c => 10 * acc + (Z.of_nat (code c) - 48))
            (list_ascii_of_string d) 0.

(** The white space that [int] drops around the digits of a [str], on
    code points below 256. *)
Definition int_space (c : ascii) : bool :=
  let n := code c in
  ((9 <=? n) && (n <=? 13) || (n =? 32) || (n =? 133) || (n =? 160))%nat.

Fixpoint lstrip_int (s : string) : string :=
  match s with
  | "" => ""
  | String c t => if int_space c then lstrip_int t else s
  end.

Fixpoint rstrip_int (s : string) : string :=
  match s with
  | "" => ""
  | String c t =>
      match rstrip_int t with
      | "" => if int_space c then "" else String c ""
      | t' => String c t'
      end
  end.

(** Digits, with single underscores between them: their value and their
    number.  [after_digit] tells whether the character before was a
    digit; [None] when the text is no such run of digits. *)
Fixpoint digits_from (after_digit : bool) (acc : Z) (count : nat) (s : string)
  : option (Z * nat) :=
  match s with
  | "" => if after_digit then Some (acc, count) else None
  | String c t =>
      if isdigit c
      then digits_from true (10 * acc + (Z.of_nat (code c) - 48)) (S count) t
      else if Ascii.eqb c "_" && after_digit then digits_from false acc count t
      else None
  end.

(** [int(s)] for a [str], as CPython computes it with its default
    settings, on code points below 256: white space around is dropped, a
    sign may come first, single underscores may separate the digits, and
    more than 4300 digits are refused (the default limit since Python
    3.11).  [None] stands for [ValueError]. *)
Definition cpython_int (s : string) : option Z :=
  let body := lstrip_int (rstrip_int s) in
  let '(negative, digits) :=
    match body with
    | String c t =>
        if Ascii.eqb c "-" then (true, t)
        else if Ascii.eqb c "+" then (false, t)
        else (false, body)
    | "" => (false, "")
    end in
  match digits_from false 0 0 digits with
  | Some (n, count) =>
      if (4300 <? count)%nat then None else Some (if negative then - n else n)
  | None => None
  end.

(** [re.search(r"\+(\d+)", s)]: group 1 of the leftmost match *)
Fixpoint search_plus_digits (s : string) : option string :=
  match s with
  | "" => None
  | String c t =>
      if Ascii.eqb c "+" then
        match fst (span_digits t) with
        | "" => search_plus_digits t
        | d => Some d
        end
      else search_plus_digits t
  end.

End PyStr.

(** ** github_commenter.py *)

Module Commenter.
Import PyStr.

Definition COMMENT_TAG := "<!-- auto-generated comment: pr review -->".
Definition COMMENT_REPLY_TAG := "<!-- auto-generated reply: pr review -->".
Definition SUMMARIZE_TAG := "<!-- auto-generated comment: pr summary -->".
Definition COMMIT_ID_START_TAG := "<!-- commit_ids_reviewed_start -->".
Definition COMMIT_ID_END_TAG := "<!-- commit_ids_reviewed_end -->".
Definition DESCRIPTION_START_TAG := "<!-- auto-generated release notes start -->".
Definition DESCRIPTION_END_TAG := "<!-- auto-generated release notes end -->".

(** [get_content_within_tags] *)
Definition get_content_within_tags (content start_tag end_tag : string) : string :=
  if negb (contains start_tag content) || negb (contains end_tag content) then ""
  else match split_once start_tag content with
       | Some (_, after) =>
           match split_once end_tag after with
           | Some (inner, _) => strip inner
           | None => strip after
           end
       | None => ""
       end.

(** [remove_content_within_tags] *)
Definition remove_content_within_tags (content start_tag end_tag : string) : string :=
  if negb (contains start_tag content) || negb (contains end_tag content) then content
  else match split_once start_tag content, split_once end_tag content with
       | Some (before, _), Some (_, after) =>
           strip (rstrip before ++ NL ++ NL ++ lstrip after)
       | _, _ => content
       end.

Definition get_reviewed_commit_ids_block (summary : string) : string :=
  get_content_within_tags summary COMMIT_ID_START_TAG COMMIT_ID_END_TAG.

(** [get_reviewed_commit_ids] *)
Definition get_reviewed_commit_ids (block : string) : list string :=
  map strip (List.filter (fun line => truthy (strip line)) (splitlines block)).

(** The list [ids] that [add_reviewed_commit_id] joins into the block *)
Definition ledger_after_add (existing_block commit_id : string) : list string :=
  let ids := if truthy existing_block
             then get_reviewed_commit_ids existing_block else [] in
  if truthy commit_id && negb (bool_decide (commit_id ∈ ids))
  then ids ++ [commit_id] else ids.

(** [add_reviewed_commit_id] *)
Definition add_reviewed_commit_id (existing_block commit_id : string) : string :=
  let body := join NL (ledger_after_add existing_block commit_id) in
  COMMIT_ID_START_TAG ++ NL ++ body ++ NL ++ COMMIT_ID_END_TAG.

(** [get_highest_reviewed_commit_id] *)
Definition get_highest_reviewed_commit_id (all_commits reviewed : list string) : string :=
  fold_left (fun highest sha =>
               if bool_decide (sha ∈ reviewed) then sha else highest)
            all_commits "".

Definition get_description (description : string) : string :=
  remove_content_within_tags description DESCRIPTION_START_TAG DESCRIPTION_END_TAG.

End Commenter.

(** ** The pull request on GitHub, and the monad of the client code *)

(** *** Data exchanged with GitHub and with the model *)

Record PullRequest := {
  pr_title : string;
  pr_body : option string;
  pr_head_sha : option string;
  pr_base_sha : option string;
}.

Record Commit := { commit_sha : option string }.

Record FileChange := {
  fc_filename : option string;
  fc_additions : option Z;
  fc_deletions : option Z;
  fc_patch : option string;
}.

Record Compare := { cmp_files : option (list FileChange) }.

Record IssueComment := { ic_id : Z; ic_body : option string }.

Record ReviewComment := {
  rc_id : Z;
  rc_body : option string;
  rc_in_reply_to : option Z;
  rc_login : option string;
}.

Record Review := { rv_id : Z; rv_state : string }.

(** A JSON value as [json.loads] returns it: [None], a [bool], an
    [int], a [float] (a number written with a fraction or an exponent,
    and [NaN] and [Infinity]), a [str], a [list] or a [dict]. *)
#[warnings="-register-all"] Inductive json :=
| JNull
| JBool (b : bool)
| JInt (n : Z)
| JFloat (x : spec_float)
| JString (s : string)
| JArray (items : list json)
| JObject (fields : list (string * json)).

(** One dict of the JSON array the review prompt asks for, with the keys
    the service reads.  A line key holds whatever the model wrote:
    [None] is the absent key, [Some JNull] the key with the value
    [null].  [it_path] and [it_comment] are the strings under ["path"]
    and ["comment"], [None] when the key is absent or null. *)
Record ReviewItem := {
  it_path : option string;
  it_line : option json;
  it_start_line : option json;
  it_end_line : option json;
  it_comment : option string;
}.

(** An entry of [GitHubCommenter.review_comments_buffer]. *)
Record Buffered := {
  bf_path : string;
  bf_start_line : Z;
  bf_end_line : Z;
  bf_message : string;
}.

(** An entry of the ["comments"] array of a review submission;
    [pl_start_line] is present only for a range of lines. *)
Record ReviewPayload := {
  pl_path : string;
  pl_body : string;
  pl_line : Z;
  pl_start_line : option Z;
}.

Record ReviewResult := {
  summary : string;
  release_notes : list string;
  raw_summary : string;
  short_summary : string;
  review_comments : list ReviewItem;
  reviewed_sha : string;
  skipped : bool;
  skip_reason : string;
}.

(** *** Outbound calls *)

Inductive request :=
| GetPull
| GetCompare (base head : option string)
| ListCommits (page : Z)
| ListIssueComments
| CreateIssueComment (body : string)
| UpdateIssueComment (id : Z) (body : string)
| PatchPullBody (body : string)
| ListReviewComments
| DeleteReviewComment (id : Z)
| ListReviews
| DeleteReview (id : Z)
| PostReview (commit_id body : string) (comments : list ReviewPayload)
| PostReviewComment (body commit_id path : string) (line : Z).

Inductive tier := Light | Heavy.

Inductive llm_site :=
| FileSummary | SummarizeChanges | Summary | ReleaseNotes | ShortSummary
| FileReview.

(** What leaves the process, in order: HTTP requests to GitHub (with
    whether they succeeded) and model invocations. *)
Inductive event :=
| Request (r : request) (ok : bool)
| Invoke (t : tier) (site : llm_site) (prompt : string).

Inductive exn :=
| HTTPError (r : request)
| LLMError (t : tier) (prompt : string)
| AttributeError
| TypeError
| ValueError
| OverflowError.

(** *** Python's [bool] and [int] on a JSON value *)

(** [bool(v)] *)
Definition truthy_value (v : json) : bool :=
  match v with
  | JNull => false
  | JBool b => b
  | JInt n => negb (n =? 0)
  | JFloat (S754_zero _) => false
  | JFloat _ => true
  | JString s => PyStr.truthy s
  | JArray items => match items with [] => false | _ :: _ => true end
  | JObject fields => match fields with [] => false | _ :: _ => true end
  end.

(** [int(x)] for a float: the value [m * 2 ^ e] cut towards zero;
    [ValueError] for NaN and [OverflowError] for an infinity. *)
Definition int_of_float (x : spec_float) : exn + Z :=
  match x with
  | S754_zero _ => inr 0
  | S754_infinity _ => inl OverflowError
  | S754_nan => inl ValueError
  | S754_finite negative m e =>
      let magnitude := Z.shiftl (Z.pos m) e in
      inr (if negative then - magnitude else magnitude)
  end.

(** [int(v)], given [int] on a [str]: [TypeError] for [None], a list and
    a dict, [ValueError] for a string that is no integer. *)
Definition int_of_value (int_of_str : string -> option Z) (v : json) : exn + Z :=
  match v with
  | JInt n => inr n
  | JBool b => inr (if b then 1 else 0)
  | JFloat x => int_of_float x
  | JString s =>
      match int_of_str s with
      | Some n => inr n
      | None => inl ValueError
      end
  | JNull | JArray _ | JObject _ => inl TypeError
  end.

(** [int(item.get(key, 0) or 0)] for the value [field] of the key. *)
Definition int_or_zero (int_of_str : string -> option Z) (field : option json)
  : exn + Z :=
  match field with
  | None => inr 0
  | Some v => if truthy_value v then int_of_value int_of_str v else inr 0
  end.

(** *** The state of one pull request on GitHub *)

Record GitHub := {
  gh_pull : PullRequest;
  gh_commit_pages : list (list Commit);
  gh_compare : option string -> option string -> Compare;
  gh_issue_comments : list IssueComment;
  gh_review_comments : list ReviewComment;
  gh_reviews : list Review;
  gh_next_id : Z;
}.

Definition set_pull (p : PullRequest) (g : GitHub) : GitHub :=
  {| gh_pull := p; gh_commit_pages := gh_commit_pages g;
     gh_compare := gh_compare g; gh_issue_comments := gh_issue_comments g;
     gh_review_comments := gh_review_comments g; gh_reviews := gh_reviews g;
     gh_next_id := gh_next_id g |}.

Definition set_issue_comments (cs : list IssueComment) (next : Z) (g : GitHub) : GitHub :=
  {| gh_pull := gh_pull g; gh_commit_pages := gh_commit_pages g;
     gh_compare := gh_compare g; gh_issue_comments := cs;
     gh_review_comments := gh_review_comments g; gh_reviews := gh_reviews g;
     gh_next_id := next |}.

Definition set_reviews (rcs : list ReviewComment) (rvs : list Review) (next : Z)
    (g : GitHub) : GitHub :=
  {| gh_pull := gh_pull g; gh_commit_pages := gh_commit_pages g;
     gh_compare := gh_compare g; gh_issue_comments := gh_issue_comments g;
     gh_review_comments := rcs; gh_reviews := rvs; gh_next_id := next |}.

(** The process state: GitHub, the commenter's buffer of pending review
    comments, and the log of outbound calls. *)
Record World := {
  w_github : GitHub;
  w_buffer : list Buffered;
  w_trace : list event;
}.

(** What the process cannot control: which requests to GitHub fail (by
    their position in the log), and what the models answer to a prompt
    ([None] when the invocation fails).  Decoding of a model answer
    ([_parse_json] and the dictionary accesses around it) is part of the
    oracle.  [decode_file_summary content] is [None] when [_parse_json]
    finds a JSON value that is not an object, a list or a scalar, on
    which [data.get] raises; otherwise it is the pair of ["summary"], as
    the text it is formatted to in the raw summary, and ["triage"], as
    the string it is compared to, of the object or of the default when
    [content] holds no JSON. *)
Record Env := {
  fault : nat -> bool;
  llm : tier -> nat -> string -> option string;
  decode_file_summary : string -> option (string * string);
  decode_release_notes : string -> list string;
  decode_review_items : string -> list ReviewItem;
}.

(** The service configuration after [__init__]; the prompt slots are the
    templates applied to their fields.  [int_of_str] is [int] on a
    [str] as the interpreter that runs the service computes it ([None]
    for [ValueError]): the digits it accepts and its limit on their
    number depend on the version of Python and its settings. *)
Record Config := {
  github_token : option string;
  review_simple_changes : bool;
  simple_change_threshold : Z;
  skip_extensions : list string;
  review_comment_lgtm : bool;
  max_files : Z;
  ignore_keyword : string;
  update_description_enabled : bool;
  max_comments : Z;
  comment_greeting : string;
  system_message : string;
  file_summary_prompt : string -> string -> string -> string -> string;
  summarize_changes_prompt : string -> string;
  summary_prompt : string -> string;
  release_notes_prompt : string -> string;
  short_summary_prompt : string -> string;
  review_prompt : string -> string -> string -> string -> string;
  int_of_str : string -> option Z;
}.

(** *** The monad *)

Inductive outcome (A : Type) :=
| Returned (a : A)
| Raised (e : exn).
Arguments Returned {A} a.
Arguments Raised {A} e.

Definition M (A : Type) : Type := World -> outcome A * World.

Definition ret {A} (a : A) : M A := fun w => (Returned a, w).

Definition raise {A} (e : exn) : M A := fun w => (Raised e, w).

(** A computation that touches nothing: its value, or the exception. *)
Definition lift {A} (r : exn + A) : M A :=
  match r with
  | inr a => ret a
  | inl e => raise e
  end.

Definition bind {A B} (m : M A) (k : A -> M B) : M B :=
  fun w => match m w with
           | (Returned a, w') => k a w'
           | (Raised e, w') => (Raised e, w')
           end.

Notation "x <- m ;; k" := (bind m (fun x => k))
  (at level 100, m at next level, right associativity).
Notation "m ;;; k" := (bind m (fun _ => k))
  (at level 100, right associativity).

(** [try: m except Exception: h] *)
Definition try_except {A} (m : M A) (h : exn -> M A) : M A :=
  fun w => match m w with
           | (Returned a, w') => (Returned a, w')
           | (Raised e, w') => h e w'
           end.

(** [try: m finally: f] *)
Definition try_finally {A} (m : M A) (f : M unit) : M A :=
  fun w => match m w with
           | (r, w') =>
               match f w' with
               | (Returned _, w'') => (r, w'')
               | (Raised e, w'') => (Raised e, w'')
               end
           end.

Definition log (e : event) (w : World) : World :=
  {| w_github := w_github w; w_buffer := w_buffer w;
     w_trace := w_trace w ++ [e] |}.

Definition set_github (g : GitHub) (w : World) : World :=
  {| w_github := g; w_buffer := w_buffer w; w_trace := w_trace w |}.

Definition set_buffer (b : list Buffered) (w : World) : World :=
  {| w_github := w_github w; w_buffer := b; w_trace := w_trace w |}.

Definition get_buffer : M (list Buffered) := fun w => (Returned (w_buffer w), w).
Definition put_buffer (b : list Buffered) : M unit :=
  fun w => (Returned tt, set_buffer b w).

(** [for x in xs: body x] *)
Fixpoint for_each {A} (xs : list A) (body : A -> M unit) : M unit :=
  match xs with
  | [] => ret tt
  | x :: xs' => body x ;;; for_each xs' body
  end.

(** ** github_commenter.py: the methods that talk to GitHub *)

Section Client.
Import PyStr Commenter.
Context (cfg : Config) (env : Env).

(** [GitHubCommenter._request].  The request fails when the environment
    makes it fail or when GitHub rejects it ([raise_for_status]); the
    failure is logged and raised again. *)
Definition _request {A} (r : request) (serve : GitHub -> option (A * GitHub)) : M A :=
  fun w =>
    if fault env (length (w_trace w))
    then (Raised (HTTPError r), log (Request r false) w)
    else match serve (w_github w) with
         | Some (a, g') => (Returned a, log (Request r true) (set_github g' w))
         | None => (Raised (HTTPError r), log (Request r false) w)
         end.

Definition serve_read {A} (f : GitHub -> A) (g : GitHub) : option (A * GitHub) :=
  Some (f g, g).

(** GitHub's side of the writes. *)
Definition serve_create_issue_comment (body : string) (g : GitHub)
  : option (IssueComment * GitHub) :=
  let c := {| ic_id := gh_next_id g; ic_body := Some body |} in
  Some (c, set_issue_comments (gh_issue_comments g ++ [c]) (gh_next_id g + 1) g).

Definition serve_update_issue_comment (id : Z) (body : string) (g : GitHub)
  : option (IssueComment * GitHub) :=
  let c' := {| ic_id := id; ic_body := Some body |} in
  if existsb (fun c => ic_id c =? id) (gh_issue_comments g)
  then Some (c', set_issue_comments
                   (map (fun c => if ic_id c =? id then c' else c) (gh_issue_comments g))
                   (gh_next_id g) g)
  else None.

Definition serve_delete_review_comment (id : Z) (g : GitHub) : option (unit * GitHub) :=
  if existsb (fun c => rc_id c =? id) (gh_review_comments g)
  then Some (tt, set_reviews
                   (List.filter (fun c => negb (rc_id c =? id)) (gh_review_comments g))
                   (gh_reviews g) (gh_next_id g) g)
  else None.

Definition serve_delete_review (id : Z) (g : GitHub) : option (unit * GitHub) :=
  if existsb (fun r => rv_id r =? id) (gh_reviews g)
  then Some (tt, set_reviews (gh_review_comments g)
                   (List.filter (fun r => negb (rv_id r =? id)) (gh_reviews g))
                   (gh_next_id g) g)
  else None.

Fixpoint number_from {A B} (n : Z) (f : Z -> A -> B) (l : list A) : list B :=
  match l with
  | [] => []
  | x :: l' => f n x :: number_from (n + 1) f l'
  end.

Definition serve_post_review (comments : list ReviewPayload) (g : GitHub)
  : option (unit * GitHub) :=
  let posted :=
    number_from (gh_next_id g + 1)
      (fun id p => {| rc_id := id; rc_body := Some (pl_body p);
                      rc_in_reply_to := None; rc_login := None |})
      comments in
  Some (tt, set_reviews (gh_review_comments g ++ posted)
              (gh_reviews g ++ [{| rv_id := gh_next_id g; rv_state := "COMMENTED" |}])
              (gh_next_id g + 1 + Z.of_nat (length comments)) g).

Definition serve_post_review_comment (body : string) (g : GitHub)
  : option (ReviewComment * GitHub) :=
  let c := {| rc_id := gh_next_id g; rc_body := Some body;
              rc_in_reply_to := None; rc_login := None |} in
  Some (c, set_reviews (gh_review_comments g ++ [c]) (gh_reviews g)
              (gh_next_id g + 1) g).

Definition serve_patch_pull_body (body : string) (g : GitHub) : option (unit * GitHub) :=
  Some (tt, set_pull {| pr_title := pr_title (gh_pull g); pr_body := Some body;
                        pr_head_sha := pr_head_sha (gh_pull g);
                        pr_base_sha := pr_base_sha (gh_pull g) |} g).

Definition list_issue_comments : M (list IssueComment) :=
  _request ListIssueComments (serve_read gh_issue_comments).

Definition create_issue_comment (body : string) : M IssueComment :=
  _request (CreateIssueComment body) (serve_create_issue_comment body).

Definition update_issue_comment (comment_id : Z) (body : string) : M IssueComment :=
  _request (UpdateIssueComment comment_id body)
           (serve_update_issue_comment comment_id body).

(** [tag in (comment.get("body") or "")] *)
Definition has_tag (tag : string) (c : IssueComment) : bool :=
  contains tag (default "" (ic_body c)).

(** [upsert_issue_comment_by_tag] *)
Definition upsert_issue_comment_by_tag (body tag : string) : M IssueComment :=
  comments <- list_issue_comments ;;
  match List.find (has_tag tag) comments with
  | Some comment => update_issue_comment (ic_id comment) body
  | None => create_issue_comment body
  end.

(** [find_issue_comment_with_tag] *)
Definition find_issue_comment_with_tag (tag : string) : M (option IssueComment) :=
  comments <- list_issue_comments ;;
  ret (List.find (has_tag tag) comments).

Definition list_review_comments : M (list ReviewComment) :=
  _request ListReviewComments (serve_read gh_review_comments).

Definition delete_review_comment (comment_id : Z) : M unit :=
  _request (DeleteReviewComment comment_id) (serve_delete_review_comment comment_id).

Definition list_reviews : M (list Review) :=
  _request ListReviews (serve_read gh_reviews).

(** [delete_pending_review] *)
Definition delete_pending_review : M unit :=
  try_except
    (reviews <- list_reviews ;;
     match List.find (fun r => String.eqb (rv_state r) "PENDING") reviews with
     | Some pending => _request (DeleteReview (rv_id pending))
                                (serve_delete_review (rv_id pending))
     | None => ret tt
     end)
    (fun _ => ret tt).

(** [buffer_review_comment] *)
Definition buffer_review_comment (path : string) (start_line end_line : Z)
    (message : string) : M unit :=
  let body := comment_greeting cfg ++ NL ++ NL ++ message ++ NL ++ NL ++ COMMENT_TAG in
  buffer <- get_buffer ;;
  put_buffer (buffer ++ [{| bf_path := path; bf_start_line := start_line;
                            bf_end_line := end_line; bf_message := body |}]).

(** [create_review_comment] *)
Definition create_review_comment (body commit_id path : string) (line : Z)
  : M ReviewComment :=
  _request (PostReviewComment body commit_id path line)
           (serve_post_review_comment body).

(** The entry of ["comments"] that [submit_review] builds from a
    buffered comment. *)
Definition comment_data (c : Buffered) : ReviewPayload :=
  {| pl_path := bf_path c; pl_body := bf_message c; pl_line := bf_end_line c;
     pl_start_line := if bf_start_line c =? bf_end_line c then None
                      else Some (bf_start_line c) |}.

(** [submit_review] *)
Definition submit_review (commit_id status_msg : string) : M unit :=
  let body := comment_greeting cfg ++ NL ++ NL ++ status_msg in
  buffer <- get_buffer ;;
  let comments_payload := map comment_data buffer in
  try_finally
    (try_except
       (existing <- list_review_comments ;;
        for_each existing
          (fun e => if contains COMMENT_TAG (default "" (rc_body e))
                    then try_except (delete_review_comment (rc_id e))
                                    (fun _ => ret tt)
                    else ret tt) ;;;
        delete_pending_review ;;;
        _request (PostReview commit_id body comments_payload)
                 (serve_post_review comments_payload))
       (fun _ =>
          pending <- get_buffer ;;
          for_each pending
            (fun c => try_except
                        (create_review_comment (bf_message c) commit_id
                           (bf_path c) (bf_end_line c) ;;; ret tt)
                        (fun _ => ret tt))))
    (put_buffer []).

(** [[c.get("sha") for c in data if c.get("sha")]] *)
Definition shas_of (data : list Commit) : list string :=
  omap (fun c => match commit_sha c with
                 | Some s => if truthy s then Some s else None
                 | None => None
                 end) data.

(** [get_all_commit_ids]: pages are requested until one comes back
    empty; [remaining] are the pages GitHub has from [page] on. *)
Fixpoint get_all_commit_ids_from (remaining : list (list Commit)) (page : Z)
    (commits : list string) : M (list string) :=
  data <- _request (ListCommits page) (serve_read (fun _ => hd [] remaining)) ;;
  match remaining with
  | [] => ret commits
  | _ :: rest =>
      match data with
      | [] => ret commits
      | _ :: _ =>
          get_all_commit_ids_from rest (page + 1) (commits ++ shas_of data)%list
      end
  end.

Definition get_all_commit_ids : M (list string) :=
  fun w => get_all_commit_ids_from (gh_commit_pages (w_github w)) 1 [] w.

(** [update_description] *)
Definition update_description (message : string) : M unit :=
  try_except
    (pr <- _request GetPull (serve_read gh_pull) ;;
     let body := default "" (pr_body pr) in
     let description := get_description body in
     let clean_message :=
       remove_content_within_tags message DESCRIPTION_START_TAG DESCRIPTION_END_TAG in
     let new_description :=
       strip (description ++ NL ++ NL ++ DESCRIPTION_START_TAG ++ NL
              ++ clean_message ++ NL ++ DESCRIPTION_END_TAG) in
     _request (PatchPullBody new_description) (serve_patch_pull_body new_description))
    (fun _ => ret tt).

(** [by_id = {c.get("id"): c for c in comments}]: a later comment
    replaces an earlier one with the same id. *)
Definition index_by_id (comments : list ReviewComment) : gmap Z ReviewComment :=
  fold_left (fun m c => <[rc_id c := c]> m) comments ∅.

(** The [while current:] loop of [get_comment_chain].  [None] when the
    loop has not finished after [fuel] iterations. *)
Fixpoint walk_chain (fuel : nat) (by_id : gmap Z ReviewComment)
    (chain : list ReviewComment) (current top_level : ReviewComment)
  : option (list ReviewComment * ReviewComment) :=
  match fuel with
  | O => None
  | S fuel' =>
      let chain := (chain ++ [current])%list in
      match rc_in_reply_to current with
      | None => Some (chain, current)
      | Some parent_id =>
          if parent_id =? 0 then Some (chain, current)
          else match by_id !! parent_id with
               | Some parent => walk_chain fuel' by_id chain parent top_level
               | None => Some (chain, top_level)
               end
      end
  end.

Definition chain_line (c : ReviewComment) : string :=
  default "user" (rc_login c) ++ ": " ++ default "" (rc_body c).

(** What [get_comment_chain] computes from the listed comments. *)
Definition comment_chain (fuel : nat) (comments : list ReviewComment)
    (comment : ReviewComment) : option (string * ReviewComment) :=
  match walk_chain fuel (index_by_id comments) [] comment comment with
  | Some (chain, top_level) =>
      Some (join NL (map chain_line (rev chain)), top_level)
  | None => None
  end.

(** [get_comment_chain] *)
Definition get_comment_chain (fuel : nat) (comment : ReviewComment)
  : M (option (string * ReviewComment)) :=
  comments <- list_review_comments ;;
  ret (comment_chain fuel comments comment).

End Client.

(** ** github_pr_fetcher.py and pr_review_service.py *)

Module Service.
Import PyStr Commenter.

Definition RAW_SUMMARY_START_TAG :=
  "<!-- auto-generated: raw summary start -->" ++ NL ++ "<!--".
Definition RAW_SUMMARY_END_TAG :=
  "-->" ++ NL ++ "<!-- auto-generated: raw summary end -->".
Definition SHORT_SUMMARY_START_TAG :=
  "<!-- auto-generated: short summary start -->" ++ NL ++ "<!--".
Definition SHORT_SUMMARY_END_TAG :=
  "-->" ++ NL ++ "<!-- auto-generated: short summary end -->".

(** [c.lower()] on code points below 256 *)
Definition lower_char (c : ascii) : ascii :=
  let n := code c in
  if ((65 <=? n) && (n <=? 90)
      || (192 <=? n) && (n <=? 222) && negb (n =? 215))%nat
  then ascii_of_nat (n + 32) else c.

Fixpoint lower (s : string) : string :=
  match s with
  | "" => ""
  | String c t => String (lower_char c) (lower t)
  end.

(** [s.split(".")[-1]], with [cur] the segment read so far *)
Fixpoint last_segment_from (cur s : string) : string :=
  match s with
  | "" => cur
  | String c t =>
      if Ascii.eqb c "." then last_segment_from "" t
      else last_segment_from (cur ++ String c "") t
  end.

Definition last_segment (s : string) : string := last_segment_from "" s.

(** [l[:n]] *)
Definition slice_to {A} (n : Z) (l : list A) : list A :=
  if 0 <=? n then firstn (Z.to_nat n) l
  else firstn (length l - Z.to_nat (- n)) l.

(** One iteration of the loop of [_extract_numbered_hunks], on the
    pair of [numbered_lines] and [new_line]. *)
Definition number_line (st : list string * Z) (line : string) : list string * Z :=
  let '(numbered_lines, new_line) := st in
  if startswith "@@" line then
    let new_line' := match search_plus_digits line with
                     | Some d => int_of_digits d
                     | None => 0
                     end in
    ((numbered_lines ++ [line])%list, new_line')
  else if startswith "+" line then
    ((numbered_lines ++ [(str new_line ++ ":+" ++ tail line)%string])%list, new_line + 1)
  else if startswith "-" line then
    ((numbered_lines ++ [("-: " ++ tail line)%string])%list, new_line)
  else
    ((numbered_lines
        ++ [(str new_line ++ ": "
               ++ (if startswith " " line then tail line else line))%string])%list,
     new_line + 1).

Definition numbered_lines_of (patch : string) : list string :=
  fst (fold_left number_line (splitlines patch) ([], 0)).

(** [_extract_numbered_hunks] *)
Definition _extract_numbered_hunks (patch : string) : string :=
  if negb (truthy patch) then ""
  else join NL (numbered_lines_of patch).

Section WithConfig.
Context (cfg : Config) (env : Env).

Definition has_token : bool :=
  match github_token cfg with
  | Some t => truthy t
  | None => false
  end.

Definition total_changes (files : list FileChange) : Z :=
  fold_left Z.add
    (map (fun f => default 0 (fc_additions f) + default 0 (fc_deletions f)) files) 0.

Definition extensions_of (files : list FileChange) : list string :=
  map (fun f => lower (last_segment (default "" (fc_filename f))))
      (List.filter (fun f => truthy (default "" (fc_filename f))) files).

Definition simple_changes_reason : string :=
  "simple changes (<= " ++ str (simple_change_threshold cfg) ++ " lines)".

(** [_should_skip_review]; the set [extensions] is kept as a list. *)
Definition _should_skip_review (files : list FileChange) : bool * string :=
  let extensions := extensions_of files in
  if negb (review_simple_changes cfg)
     && (total_changes files <=? simple_change_threshold cfg)
  then (true, simple_changes_reason)
  else if negb (bool_decide (extensions = []))
          && forallb (fun e => bool_decide (e ∈ skip_extensions cfg)) extensions
  then (true, "documentation-only changes")
  else (false, "").

(** [GitHubPRAnalyzer]: a failed request is logged and answered by
    [None]. *)
Definition get_pr_details : M (option PullRequest) :=
  try_except
    (pr <- _request env GetPull (serve_read gh_pull) ;; ret (Some pr))
    (fun _ => ret None).

Definition compare_branches (base head : option string) : M (option Compare) :=
  try_except
    (c <- _request env (GetCompare base head)
            (serve_read (fun g => gh_compare g base head)) ;;
     ret (Some c))
    (fun _ => ret None).

(** [await llm.invoke(prompt)] *)
Definition invoke (t : tier) (site : llm_site) (prompt : string) : M string :=
  fun w => match llm env t (length (w_trace w)) prompt with
           | Some answer => (Returned answer, log (Invoke t site prompt) w)
           | None => (Raised (LLMError t prompt), log (Invoke t site prompt) w)
           end.

(** [_run_file_summary] *)
Definition _run_file_summary (pr_details : PullRequest) (path diff_text : string)
  : M (string * string) :=
  let prompt :=
    file_summary_prompt cfg (pr_title pr_details)
      (String.substring 0 2000 (default "" (pr_body pr_details)))
      path diff_text in
  content <- invoke Light FileSummary prompt ;;
  match decode_file_summary env content with
  | Some st => ret st
  | None => raise AttributeError
  end.

(** [_run_summary] *)
Definition _run_summary (raw_summary : string)
  : M (string * list string * string) :=
  combined <- invoke Heavy SummarizeChanges (summarize_changes_prompt cfg raw_summary) ;;
  let raw_summary := if truthy combined then combined else raw_summary in
  summary <- invoke Heavy Summary (summary_prompt cfg raw_summary) ;;
  release_response <- invoke Heavy ReleaseNotes (release_notes_prompt cfg raw_summary) ;;
  let release_notes := decode_release_notes env release_response in
  short_summary <- invoke Heavy ShortSummary (short_summary_prompt cfg raw_summary) ;;
  ret (strip summary, release_notes, strip short_summary).

(** The normalisation of one item in [_run_file_review]. *)
Definition normalize_item (path : string) (item : ReviewItem) : ReviewItem :=
  let p := if truthy (default "" (it_path item)) then it_path item else Some path in
  let e := match it_line item, it_end_line item with
           | Some l, None => Some l
           | _, e => e
           end in
  let s := match it_start_line item, e with
           | None, Some l => Some l
           | s, _ => s
           end in
  {| it_path := p; it_line := it_line item; it_start_line := s;
     it_end_line := e; it_comment := it_comment item |}.

(** [_run_file_review] *)
Definition _run_file_review (path patch short_summary : string)
  : M (list ReviewItem) :=
  let numbered_hunks := _extract_numbered_hunks patch in
  if negb (truthy (strip numbered_hunks)) then ret []
  else
    let prompt := review_prompt cfg (system_message cfg) path short_summary
                    numbered_hunks in
    content <- invoke Heavy FileReview prompt ;;
    ret (map (normalize_item path) (decode_review_items env content)).

Definition skip_result (sha reason : string) : ReviewResult :=
  {| summary := ""; release_notes := []; raw_summary := ""; short_summary := "";
     review_comments := []; reviewed_sha := sha; skipped := true;
     skip_reason := reason |}.

(** The first [for file in files] loop of [review_pr]; the result is
    [summaries]. *)
Fixpoint summarize_files (pr_details : PullRequest) (files : list FileChange)
    (summaries : list (string * string * string))
  : M (list (string * string * string)) :=
  match files with
  | [] => ret summaries
  | file :: rest =>
      let path := default "" (fc_filename file) in
      let patch := default "" (fc_patch file) in
      if negb (truthy path) || negb (truthy patch)
      then summarize_files pr_details rest summaries
      else
        let ext := if contains "." path then lower (last_segment path) else "" in
        if bool_decide (ext ∈ skip_extensions cfg)
        then summarize_files pr_details rest summaries
        else
          st <- _run_file_summary pr_details path patch ;;
          let summaries := (summaries ++ [(path, fst st, snd st)])%list in
          if (0 <? max_files cfg)
             && (max_files cfg <=? Z.of_nat (length summaries))
          then ret summaries
          else summarize_files pr_details rest summaries
  end.

(** [next((t for p, _, t in summaries if p == path), "NEEDS_REVIEW")] *)
Definition triage_of (summaries : list (string * string * string)) (path : string)
  : string :=
  match List.find (fun s => String.eqb (fst (fst s)) path) summaries with
  | Some s => snd s
  | None => "NEEDS_REVIEW"
  end.

(** The second [for file in files] loop of [review_pr]; the result is
    [review_comments]. *)
Fixpoint review_files (files : list FileChange)
    (summaries : list (string * string * string))
    (simple_reason short_summary : string) (review_comments : list ReviewItem)
  : M (list ReviewItem) :=
  match files with
  | [] => ret review_comments
  | file :: rest =>
      let path := default "" (fc_filename file) in
      let patch := default "" (fc_patch file) in
      if negb (truthy path) || negb (truthy patch)
      then review_files rest summaries simple_reason short_summary review_comments
      else
        let triage := triage_of summaries path in
        if negb (review_simple_changes cfg) && truthy simple_reason
        then review_files rest summaries simple_reason short_summary review_comments
        else if negb (review_simple_changes cfg) && String.eqb triage "APPROVED"
        then review_files rest summaries simple_reason short_summary review_comments
        else
          comments <- _run_file_review path patch short_summary ;;
          review_files rest summaries simple_reason short_summary
            (review_comments ++ comments)%list
  end.

(** The part of [review_pr] that follows the comparison, [files] being
    the files it returned. *)
Definition review_compared (pr_details : PullRequest) (files : list FileChange)
  : M ReviewResult :=
  let head_sha := pr_head_sha pr_details in
  match files with
  | [] => ret (skip_result (default "" head_sha) "no files to review")
  | _ :: _ =>
      let '(skipped, reason) := _should_skip_review files in
      let skip_reviews :=
        skipped && String.eqb reason "documentation-only changes" in
      let simple_reason := if skipped then reason else "" in
      summaries <- summarize_files pr_details files [] ;;
      let raw_summary :=
        join NL (map (fun s => fst (fst s) ++ ": " ++ snd (fst s)) summaries) in
      sm <- _run_summary raw_summary ;;
      let '(summary, release_notes, short_summary) := sm in
      if skip_reviews
      then ret {| summary := summary; release_notes := release_notes;
                  raw_summary := raw_summary;
                  short_summary := short_summary;
                  review_comments := [];
                  reviewed_sha := default "" head_sha;
                  skipped := false; skip_reason := "" |}
      else
        review_comments <-
          review_files files summaries simple_reason short_summary [] ;;
        ret {| summary := summary; release_notes := release_notes;
               raw_summary := raw_summary;
               short_summary := short_summary;
               review_comments := review_comments;
               reviewed_sha := default "" head_sha;
               skipped := false; skip_reason := "" |}
  end.

(** [review_pr] *)
Definition review_pr : M ReviewResult :=
  pr_details <- get_pr_details ;;
  match pr_details with
  | None => ret (skip_result "" "failed to fetch PR details")
  | Some pr_details =>
      let description := default "" (pr_body pr_details) in
      if truthy (ignore_keyword cfg) && contains (ignore_keyword cfg) description
      then ret (skip_result "" "ignored by keyword")
      else
        let head_sha := pr_head_sha pr_details in
        let base_sha := pr_base_sha pr_details in
        existing_summary <- find_issue_comment_with_tag env SUMMARIZE_TAG ;;
        let existing_body :=
          match existing_summary with
          | Some c => default "" (ic_body c)
          | None => ""
          end in
        let existing_block := get_reviewed_commit_ids_block existing_body in
        let reviewed_ids := get_reviewed_commit_ids existing_block in
        all_commits <- (if has_token then get_all_commit_ids env else ret []) ;;
        let highest_reviewed :=
          get_highest_reviewed_commit_id all_commits reviewed_ids in
        let compare_base :=
          if truthy highest_reviewed then Some highest_reviewed else base_sha in
        compare <- compare_branches compare_base head_sha ;;
        match compare with
        | None => ret (skip_result (default "" head_sha) "failed to compare commits")
        | Some compare => review_compared pr_details (default [] (cmp_files compare))
        end
  end.

(** [_build_summary_comment] *)
Definition _build_summary_comment (summary : string) (release_notes : list string)
    (raw_summary short_summary commit_id_block : string) : string :=
  let notes := match release_notes with
               | [] => "- (none)"
               | _ :: _ => join NL (map (fun n => "- " ++ n) release_notes)
               end in
  SUMMARIZE_TAG ++ NL
  ++ "### Summary" ++ NL ++ NL ++ summary ++ NL ++ NL
  ++ "### Release Notes" ++ NL ++ notes ++ NL ++ NL
  ++ RAW_SUMMARY_START_TAG ++ NL ++ raw_summary ++ NL ++ RAW_SUMMARY_END_TAG ++ NL
  ++ SHORT_SUMMARY_START_TAG ++ NL ++ short_summary ++ NL ++ SHORT_SUMMARY_END_TAG
  ++ NL ++ NL
  ++ commit_id_block ++ NL.

(** The body of the [for comment in result.review_comments[:max_comments]]
    loop of [post_review]; the two calls of [int] come before the tests
    and may raise. *)
Definition buffer_item (comment : ReviewItem) : M unit :=
  let path := default "" (it_path comment) in
  start_line <- lift (int_or_zero (int_of_str cfg) (it_start_line comment)) ;;
  end_line <- lift (int_or_zero (int_of_str cfg) (it_end_line comment)) ;;
  let message := default "" (it_comment comment) in
  if negb (truthy path) || negb (truthy message) || (end_line <=? 0) then ret tt
  else if negb (review_comment_lgtm cfg) && contains "LGTM" message then ret tt
  else buffer_review_comment cfg path
         (if start_line =? 0 then end_line else start_line) end_line message.

(** [post_review] *)
Definition post_review : M ReviewResult :=
  result <- review_pr ;;
  if skipped result then ret result
  else if negb has_token then ret result
  else
    pr_details <- get_pr_details ;;
    let commit_id :=
      match pr_details with
      | Some pr => pr_head_sha pr
      | None => None
      end in
    existing_summary <- find_issue_comment_with_tag env SUMMARIZE_TAG ;;
    let existing_body :=
      match existing_summary with
      | Some c => default "" (ic_body c)
      | None => ""
      end in
    let existing_block := get_reviewed_commit_ids_block existing_body in
    let commit_id_block :=
      add_reviewed_commit_id existing_block (reviewed_sha result) in
    let summary_body :=
      _build_summary_comment (summary result) (release_notes result)
        (raw_summary result) (short_summary result) commit_id_block in
    upsert_issue_comment_by_tag env summary_body SUMMARIZE_TAG ;;;
    (if update_description_enabled cfg
        && negb (bool_decide (release_notes result = []))
     then update_description env
            (join NL (map (fun n => "- " ++ n) (release_notes result)))
     else ret tt) ;;;
    (match commit_id, review_comments result with
     | Some commit_id, _ :: _ =>
         if truthy commit_id then
           for_each (slice_to (max_comments cfg) (review_comments result))
                    buffer_item ;;;
           submit_review cfg env commit_id "Review completed"
         else ret tt
     | _, _ => ret tt
     end) ;;;
    ret result.

End WithConfig.
End Service.

(** ** Vocabulary of the specification *)

Module Diff.
Import PyStr Service.

(** The kinds of line of a unified diff, as the annotator tells them
    apart: a hunk header starts with [@@], an added line with [+], a
    removed line with [-], and every other line is taken for a context
    line, also one that is none in the diff, such as the marker
    [\ No newline at end of file]. *)
Definition is_header (line : string) : bool := startswith "@@" line.

Definition is_added (line : string) : bool :=
  negb (is_header line) && startswith "+" line.


Definition is_context (line : string) : bool :=
  negb (is_header line) && negb (startswith "+" line) && negb (startswith "-" line).

(** The lines that have a position in the new version of the file. *)
Definition takes_position (line : string) : bool := is_added line || is_context line.

Definition positions_in (lines : list string) : Z :=
  Z.of_nat (length (List.filter takes_position lines)).





(** What the loop of [_extract_numbered_hunks] appends for [line] when
    [new_line] is [n], and the value of [new_line] after it. *)
Definition render_line (n : Z) (line : string) : string :=
  List.last (fst (number_line ([], n) line)) "".

Definition next_line (n : Z) (line : string) : Z := snd (number_line ([], n) line).

(** A string that starts with a character that is not white space. *)
Definition starts_solid (s : string) : Prop :=
  ∃ c t, s = String c t ∧ isspace c = false.


Fixpoint render_lines (n : Z) (lines : list string) : list string :=
  match lines with
  | [] => []
  | line :: rest => render_line n line :: render_lines (next_line n line) rest
  end.

Fixpoint counter_after (n : Z) (lines : list string) : Z :=
  match lines with
  | [] => n
  | line :: rest => counter_after (next_line n line) rest
  end.

End Diff.

Module Store.
Import PyStr Commenter.

Definition no_linebreak (s : string) : Prop :=
  forallb (λ c, negb (is_linebreak c)) (list_ascii_of_string s) = true.

(** A commit id as it is read from a ledger: one non-empty line without
    white space around it. *)
Definition clean_id (id : string) : Prop :=
  strip id = id ∧ id ≠ "" ∧ no_linebreak id.

(** The issue comments of the pull request that carry [tag]. *)
Definition tagged (tag : string) (g : GitHub) : list IssueComment :=
  List.filter (has_tag tag) (gh_issue_comments g).

(** GitHub gives every comment an id of its own, and a new comment an id
    that no comment has yet. *)
Definition ids_fresh (g : GitHub) : Prop :=
  NoDup (map ic_id (gh_issue_comments g))
  ∧ Forall (λ c, ic_id c < gh_next_id g) (gh_issue_comments g).

(** What GitHub does to the comments on an update of comment [id]. *)
Definition updated (id : Z) (body : string) (comments : list IssueComment)
  : list IssueComment :=
  map (λ c, if ic_id c =? id then {| ic_id := id; ic_body := Some body |} else c)
      comments.

(** Two upserts in a row, each answered, leave one tagged comment. *)
Definition one_tagged_after_two_upserts (env : Env) (tag body1 body2 : string)
    (w : World) : Prop :=
  ∃ c1 w1 c2 w2,
    upsert_issue_comment_by_tag env body1 tag w = (Returned c1, w1)
    ∧ upsert_issue_comment_by_tag env body2 tag w1 = (Returned c2, w2)
    ∧ length (tagged tag (w_github w2)) = 1%nat.

(** [walks by_id comment current visited top_level]: starting at
    [current] and following [in_reply_to] through [by_id], the comments
    met are [visited], in the order they are met, and the walk ends with
    [top_level] as the top-level comment: the comment that has no parent,
    or the triggering [comment] when a parent id is not in [by_id]. *)
Inductive walks (by_id : gmap Z ReviewComment) (comment : ReviewComment)
  : ReviewComment → list ReviewComment → ReviewComment → Prop :=
| walks_root current :
    rc_in_reply_to current = None ∨ rc_in_reply_to current = Some 0 →
    walks by_id comment current [current] current
| walks_orphan current parent_id :
    rc_in_reply_to current = Some parent_id →
    parent_id ≠ 0 →
    by_id !! parent_id = None →
    walks by_id comment current [current] comment
| walks_up current parent_id parent visited top_level :
    rc_in_reply_to current = Some parent_id →
    parent_id ≠ 0 →
    by_id !! parent_id = Some parent →
    walks by_id comment parent visited top_level →
    walks by_id comment current (current :: visited) top_level.

(** The reply links of [comment] and [comments] do not loop: every
    comment ranks strictly above the comment it replies to. *)
Definition ranked (rank : ReviewComment → nat) (comments : list ReviewComment)
    (comment : ReviewComment) : Prop :=
  ∀ c parent_id parent,
    c ∈ comment :: comments →
    rc_in_reply_to c = Some parent_id →
    index_by_id comments !! parent_id = Some parent →
    (rank parent < rank c)%nat.

End Store.

Module Cycle.
Import PyStr Commenter Service.

(** The world after the outbound calls [evs], none of which changed
    GitHub or the buffer. *)
Definition extend (evs : list event) (w : World) : World :=
  {| w_github := w_github w; w_buffer := w_buffer w; w_trace := w_trace w ++ evs |}.

(** The world after the outbound calls [evs], which left GitHub in the
    state [g] and did not touch the buffer. *)
Definition evolve (g : GitHub) (evs : list event) (w : World) : World :=
  {| w_github := g; w_buffer := w_buffer w; w_trace := w_trace w ++ evs |}.


(** [quiet P m]: whatever happens, [m] leaves the buffer alone and makes
    only calls that satisfy [P]. *)
Definition quiet {A} (P : event → bool) (m : M A) : Prop :=
  ∀ w, ∃ r g evs, m w = (r, evolve g evs w) ∧ forallb P evs = true.

(** [steps P m]: [m] is quiet and never raises. *)
Definition steps {A} (P : event → bool) (m : M A) : Prop :=
  ∀ w, ∃ a g evs, m w = (Returned a, evolve g evs w) ∧ forallb P evs = true.

Definition is_llm_call (e : event) : bool :=
  match e with
  | Invoke _ _ _ => true
  | Request _ _ => false
  end.


Definition is_file_summary_call (e : event) : bool :=
  match e with
  | Invoke Light FileSummary _ => true
  | _ => false
  end.

(** The calls that write to GitHub: the summary upsert, the description
    update, the review submission and what goes with them. *)
Definition is_publish_call (e : event) : bool :=
  match e with
  | Request (CreateIssueComment _) _ | Request (UpdateIssueComment _ _) _
  | Request (PatchPullBody _) _ | Request (PostReview _ _ _) _
  | Request (PostReviewComment _ _ _ _) _ | Request (DeleteReviewComment _) _
  | Request (DeleteReview _) _ => true
  | _ => false
  end.

(** The calls that submit inline comments. *)
Definition is_inline_submission (e : event) : bool :=
  match e with
  | Request (PostReview _ _ _) _ | Request (PostReviewComment _ _ _ _) _ => true
  | _ => false
  end.

Definition not_inline (e : event) : bool := negb (is_inline_submission e).

(** The requests that read the pull request. *)
Definition is_fetch (e : event) : bool :=
  match e with
  | Request GetPull true | Request ListIssueComments true
  | Request (ListCommits _) true | Request (GetCompare _ _) true => true
  | _ => false
  end.

(** The commit ids that the paging loop of [get_all_commit_ids] collects
    from the pages GitHub has. *)
Fixpoint listed_commit_ids (pages : list (list Commit)) : list string :=
  match pages with
  | [] => []
  | [] :: _ => []
  | data :: rest => (shas_of data ++ listed_commit_ids rest)%list
  end.

(** The ledger read from the summary comment of the pull request. *)
Definition reviewed_ids_of (g : GitHub) : list string :=
  get_reviewed_commit_ids
    (get_reviewed_commit_ids_block
       match List.find (has_tag SUMMARIZE_TAG) (gh_issue_comments g) with
       | Some c => default "" (ic_body c)
       | None => ""
       end).

(** [compare_base]: the highest reviewed commit, or else the base of the
    pull request. *)
Definition compare_base_of (cfg : Config) (g : GitHub) : option string :=
  let all_commits :=
    if has_token cfg then listed_commit_ids (gh_commit_pages g) else [] in
  let highest := get_highest_reviewed_commit_id all_commits (reviewed_ids_of g) in
  if truthy highest then Some highest else pr_base_sha (gh_pull g).

(** The files of the comparison of [compare_base] against the head. *)
Definition compared_files (cfg : Config) (g : GitHub) : list FileChange :=
  default [] (cmp_files (gh_compare g (compare_base_of cfg g)
                                    (pr_head_sha (gh_pull g)))).

(** The description carries the ignore keyword. *)
Definition ignored (cfg : Config) (g : GitHub) : bool :=
  truthy (ignore_keyword cfg)
  && contains (ignore_keyword cfg) (default "" (pr_body (gh_pull g))).

(** The line that [post_review] reads under a key: [None] when [int]
    raises. *)
Definition line_of (cfg : Config) (field : option json) : option Z :=
  match int_or_zero (int_of_str cfg) field with
  | inr n => Some n
  | inl _ => None
  end.



(** The entry that [post_review] buffers for a comment it keeps. *)
Definition buffered_of (cfg : Config) (comment : ReviewItem) : Buffered :=
  let start_line := default 0 (line_of cfg (it_start_line comment)) in
  let end_line := default 0 (line_of cfg (it_end_line comment)) in
  {| bf_path := default "" (it_path comment);
     bf_start_line := if start_line =? 0 then end_line else start_line;
     bf_end_line := end_line;
     bf_message := comment_greeting cfg ++ NL ++ NL ++ default "" (it_comment comment)
                   ++ NL ++ NL ++ COMMENT_TAG |}.

End Cycle.

(** ** Sample inputs *)

Module Samples.
Import PyStr Commenter Service.

(** The default configuration, with a token, and prompt slots that keep
    the fields apart. *)
Definition cfg0 : Config :=
  {| github_token := Some "token";
     review_simple_changes := false;
     simple_change_threshold := 20;
     skip_extensions := ["md"; "txt"; "rst"; "png"; "jpg"; "jpeg"; "gif"];
     review_comment_lgtm := false;
     max_files := 0;
     ignore_keyword := "@coderabbitai: ignore";
     update_description_enabled := true;
     max_comments := 20;
     comment_greeting := "CodeRabbit";
     system_message := "You are a senior code reviewer. Be concise and actionable.";
     file_summary_prompt := fun title description path diff =>
       "summarize " ++ path ++ NL ++ diff;
     summarize_changes_prompt := fun raw => "merge " ++ raw;
     summary_prompt := fun raw => "summary " ++ raw;
     release_notes_prompt := fun raw => "notes " ++ raw;
     short_summary_prompt := fun raw => "short " ++ raw;
     review_prompt := fun system path short hunks =>
       "review " ++ path ++ NL ++ hunks;
     int_of_str := cpython_int |}.

(** An environment in which no request fails and the models echo. *)
Definition env0 : Env :=
  {| fault := fun _ => false;
     llm := fun _ _ prompt => Some ("re: " ++ prompt);
     decode_file_summary := fun content => Some (content, "NEEDS_REVIEW");
     decode_release_notes := fun content => [content];
     decode_review_items := fun content =>
       [{| it_path := None; it_line := Some (JInt 3); it_start_line := None;
           it_end_line := None; it_comment := Some content |}] |}.

(** A thread of three review comments, and a comment that replies to
    itself. *)
Definition thread : list ReviewComment :=
  [{| rc_id := 11; rc_body := Some "why a loop here?"; rc_in_reply_to := None;
      rc_login := Some "ann" |};
   {| rc_id := 12; rc_body := Some "it is bounded"; rc_in_reply_to := Some 11;
      rc_login := Some "bob" |};
   {| rc_id := 13; rc_body := Some "@coderabbitai explain"; rc_in_reply_to := Some 12;
      rc_login := None |}].

Definition thread_last : ReviewComment :=
  {| rc_id := 13; rc_body := Some "@coderabbitai explain"; rc_in_reply_to := Some 12;
     rc_login := None |}.

Definition self_reply : ReviewComment :=
  {| rc_id := 7; rc_body := Some "again"; rc_in_reply_to := Some 7;
     rc_login := Some "ann" |}.

Definition pull0 : PullRequest :=
  {| pr_title := "Bound the retry loop"; pr_body := Some "Stops after five tries.";
     pr_head_sha := Some "c4"; pr_base_sha := Some "b0" |}.

Definition gh_thread : GitHub :=
  {| gh_pull := pull0; gh_commit_pages := [];
     gh_compare := fun _ _ => {| cmp_files := None |};
     gh_issue_comments := []; gh_review_comments := thread; gh_reviews := [];
     gh_next_id := 14 |}.

Definition world_of (g : GitHub) : World :=
  {| w_github := g; w_buffer := []; w_trace := [] |}.

(** A pull request without comments, and one on which two comments carry
    the summary tag. *)
Definition gh_plain : GitHub :=
  {| gh_pull := pull0; gh_commit_pages := [];
     gh_compare := fun _ _ => {| cmp_files := None |};
     gh_issue_comments := []; gh_review_comments := []; gh_reviews := [];
     gh_next_id := 100 |}.

Definition gh_two_summaries : GitHub :=
  {| gh_pull := pull0; gh_commit_pages := [];
     gh_compare := fun _ _ => {| cmp_files := None |};
     gh_issue_comments :=
       [{| ic_id := 41; ic_body := Some (SUMMARIZE_TAG ++ NL ++ "first summary") |};
        {| ic_id := 42; ic_body := Some (SUMMARIZE_TAG ++ NL ++ "second summary") |}];
     gh_review_comments := []; gh_reviews := [];
     gh_next_id := 100 |}.

(** A pull request whose head equals the last reviewed commit: the
    comparison has no files. *)
Definition gh_reviewed : GitHub :=
  {| gh_pull := pull0;
     gh_commit_pages := [[{| commit_sha := Some "c3" |}; {| commit_sha := Some "c4" |}]];
     gh_compare := fun _ _ => {| cmp_files := Some [] |};
     gh_issue_comments :=
       [{| ic_id := 41;
           ic_body := Some (SUMMARIZE_TAG ++ NL ++ COMMIT_ID_START_TAG ++ NL ++ "c3"
                            ++ NL ++ "c4" ++ NL ++ COMMIT_ID_END_TAG) |}];
     gh_review_comments := []; gh_reviews := [];
     gh_next_id := 100 |}.


(** A change of 15 lines in one Python file, and one of 20 lines. *)
Definition small_file : FileChange :=
  {| fc_filename := Some "retry.py"; fc_additions := Some 10; fc_deletions := Some 5;
     fc_patch := Some ("@@ -1,2 +1,2 @@" ++ NL ++ "-tries = 0" ++ NL ++ "+tries = 5") |}.


Definition gh_small : GitHub :=
  {| gh_pull := pull0;
     gh_commit_pages := [[{| commit_sha := Some "c3" |}; {| commit_sha := Some "c4" |}]];
     gh_compare := fun _ _ => {| cmp_files := Some [small_file] |};
     gh_issue_comments := []; gh_review_comments := []; gh_reviews := [];
     gh_next_id := 100 |}.

(** The environment in which the call made after [n] others fails. *)
Definition env_failing (n : nat) : Env :=
  {| fault := fun k => Nat.eqb k n;
     llm := llm env0;
     decode_file_summary := decode_file_summary env0;
     decode_release_notes := decode_release_notes env0;
     decode_review_items := decode_review_items env0 |}.

(** The models of [env0], with a file review of two comments: one on
    line 3, and one whose ["line"] is [second_line]. *)
Definition env_reviewing (second_line : json) : Env :=
  {| fault := fun _ => false;
     llm := llm env0;
     decode_file_summary := decode_file_summary env0;
     decode_release_notes := decode_release_notes env0;
     decode_review_items := fun _ =>
       [{| it_path := None; it_line := Some (JInt 3); it_start_line := None;
           it_end_line := None; it_comment := Some "Bound the loop." |};
        {| it_path := None; it_line := Some second_line; it_start_line := None;
           it_end_line := None; it_comment := Some "Name the constant." |}] |}.

(** A change of 35 lines, reviewed by a model that finds one issue. *)
Definition large_file : FileChange :=
  {| fc_filename := Some "retry.py"; fc_additions := Some 30; fc_deletions := Some 5;
     fc_patch := Some ("@@ -1,2 +1,2 @@" ++ NL ++ "-tries = 0" ++ NL ++ "+tries = 5") |}.

Definition gh_large : GitHub :=
  {| gh_pull := pull0;
     gh_commit_pages := [[{| commit_sha := Some "c3" |}; {| commit_sha := Some "c4" |}]];
     gh_compare := fun _ _ => {| cmp_files := Some [large_file] |};
     gh_issue_comments := []; gh_review_comments := []; gh_reviews := [];
     gh_next_id := 100 |}.

End Samples.

(** ** pr_review_service.py: replies to review comments *)

Module Reply.
Import PyStr Commenter Service.

(** The fields of a [pull_request_review_comment] event that the
    handler reads.  [ev_comment] is [None] when the key is absent or the
    object is empty; the diff hunk and the path are those of the
    comment. *)
Record CommentEvent := {
  ev_action : option string;
  ev_comment : option ReviewComment;
  ev_diff_hunk : string;
  ev_path : string;
  ev_repo : option string;
  ev_pr_number : option Z;
  ev_pr_title : string;
}.

(** [REVIEW_BOT_MENTION] and the chat prompt applied to the title, the
    path, the diff hunk and the comment chain. *)
Record Settings := {
  mention : string;
  chat_prompt : string -> string -> string -> string -> string;
}.

(** What the handler cannot control: the review comments GitHub lists
    ([None] when the request fails), the answer of the heavy model to a
    prompt ([None] when the invocation fails), and whether the reply is
    accepted. *)
Record Oracle := {
  listed : option (list ReviewComment);
  answer : string -> option string;
  reply_accepted : bool;
}.

(** The outbound calls of the handler, in order. *)
Inductive call :=
| ListThread
| Chat (prompt : string)
| PostReply (body : string) (in_reply_to : Z).

(** How a run of the handler ends: it returns, an exception leaves it,
    or the walk over the thread has not ended within the fuel. *)
Inductive ending := Finished | Failed | Unfinished.

(** [GitHubCommenter.reply_review_comment] *)
Definition reply_review_comment (o : Oracle) (body : string) (in_reply_to : Z)
  : list call * ending :=
  ([PostReply (body ++ NL ++ NL ++ COMMENT_REPLY_TAG) in_reply_to],
   if reply_accepted o then Finished else Failed).

(** [handle_review_comment_event].  [top_level] is a comment object,
    the triggering one or a listed one, so [if self.github_token and
    top_level] tests the token. *)
Definition handle_review_comment_event (cfg : Config) (st : Settings) (o : Oracle)
    (fuel : nat) (event : CommentEvent) : list call * ending :=
  if negb (bool_decide (ev_action event = Some "created")) then ([], Finished)
  else
    match ev_comment event with
    | None => ([], Finished)
    | Some comment =>
        let body := default "" (rc_body comment) in
        if contains COMMENT_TAG body || contains COMMENT_REPLY_TAG body
        then ([], Finished)
        else if negb (truthy (default "" (ev_repo event)))
                || (default 0 (ev_pr_number event) =? 0)
        then ([], Finished)
        else
          match listed o with
          | None => ([ListThread], Failed)
          | Some comments =>
              match comment_chain fuel comments comment with
              | None => ([ListThread], Unfinished)
              | Some (comment_chain, top_level) =>
                  if negb (contains (mention st) body)
                     && negb (contains (mention st) comment_chain)
                  then ([ListThread], Finished)
                  else
                    let prompt :=
                      chat_prompt st (ev_pr_title event) (ev_path event)
                        (ev_diff_hunk event) comment_chain in
                    match answer o prompt with
                    | None => ([ListThread; Chat prompt], Failed)
                    | Some content =>
                        if has_token cfg then
                          let reply_text := String.substring 0 2000 (strip content) in
                          let user := default "user" (rc_login comment) in
                          let '(calls, e) :=
                            reply_review_comment o ("@" ++ user ++ " " ++ reply_text)
                              (rc_id top_level) in
                          ((ListThread :: Chat prompt :: calls)%list, e)
                        else ([ListThread; Chat prompt], Finished)
                    end
              end
          end
    end.

(** The default settings, and an event in which a user asks the bot. *)
Definition settings0 : Settings :=
  {| mention := "@coderabbitai";
     chat_prompt := fun title path diff_hunk comment_chain =>
       "reply on " ++ path ++ NL ++ comment_chain |}.

Definition oracle0 : Oracle :=
  {| listed := Some Samples.thread;
     answer := fun prompt => Some ("  The loop ends after five tries.  ");
     reply_accepted := true |}.

Definition asked : CommentEvent :=
  {| ev_action := Some "created"; ev_comment := Some Samples.thread_last;
     ev_diff_hunk := "@@ -1,2 +1,2 @@"; ev_path := "retry.py";
     ev_repo := Some "octo/repo"; ev_pr_number := Some 7;
     ev_pr_title := "Bound the retry loop" |}.

(** The event GitHub sends for a comment with the given body. *)
Definition event_for (body : string) : CommentEvent :=
  {| ev_action := Some "created";
     ev_comment := Some {| rc_id := 99; rc_body := Some body;
                           rc_in_reply_to := Some 11; rc_login := Some "bot" |};
     ev_diff_hunk := "@@ -1,2 +1,2 @@"; ev_path := "retry.py";
     ev_repo := Some "octo/repo"; ev_pr_number := Some 7;
     ev_pr_title := "Bound the retry loop" |}.

End Reply.

(** ** server/app_enhanced.py: what the webhook does before a review *)

Module Webhook.
Import PyStr.

Definition MAX_EVENTS : nat := 200.

(** [push_event], on [RECENT_EVENTS]: the event is appended and, when
    the list has grown beyond [MAX_EVENTS], its first element is popped.
    (The time stamp written into the event and the optional copy on disk
    are not modelled.) *)
Definition push_event {E} (ev : E) (recent : list E) : list E :=
  let recent := (recent ++ [ev])%list in
  if (MAX_EVENTS <? length recent)%nat then List.tl recent else recent.

(** A [str] that [hmac.compare_digest] accepts: ASCII only. *)
Definition is_ascii (s : string) : bool :=
  forallb (fun c => (code c <? 128)%nat) (list_ascii_of_string s).

(** [verify_signature], with [hexdigest secret payload] standing for
    [hmac.new(secret.encode(), msg=payload, digestmod=hashlib.sha256)
    .hexdigest()].  The result is [None] when [hmac.compare_digest]
    raises [TypeError], which it does for a [str] that is not ASCII. *)
Definition verify_signature (hexdigest : string -> string -> string)
    (secret payload signature_header : string) : option bool :=
  if negb (truthy signature_header) then Some false
  else match split_once "=" signature_header with
       | None => Some false
       | Some (sha_name, signature) =>
           if negb (String.eqb sha_name "sha256") then Some false
           else
             let expected := hexdigest secret payload in
             if is_ascii expected && is_ascii signature
             then Some (String.eqb expected signature)
             else None
       end.

End Webhook.

(** ** Vocabulary of the further properties *)

Module Effects.
Import PyStr Commenter Service Cycle.

(** The calls that ask without changing anything: the reads of the pull
    request, answered or not, and the model invocations. *)
Definition is_query (e : event) : bool :=
  match e with
  | Request GetPull _ | Request ListIssueComments _ | Request (ListCommits _) _
  | Request (GetCompare _ _) _ | Invoke _ _ _ => true
  | _ => false
  end.

(** A comparison that was not answered. *)
Definition is_failed_compare (e : event) : bool :=
  match e with
  | Request (GetCompare _ _) false => true
  | _ => false
  end.

(** [observes P m]: whatever happens, [m] leaves GitHub and the buffer
    as they are and makes only calls that satisfy [P]. *)
Definition observes {A} (P : event → bool) (m : M A) : Prop :=
  ∀ w, ∃ r evs, m w = (r, extend evs w) ∧ forallb P evs = true.

(** The request of a logged call to GitHub. *)
Definition request_of (e : event) : option request :=
  match e with
  | Request r _ => Some r
  | Invoke _ _ _ => None
  end.

(** [g'] has the commits, the issue comments and the head and base of
    [g], what the next review cycle starts from, and no id that [g] has
    yet to give is taken back. *)
Definition same_ledger (g g' : GitHub) : Prop :=
  gh_issue_comments g' = gh_issue_comments g
  ∧ gh_commit_pages g' = gh_commit_pages g
  ∧ pr_head_sha (gh_pull g') = pr_head_sha (gh_pull g)
  ∧ pr_base_sha (gh_pull g') = pr_base_sha (gh_pull g)
  ∧ gh_next_id g <= gh_next_id g'.





(** [settles m]: [m] leaves the ledger as it is and never raises. *)
Definition settles {A} (m : M A) : Prop :=
  ∀ w, ∃ a w', m w = (Returned a, w') ∧ same_ledger (w_github w) (w_github w').




End Effects.

(** ** Further sample inputs *)

Module Cases.
Import PyStr Commenter Service.

(** The configuration of a run without [GITHUB_TOKEN]. *)
Definition without_token (cfg : Config) : Config :=
  {| github_token := None;
     review_simple_changes := review_simple_changes cfg;
     simple_change_threshold := simple_change_threshold cfg;
     skip_extensions := skip_extensions cfg;
     review_comment_lgtm := review_comment_lgtm cfg;
     max_files := max_files cfg;
     ignore_keyword := ignore_keyword cfg;
     update_description_enabled := update_description_enabled cfg;
     max_comments := max_comments cfg;
     comment_greeting := comment_greeting cfg;
     system_message := system_message cfg;
     file_summary_prompt := file_summary_prompt cfg;
     summarize_changes_prompt := summarize_changes_prompt cfg;
     summary_prompt := summary_prompt cfg;
     release_notes_prompt := release_notes_prompt cfg;
     short_summary_prompt := short_summary_prompt cfg;
     review_prompt := review_prompt cfg;
     int_of_str := int_of_str cfg |}.

(** The configuration with [REVIEW_MAX_FILES] set. *)
Definition with_max_files (n : Z) (cfg : Config) : Config :=
  {| github_token := github_token cfg;
     review_simple_changes := review_simple_changes cfg;
     simple_change_threshold := simple_change_threshold cfg;
     skip_extensions := skip_extensions cfg;
     review_comment_lgtm := review_comment_lgtm cfg;
     max_files := n;
     ignore_keyword := ignore_keyword cfg;
     update_description_enabled := update_description_enabled cfg;
     max_comments := max_comments cfg;
     comment_greeting := comment_greeting cfg;
     system_message := system_message cfg;
     file_summary_prompt := file_summary_prompt cfg;
     summarize_changes_prompt := summarize_changes_prompt cfg;
     summary_prompt := summary_prompt cfg;
     release_notes_prompt := release_notes_prompt cfg;
     short_summary_prompt := short_summary_prompt cfg;
     review_prompt := review_prompt cfg;
     int_of_str := int_of_str cfg |}.

(** A pull request whose description asks to be left alone. *)
Definition gh_ignored : GitHub :=
  {| gh_pull := {| pr_title := "Work in progress";
                   pr_body := Some "Not ready. @coderabbitai: ignore";
                   pr_head_sha := Some "c4"; pr_base_sha := Some "b0" |};
     gh_commit_pages := [];
     gh_compare := fun _ _ => {| cmp_files := Some [Samples.large_file] |};
     gh_issue_comments := []; gh_review_comments := []; gh_reviews := [];
     gh_next_id := 100 |}.



End Cases.

(** * Properties *)

Import PyStr Commenter Service Diff Store Cycle.

(** ** The reviewed-commit ledger *)

Lemma highest_step (all_commits reviewed : list string) (sha : string) :
  get_highest_reviewed_commit_id (all_commits ++ [sha])%list reviewed =
  if bool_decide (sha ∈ reviewed) then sha
  else get_highest_reviewed_commit_id all_commits reviewed.
Proof. unfold get_highest_reviewed_commit_id. by rewrite fold_left_app. Qed.

(** C1.  [get_highest_reviewed_commit_id] returns the last element of
    [all_commits] that is in the reviewed list, and the empty string when
    no element of [all_commits] is reviewed.  With ledger [c1, c3] and
    history [c0, c1, c2, c3, c4] it returns [c3]. *)
Theorem highest_reviewed_is_last_reviewed (all_commits reviewed : list string) :
  let highest := get_highest_reviewed_commit_id all_commits reviewed in
  (((∀ sha, sha ∈ all_commits → sha ∉ reviewed) ∧ highest = "")
   ∨ (∃ earlier later,
        all_commits = (earlier ++ highest :: later)%list
        ∧ highest ∈ reviewed
        ∧ ∀ sha, sha ∈ later → sha ∉ reviewed))
  ∧ get_highest_reviewed_commit_id ["c0"; "c1"; "c2"; "c3"; "c4"] ["c1"; "c3"] = "c3".
Proof.
  split; [| reflexivity].
  induction all_commits as [| sha commits IH] using rev_ind.
  - left. split; [| reflexivity]. intros sha Hin. by apply elem_of_nil in Hin.
  - cbn zeta in *. rewrite highest_step. case_bool_decide as Hsha.
    + right. exists commits, []. split; [done |]. split; [done |].
      intros x Hx. by apply elem_of_nil in Hx.
    + destruct IH as [[Hnone Hempty] | (earlier & later & Heq & Hin & Hlater)].
      * left. split; [| done]. intros x Hx.
        apply elem_of_app in Hx as [Hx | Hx]; [by apply Hnone |].
        apply list_elem_of_singleton in Hx. by subst.
      * right. exists earlier, (later ++ [sha])%list. split.
        { rewrite Heq at 1. by rewrite <- app_assoc. }
        split; [done |]. intros x Hx.
        apply elem_of_app in Hx as [Hx | Hx]; [by apply Hlater |].
        apply list_elem_of_singleton in Hx. by subst.
Qed.

Lemma truthy_true (s : string) : truthy s = true ↔ s ≠ "".
Proof. destruct s; simpl; split; try done. Qed.

Lemma truthy_false (s : string) : truthy s = false ↔ s = "".
Proof. destruct s; simpl; split; try done. Qed.

Lemma ledger_of_block (existing_block : string) :
  (if truthy existing_block then get_reviewed_commit_ids existing_block else [])
  = get_reviewed_commit_ids existing_block.
Proof. by destruct existing_block. Qed.

Lemma string_app_nil_r (s : string) : s ++ "" = s.
Proof.
  induction s as [| c s IH]; [done |].
  change (String c s ++ "") with (String c (s ++ "")). by f_equal.
Qed.

Lemma string_app_assoc (s t u : string) : (s ++ t) ++ u = s ++ t ++ u.
Proof.
  induction s as [| c s IH]; [done |].
  change ((String c s ++ t) ++ u) with (String c ((s ++ t) ++ u)).
  change (String c s ++ t ++ u) with (String c (s ++ t ++ u)). by f_equal.
Qed.

Lemma no_linebreak_app (s t : string) :
  no_linebreak s → no_linebreak t → no_linebreak (s ++ t).
Proof.
  unfold no_linebreak. induction s as [| c s IH]; simpl; [done |].
  intros [Hc Hs]%andb_true_iff Ht. rewrite Hc. by apply IH.
Qed.

Lemma splitlines_from_line (cur s rest : string) :
  no_linebreak s →
  splitlines_from cur (s ++ rest) = splitlines_from (cur ++ s) rest.
Proof.
  unfold no_linebreak. revert cur. induction s as [| c s IH]; intros cur; simpl.
  - intros _. by rewrite string_app_nil_r.
  - intros [Hc Hs]%andb_true_iff. apply negb_true_iff in Hc. rewrite Hc.
    rewrite IH by done. by rewrite string_app_assoc.
Qed.

Lemma splitlines_from_newline (cur rest : string) :
  splitlines_from cur (NL ++ rest) = cur :: splitlines_from "" rest.
Proof. reflexivity. Qed.

Lemma splitlines_join (ids : list string) :
  Forall (λ id, id ≠ "" ∧ no_linebreak id) ids →
  splitlines (join NL ids) = ids.
Proof.
  unfold splitlines, join. induction 1 as [| id rest [Hne Hnl] Hrest IH]; [done |].
  cbn [String.concat]. destruct rest as [| id' rest'].
  - rewrite <- (string_app_nil_r id) at 1. rewrite splitlines_from_line by done.
    cbn. by destruct id.
  - rewrite splitlines_from_line by done. cbn [append].
    change (String LF (String.concat NL (id' :: rest')))
      with (NL ++ String.concat NL (id' :: rest')).
    rewrite splitlines_from_newline. by rewrite IH.
Qed.

Lemma splitlines_from_no_linebreak (cur s : string) :
  no_linebreak cur → Forall no_linebreak (splitlines_from cur s).
Proof.
  assert (H : ∀ n s cur, (String.length s ≤ n)%nat → no_linebreak cur →
                         Forall no_linebreak (splitlines_from cur s)).
  { clear. induction n as [| n IH]; intros s cur Hlen Hcur.
    - destruct s; [| simpl in Hlen; lia]. cbn [splitlines_from].
      destruct (truthy cur); by repeat constructor.
    - destruct s as [| c s]; cbn [splitlines_from].
      { destruct (truthy cur); by repeat constructor. }
      simpl in Hlen. destruct (is_linebreak c) eqn:Hc.
      + destruct (Ascii.eqb c CR).
        * destruct s as [| c2 s2]; [by repeat constructor |].
          simpl in Hlen.
          destruct (Ascii.eqb c2 LF); (constructor; [done |]);
            apply IH; simpl; try done; lia.
        * constructor; [done |]. apply IH; [lia | done].
      + apply IH; [lia |]. apply no_linebreak_app; [done |].
        unfold no_linebreak. simpl. by rewrite Hc. }
  intros Hcur. by eapply H.
Qed.

Lemma lstrip_no_linebreak (s : string) : no_linebreak s → no_linebreak (lstrip s).
Proof.
  unfold no_linebreak. induction s as [| c s IH]; simpl; [done |].
  intros [Hc Hs]%andb_true_iff. destruct (isspace c); [by apply IH |].
  simpl. by rewrite Hc, Hs.
Qed.

Lemma rstrip_no_linebreak (s : string) : no_linebreak s → no_linebreak (rstrip s).
Proof.
  unfold no_linebreak. induction s as [| c s IH]; simpl; [done |].
  intros [Hc Hs]%andb_true_iff. specialize (IH Hs).
  destruct (rstrip s) as [| c' s'].
  - destruct (isspace c); [done |]. simpl. by rewrite Hc.
  - simpl in *. by rewrite Hc, IH.
Qed.

Lemma lstrip_idem (s : string) : lstrip (lstrip s) = lstrip s.
Proof.
  induction s as [| c s IH]; simpl; [done |].
  destruct (isspace c) eqn:Hc; [done |]. simpl. by rewrite Hc.
Qed.

Lemma rstrip_empty_lstrip (s : string) : rstrip s = "" → lstrip s = "".
Proof.
  induction s as [| c s IH]; simpl; [done |].
  destruct (rstrip s); [| done]. destruct (isspace c); [| done]. intros _. by apply IH.
Qed.

Lemma rstrip_idem (s : string) : rstrip (rstrip s) = rstrip s.
Proof.
  induction s as [| c s IH]; simpl; [done |].
  destruct (rstrip s) as [| c' s'] eqn:Hr.
  - destruct (isspace c) eqn:Hc; [done |]. simpl. by rewrite Hc.
  - cbn [rstrip]. cbn [rstrip] in IH. by rewrite IH.
Qed.

Lemma rstrip_lstrip (s : string) : rstrip (lstrip s) = lstrip (rstrip s).
Proof.
  induction s as [| c s IH]; [done |]. cbn [lstrip rstrip].
  destruct (isspace c) eqn:Hc.
  - rewrite IH. destruct (rstrip s) as [| c' s'] eqn:Hr; [done |].
    cbn [lstrip]. by rewrite Hc.
  - cbn [rstrip]. destruct (rstrip s) as [| c' s']; rewrite ?Hc; cbn [lstrip];
      by rewrite Hc.
Qed.

Lemma strip_idem (s : string) : strip (strip s) = strip s.
Proof.
  unfold strip. by rewrite rstrip_lstrip, rstrip_idem, lstrip_idem.
Qed.

Lemma strip_no_linebreak (s : string) : no_linebreak s → no_linebreak (strip s).
Proof. intros H. by apply lstrip_no_linebreak, rstrip_no_linebreak. Qed.

Lemma reviewed_ids_clean (block : string) :
  Forall clean_id (get_reviewed_commit_ids block).
Proof.
  unfold get_reviewed_commit_ids, splitlines.
  pose proof (splitlines_from_no_linebreak "" block eq_refl) as Hlines.
  induction Hlines as [| line rest Hline _ IH]; [constructor |].
  cbn [List.filter]. destruct (truthy (strip line)) eqn:Ht; [| done].
  cbn [map]. constructor; [| done]. split; [apply strip_idem |].
  split; [by apply truthy_true | by apply strip_no_linebreak].
Qed.

Lemma read_back_clean (ids : list string) :
  Forall clean_id ids → get_reviewed_commit_ids (join NL ids) = ids.
Proof.
  intros Hclean. unfold get_reviewed_commit_ids. rewrite splitlines_join.
  - induction Hclean as [| id rest (Hstrip & Hne & _) _ IH]; [done |].
    cbn [List.filter]. rewrite Hstrip. apply truthy_true in Hne. rewrite Hne.
    cbn [map]. by rewrite Hstrip, IH.
  - eapply Forall_impl; [exact Hclean |]. by intros id (_ & Hne & Hnl).
Qed.

(** The ledger that [add_reviewed_commit_id] writes reads back as the
    list it was built from, and adding the same id to it again changes
    nothing. *)
Lemma ledger_read_back (existing_block commit_id : string) :
  clean_id commit_id →
  let ids' := ledger_after_add existing_block commit_id in
  get_reviewed_commit_ids (join NL ids') = ids'
  ∧ ledger_after_add (join NL ids') commit_id = ids'.
Proof.
  intros Hclean ids'.
  assert (Hids : Forall clean_id ids').
  { unfold ids', ledger_after_add. rewrite ledger_of_block.
    destruct (truthy commit_id && _).
    - apply Forall_app. split; [apply reviewed_ids_clean | by constructor].
    - apply reviewed_ids_clean. }
  assert (Hback : get_reviewed_commit_ids (join NL ids') = ids') by by apply read_back_clean.
  split; [exact Hback |].
  unfold ledger_after_add at 1. rewrite ledger_of_block, Hback.
  assert (Hin : commit_id ∈ ids').
  { unfold ids', ledger_after_add. rewrite ledger_of_block.
    destruct Hclean as (_ & Hne & _). apply truthy_true in Hne. rewrite Hne.
    cbn [andb]. case_bool_decide as Hmem; cbn [negb]; [done |].
    apply elem_of_app. right. by constructor. }
  rewrite (bool_decide_eq_true_2 _ Hin). by rewrite andb_false_r.
Qed.




(** ** The diff annotator *)

Lemma number_line_eq (acc : list string) (n : Z) (line : string) :
  number_line (acc, n) line = ((acc ++ [render_line n line])%list, next_line n line).
Proof.
  unfold render_line, next_line, number_line.
  repeat (destruct (startswith _ line); try reflexivity).
Qed.

Lemma fold_number_line (lines acc : list string) (n : Z) :
  fold_left number_line lines (acc, n)
  = ((acc ++ render_lines n lines)%list, counter_after n lines).
Proof.
  revert acc n. induction lines as [| line rest IH]; intros acc n;
    cbn [fold_left render_lines counter_after].
  - by rewrite app_nil_r.
  - rewrite number_line_eq, IH. by rewrite <- app_assoc.
Qed.

Lemma numbered_lines_of_eq (patch : string) :
  numbered_lines_of patch = render_lines 0 (splitlines patch).
Proof. unfold numbered_lines_of. by rewrite fold_number_line. Qed.

Lemma render_lines_length (n : Z) (lines : list string) :
  length (render_lines n lines) = length lines.
Proof. revert n. induction lines; intros n; simpl; [done | by rewrite IHlines]. Qed.

Lemma render_lines_app (n : Z) (l1 l2 : list string) :
  render_lines n (l1 ++ l2)
  = (render_lines n l1 ++ render_lines (counter_after n l1) l2)%list.
Proof. revert n. induction l1; intros n; simpl; [done | by rewrite IHl1]. Qed.


Lemma next_line_cases (n : Z) (line : string) :
  is_header line = false →
  next_line n line = if takes_position line then n + 1 else n.
Proof.
  unfold takes_position, is_added, is_context, is_header, next_line, number_line.
  intros ->. cbn [negb andb]. destruct (startswith "+" line), (startswith "-" line); reflexivity.
Qed.

Lemma counter_after_body (n : Z) (body : list string) :
  Forall (λ line, is_header line = false) body →
  counter_after n body = n + positions_in body.
Proof.
  intros Hbody. revert n. induction Hbody as [| line rest Hline _ IH]; intros n.
  - unfold positions_in. simpl. lia.
  - simpl. rewrite IH, next_line_cases by done. unfold positions_in. simpl.
    destruct (takes_position line); simpl length; lia.
Qed.

(** *** Reading the start of the new range off a hunk header *)







Lemma prefix_cons (c d : ascii) (t s : string) :
  String.prefix (String c t) (String d s)
  = if Ascii.eqb c d then String.prefix t s else false.
Proof.
  cbn [String.prefix]. destruct (ascii_dec c d) as [-> | Hne].
  - by rewrite Ascii.eqb_refl.
  - apply Ascii.eqb_neq in Hne. by rewrite Hne.
Qed.








Lemma splitlines_from_nil (cur s : string) :
  splitlines_from cur s = [] → cur = "" ∧ s = "".
Proof.
  revert cur. induction s as [| c s IH]; intros cur; simpl.
  - by destruct cur.
  - destruct (is_linebreak c).
    + destruct (Ascii.eqb c CR); [destruct s as [| c2 s2]; [done |] |]; try done.
      by destruct (Ascii.eqb c2 LF).
    + intros H. apply IH in H as [H _]. by destruct cur.
Qed.

Lemma splitlines_nil (s : string) : splitlines s = [] ↔ s = "".
Proof.
  split; [| by intros ->]. intros H. by apply splitlines_from_nil in H as [_ H].
Qed.

Lemma str_starts_solid (n : Z) : starts_solid (str n).
Proof.
  unfold str, starts_solid. destruct (Z.to_int n) as [u | u]; simpl.
  - destruct u; simpl; eexists _, _; (split; [reflexivity | reflexivity]).
  - eexists _, _. split; reflexivity.
Qed.

Lemma starts_solid_app (s t : string) : starts_solid s → starts_solid (s ++ t).
Proof. intros (c & r & -> & Hc). exists c, (r ++ t). by split. Qed.

Lemma render_line_starts_solid (n : Z) (line : string) :
  starts_solid (render_line n line).
Proof.
  unfold render_line, number_line.
  destruct (startswith "@@" line) eqn:Hh; cbn [fst List.last app].
  - unfold startswith in Hh. destruct line as [| c1 t]; cbn [String.prefix] in Hh;
      [done |].
    destruct (ascii_dec "@" c1) as [<- |]; [| done].
    eexists _, _. split; reflexivity.
  - destruct (startswith "+" line); cbn [fst List.last app];
      [apply starts_solid_app, str_starts_solid |].
    destruct (startswith "-" line); cbn [fst List.last app];
      [eexists _, _; split; reflexivity | apply starts_solid_app, str_starts_solid].
Qed.

Lemma join_starts_solid (part : string) (parts : list string) :
  starts_solid part → starts_solid (join NL (part :: parts)).
Proof.
  intros H. unfold join. simpl. destruct parts; [done | by apply starts_solid_app].
Qed.

Lemma rstrip_starts_solid (s : string) : starts_solid s → starts_solid (rstrip s).
Proof.
  intros (c & t & -> & Hc). simpl. rewrite Hc.
  destruct (rstrip t); eexists _, _; split; done.
Qed.

Lemma strip_starts_solid (s : string) : starts_solid s → strip s ≠ "".
Proof.
  intros H%rstrip_starts_solid. destruct H as (c & t & Heq & Hc).
  unfold strip. rewrite Heq. simpl. by rewrite Hc.
Qed.

Lemma extract_starts_solid (patch : string) :
  patch ≠ "" → starts_solid (_extract_numbered_hunks patch).
Proof.
  intros Hne. unfold _extract_numbered_hunks.
  apply truthy_true in Hne as Ht. rewrite Ht. cbn [negb].
  rewrite numbered_lines_of_eq.
  destruct (splitlines patch) as [| line rest] eqn:Hl; [by apply splitlines_nil in Hl |].
  cbn [render_lines]. apply join_starts_solid, render_line_starts_solid.
Qed.

Lemma counter_after_headerless (before : list string) :
  Forall (λ l, is_header l = false) before →
  counter_after 0 before = positions_in before.
Proof. intros H. by rewrite counter_after_body. Qed.

(** C2, as the code has it.  For a patch with no hunk header the
    rendering is empty exactly when the patch is the empty string.  Every
    line of a non-empty patch is rendered, the added and context lines
    numbered by a counter that starts at 0, and the file review step then
    sends the rendering to the model; it returns without a model
    invocation only for the empty patch. *)
Theorem headerless_patch_rendering (cfg : Config) (env : Env) (patch : string) :
  Forall (λ l, is_header l = false) (splitlines patch) →
  (_extract_numbered_hunks patch = "" ↔ patch = "")
  ∧ (strip (_extract_numbered_hunks patch) = "" ↔ patch = "")
  ∧ length (numbered_lines_of patch) = length (splitlines patch)
  ∧ (∀ before line after,
       splitlines patch = (before ++ line :: after)%list →
       numbered_lines_of patch !! length before
       = Some (render_line (positions_in before) line))
  ∧ (∀ path short_summary w,
       _run_file_review cfg env path patch short_summary w
       = if truthy patch
         then
           let prompt := review_prompt cfg (system_message cfg) path short_summary
                           (_extract_numbered_hunks patch) in
           match llm env Heavy (length (w_trace w)) prompt with
           | Some content =>
               (Returned (map (normalize_item path) (decode_review_items env content)),
                log (Invoke Heavy FileReview prompt) w)
           | None => (Raised (LLMError Heavy prompt),
                      log (Invoke Heavy FileReview prompt) w)
           end
         else (Returned [], w)).
Proof.
  intros Hlines.
  assert (Hempty : _extract_numbered_hunks patch = "" ↔ patch = "").
  { split; [| by intros ->]. intros Heq.
    destruct (decide (patch = "")) as [| Hne]; [done |].
    destruct (extract_starts_solid patch Hne) as (c & t & Hs & _). congruence. }
  assert (Hstrip : strip (_extract_numbered_hunks patch) = "" ↔ patch = "").
  { split; [| by intros ->]. intros Heq.
    destruct (decide (patch = "")) as [| Hne]; [done |].
    by apply extract_starts_solid, strip_starts_solid in Hne. }
  split; [exact Hempty |]. split; [exact Hstrip |]. split; [| split].
  - by rewrite numbered_lines_of_eq, render_lines_length.
  - intros before line after Heq. rewrite numbered_lines_of_eq, Heq, render_lines_app.
    cbn [render_lines]. rewrite counter_after_headerless.
    + apply list_lookup_middle. by rewrite render_lines_length.
    + rewrite Heq in Hlines. by apply Forall_app in Hlines as [H _].
  - intros path short_summary w. unfold _run_file_review.
    destruct (truthy patch) eqn:Ht.
    + apply truthy_true in Ht.
      destruct (truthy (strip (_extract_numbered_hunks patch))) eqn:Hs.
      * cbn [negb]. unfold bind, invoke. by destruct (llm env Heavy _ _).
      * apply truthy_false, Hstrip in Hs. done.
    + apply truthy_false in Ht. by subst.
Qed.

Lemma headerless_patch_is_rendered :
  ¬ (∀ patch : string,
       Forall (λ l, startswith "@@" l = false) (splitlines patch) →
       _extract_numbered_hunks patch = "").
Proof.
  intros H. specialize (H "+print(1)").
  assert (Hlines : Forall (λ l, startswith "@@" l = false) (splitlines "+print(1)"))
    by (repeat constructor).
  specialize (H Hlines). vm_compute in H. discriminate.
Qed.

Lemma headerless_patch_rendering_witness :
  Forall (λ l, is_header l = false) (splitlines "+print(1)")
  ∧ _extract_numbered_hunks "+print(1)" ≠ ""
  ∧ numbered_lines_of "+print(1)" !! 0%nat = Some "0:+print(1)".
Proof.
  assert (H : Forall (λ l, is_header l = false) (splitlines "+print(1)"))
    by (repeat constructor).
  destruct (headerless_patch_rendering Samples.cfg0 Samples.env0 "+print(1)" H)
    as (Hempty & _ & _ & Hat & _).
  split; [exact H |]. split.
  - intros Heq. apply Hempty in Heq. discriminate Heq.
  - apply (Hat [] "+print(1)" []). reflexivity.
Defined.

(** ** The reply chain of a review comment *)

Lemma index_fold_lookup (comments : list ReviewComment) (m : gmap Z ReviewComment)
    (k : Z) (p : ReviewComment) :
  fold_left (λ m c, <[rc_id c := c]> m) comments m !! k = Some p →
  p ∈ comments ∨ m !! k = Some p.
Proof.
  revert m. induction comments as [| c rest IH]; intros m; simpl; [by right |].
  intros [Hin | Hm]%IH; [left; by constructor |].
  apply lookup_insert_Some in Hm as [[_ <-] | [_ Hm]]; [left; by constructor | by right].
Qed.

Lemma index_by_id_elem (comments : list ReviewComment) (k : Z) (p : ReviewComment) :
  index_by_id comments !! k = Some p → p ∈ comments.
Proof.
  intros [H | H]%index_fold_lookup; [done |]. by rewrite lookup_empty in H.
Qed.

Lemma walk_chain_ranked (rank : ReviewComment → nat) (comments : list ReviewComment)
    (comment : ReviewComment) :
  ranked rank comments comment →
  ∀ n current,
    (rank current < n)%nat →
    current ∈ comment :: comments →
    ∃ visited top_level,
      walks (index_by_id comments) comment current visited top_level
      ∧ ∀ fuel chain,
          (rank current < fuel)%nat →
          walk_chain fuel (index_by_id comments) chain current comment
          = Some ((chain ++ visited)%list, top_level).
Proof.
  intros Hranked. induction n as [| n IH]; intros current Hrank Hin; [lia |].
  destruct (rc_in_reply_to current) as [parent_id |] eqn:Hparent.
  2: { exists [current], current. split; [apply walks_root; by left |].
       intros [| fuel] chain Hfuel; [lia |]. simpl. by rewrite Hparent. }
  destruct (decide (parent_id = 0)) as [-> | Hnz].
  { exists [current], current. split; [apply walks_root; by right |].
    intros [| fuel] chain Hfuel; [lia |]. simpl. by rewrite Hparent. }
  assert (Hz : (parent_id =? 0) = false) by by apply Z.eqb_neq.
  destruct (index_by_id comments !! parent_id) as [parent |] eqn:Hlookup.
  2: { exists [current], comment. split; [by eapply walks_orphan |].
       intros [| fuel] chain Hfuel; [lia |]. simpl. by rewrite Hparent, Hz, Hlookup. }
  assert (Hlt : (rank parent < rank current)%nat) by by eapply Hranked.
  destruct (IH parent) as (visited & top_level & Hwalk & Hrun);
    [lia | constructor; by eapply index_by_id_elem |].
  exists (current :: visited), top_level. split; [by eapply walks_up |].
  intros [| fuel] chain Hfuel; [lia |]. simpl. rewrite Hparent, Hz, Hlookup.
  rewrite Hrun by lia. by rewrite <- app_assoc.
Qed.

Lemma comment_chain_ranked (rank : ReviewComment → nat)
    (comments : list ReviewComment) (comment : ReviewComment) :
  ranked rank comments comment →
  ∃ visited top_level,
    walks (index_by_id comments) comment comment visited top_level
    ∧ head visited = Some comment
    ∧ ∀ fuel,
        (rank comment < fuel)%nat →
        comment_chain fuel comments comment
        = Some (join NL (map chain_line (rev visited)), top_level).
Proof.
  intros Hranked.
  destruct (walk_chain_ranked rank comments comment Hranked (S (rank comment)) comment)
    as (visited & top_level & Hwalk & Hrun); [lia | by constructor |].
  exists visited, top_level. split; [done |]. split.
  - by destruct Hwalk.
  - intros fuel Hfuel. unfold comment_chain. by rewrite Hrun.
Qed.

Lemma set_github_same (w : World) : set_github (w_github w) w = w.
Proof. by destruct w. Qed.

(** C9, as the code has it.  When the reply links do not loop,
    [get_comment_chain] terminates: with enough fuel the walk ends at a
    comment without parent or at a parent id that is not listed, and the
    chain text lists the comments met in reverse, from the top of the
    thread down to the triggering comment. *)
Theorem get_comment_chain_terminates (env : Env) (w : World)
    (rank : ReviewComment → nat) (comment : ReviewComment) :
  let comments := gh_review_comments (w_github w) in
  fault env (length (w_trace w)) = false →
  ranked rank comments comment →
  ∃ visited top_level,
    walks (index_by_id comments) comment comment visited top_level
    ∧ head visited = Some comment
    ∧ ∀ fuel,
        (rank comment < fuel)%nat →
        comment_chain fuel comments comment
        = Some (join NL (map chain_line (rev visited)), top_level)
        ∧ get_comment_chain env fuel comment w
          = (Returned (Some (join NL (map chain_line (rev visited)), top_level)),
             log (Request ListReviewComments true) w).
Proof.
  intros comments Hok Hranked.
  destruct (comment_chain_ranked rank comments comment Hranked)
    as (visited & top_level & Hwalk & Hhead & Hrun).
  exists visited, top_level. split; [done |]. split; [done |].
  intros fuel Hfuel. split; [by apply Hrun |].
  unfold get_comment_chain, list_review_comments, bind, _request, serve_read, ret.
  rewrite Hok, set_github_same. fold comments. by rewrite Hrun.
Qed.

Lemma walk_chain_self_reply (fuel : nat) (chain : list ReviewComment) :
  walk_chain fuel (index_by_id [Samples.self_reply]) chain Samples.self_reply
             Samples.self_reply = None.
Proof.
  revert chain. induction fuel as [| fuel IH]; intros chain; [done |].
  cbn [walk_chain].
  change (rc_in_reply_to Samples.self_reply) with (Some 7).
  change (7 =? 0) with false. cbn iota.
  assert (Hlookup : index_by_id [Samples.self_reply] !! 7 = Some Samples.self_reply)
    by (unfold index_by_id; simpl; apply lookup_insert_eq).
  rewrite Hlookup. apply IH.
Qed.

Lemma comment_chain_loops_on_self_reply :
  ¬ (∀ (comments : list ReviewComment) (comment : ReviewComment),
       ∃ fuel chain, comment_chain fuel comments comment = Some chain).
Proof.
  intros H. destruct (H [Samples.self_reply] Samples.self_reply) as (fuel & chain & Hrun).
  unfold comment_chain in Hrun. by rewrite walk_chain_self_reply in Hrun.
Qed.

Lemma thread_ranked :
  ranked (λ c, Z.to_nat (rc_id c)) Samples.thread Samples.thread_last.
Proof.
  intros c parent_id parent Hin Hparent Hlookup.
  unfold Samples.thread, Samples.thread_last in Hin.
  repeat (apply elem_of_cons in Hin as [-> | Hin]); try (by apply elem_of_nil in Hin);
    simpl in Hparent; try discriminate Hparent; injection Hparent as <-;
    vm_compute in Hlookup; injection Hlookup as <-; simpl; lia.
Defined.

Lemma get_comment_chain_terminates_witness :
  let w := {| w_github := Samples.gh_thread; w_buffer := []; w_trace := [] |} in
  fault Samples.env0 0 = false
  ∧ ranked (λ c, Z.to_nat (rc_id c)) Samples.thread Samples.thread_last
  ∧ ∃ visited top_level,
      walks (index_by_id Samples.thread) Samples.thread_last Samples.thread_last
            visited top_level
      ∧ head visited = Some Samples.thread_last
      ∧ ∀ fuel,
          (13 < fuel)%nat →
          comment_chain fuel Samples.thread Samples.thread_last
          = Some (join NL (map chain_line (rev visited)), top_level)
          ∧ get_comment_chain Samples.env0 fuel Samples.thread_last w
            = (Returned (Some (join NL (map chain_line (rev visited)), top_level)),
               log (Request ListReviewComments true) w).
Proof.
  intros w. split; [reflexivity |]. split; [exact thread_ranked |].
  exact (get_comment_chain_terminates Samples.env0 w _ Samples.thread_last
           eq_refl thread_ranked).
Defined.

Example comment_chain_of_thread :
  comment_chain 14 Samples.thread Samples.thread_last
  = Some ("ann: why a loop here?" ++ NL ++ "bob: it is bounded" ++ NL
          ++ "user: @coderabbitai explain",
          {| rc_id := 11; rc_body := Some "why a loop here?";
             rc_in_reply_to := None; rc_login := Some "ann" |}).
Proof. vm_compute. reflexivity. Qed.

(** ** Upsert by tag *)

Lemma upsert_run (env : Env) (tag body : string) (w : World) :
  (∀ n, fault env n = false) →
  let g := w_github w in
  upsert_issue_comment_by_tag env body tag w
  = match List.find (has_tag tag) (gh_issue_comments g) with
    | Some comment =>
        (Returned {| ic_id := ic_id comment; ic_body := Some body |},
         log (Request (UpdateIssueComment (ic_id comment) body) true)
           (set_github
              (set_issue_comments (updated (ic_id comment) body (gh_issue_comments g))
                 (gh_next_id g) g)
              (log (Request ListIssueComments true) w)))
    | None =>
        (Returned {| ic_id := gh_next_id g; ic_body := Some body |},
         log (Request (CreateIssueComment body) true)
           (set_github
              (set_issue_comments
                 (gh_issue_comments g ++ [{| ic_id := gh_next_id g; ic_body := Some body |}])
                 (gh_next_id g + 1) g)
              (log (Request ListIssueComments true) w)))
    end.
Proof.
  intros no_fault. cbn zeta.
  unfold upsert_issue_comment_by_tag, list_issue_comments, bind, _request, serve_read.
  rewrite no_fault, set_github_same.
  destruct (List.find (has_tag tag) (gh_issue_comments (w_github w))) as [c |] eqn:Hfind.
  - unfold update_issue_comment, _request, serve_update_issue_comment.
    rewrite no_fault. cbn [w_github log set_github].
    apply find_some in Hfind as [Hin _].
    assert (Hex : existsb (λ c0, ic_id c0 =? ic_id c) (gh_issue_comments (w_github w)) = true).
    { apply existsb_exists. exists c. split; [done | apply Z.eqb_refl]. }
    by rewrite Hex.
  - unfold create_issue_comment, _request, serve_create_issue_comment.
    by rewrite no_fault.
Qed.

Lemma updated_ids (id : Z) (body : string) (comments : list IssueComment) :
  map ic_id (updated id body comments) = map ic_id comments.
Proof.
  unfold updated. rewrite map_map. apply map_ext. intros c.
  destruct (Z.eqb_spec (ic_id c) id); simpl; congruence.
Qed.

Lemma updated_others (id : Z) (body : string) (comments : list IssueComment) :
  id ∉ map ic_id comments → updated id body comments = comments.
Proof.
  induction comments as [| c rest IH]; [done |]. cbn [map]. intros Hnin.
  apply not_elem_of_cons in Hnin as [Hne Hrest]. unfold updated in *. cbn [map].
  rewrite IH by done. destruct (Z.eqb_spec (ic_id c) id); [congruence | done].
Qed.

Lemma filter_singleton_find {A} (P : A → bool) (l : list A) (c : A) :
  List.filter P l = [c] → List.find P l = Some c.
Proof.
  induction l as [| x l IH]; simpl; [done |].
  destruct (P x); [congruence | done].
Qed.

Lemma filter_nil_find {A} (P : A → bool) (l : list A) :
  List.filter P l = [] → List.find P l = None.
Proof.
  induction l as [| x l IH]; simpl; [done |]. destruct (P x); [done | done].
Qed.

Lemma updated_tagged (tag body : string) (comments : list IssueComment)
    (c : IssueComment) :
  NoDup (map ic_id comments) →
  contains tag body = true →
  List.filter (has_tag tag) comments = [c] →
  List.filter (has_tag tag) (updated (ic_id c) body comments)
  = [{| ic_id := ic_id c; ic_body := Some body |}].
Proof.
  intros Hnodup Hbody. induction comments as [| x rest IH]; [done |].
  cbn [map] in Hnodup. apply NoDup_cons in Hnodup as [Hx Hrest].
  cbn [List.filter]. destruct (has_tag tag x) eqn:Hxtag.
  - intros [= -> Hnone]. unfold updated. cbn [map]. rewrite Z.eqb_refl.
    fold (updated (ic_id c) body rest). rewrite updated_others by done.
    assert (Hnew : has_tag tag {| ic_id := ic_id c; ic_body := Some body |} = true)
      by exact Hbody.
    cbn [List.filter]. by rewrite Hnew, Hnone.
  - intros Hone. unfold updated. cbn [map]. fold (updated (ic_id c) body rest).
    assert (Hin : ic_id c ∈ map ic_id rest).
    { apply list_elem_of_fmap. exists c. split; [done |].
      apply list_elem_of_In. eapply (proj1 (filter_In _ _ _)). rewrite Hone. by left. }
    destruct (Z.eqb_spec (ic_id x) (ic_id c)) as [Heq | _]; [congruence |].
    cbn [List.filter]. rewrite Hxtag. by apply IH.
Qed.

Lemma tagged_at_most_one (tag : string) (g : GitHub) :
  (length (tagged tag g) ≤ 1)%nat →
  tagged tag g = [] ∨ ∃ c, tagged tag g = [c].
Proof.
  destruct (tagged tag g) as [| c [| c' rest]]; simpl; [by left | right; by exists c | lia].
Qed.

(** One upsert from a state with at most one tagged comment leaves the
    returned comment as the only tagged one. *)
Lemma upsert_first (env : Env) (tag body : string) (w : World) :
  (∀ n, fault env n = false) →
  contains tag body = true →
  ids_fresh (w_github w) →
  (length (tagged tag (w_github w)) ≤ 1)%nat →
  ∃ c w',
    upsert_issue_comment_by_tag env body tag w = (Returned c, w')
    ∧ ic_body c = Some body
    ∧ tagged tag (w_github w') = [c]
    ∧ ids_fresh (w_github w').
Proof.
  intros no_fault Hbody [Hnodup Hbelow] Hone. rewrite upsert_run by done. cbn zeta.
  apply tagged_at_most_one in Hone as [Hnone | [c Hc]]; unfold tagged in *.
  - rewrite (filter_nil_find _ _ Hnone). eexists _, _. split; [reflexivity |].
    split; [done |]. cbn [log set_github w_github set_issue_comments gh_issue_comments
                           gh_next_id]. split.
    + assert (Hnew : has_tag tag {| ic_id := gh_next_id (w_github w);
                                    ic_body := Some body |} = true) by exact Hbody.
      rewrite List.filter_app, Hnone. cbn [List.filter app]. by rewrite Hnew.
    + split; cbn [gh_issue_comments gh_next_id set_issue_comments].
      * rewrite map_app. cbn [map ic_id]. apply NoDup_app. split; [done |]. split.
        -- intros id Hin Hnew. apply list_elem_of_singleton in Hnew as ->.
           apply list_elem_of_fmap in Hin as (x & Hid & Hx).
           rewrite Forall_forall in Hbelow. specialize (Hbelow x Hx). lia.
        -- apply NoDup_singleton.
      * apply Forall_app. split.
        -- eapply Forall_impl; [exact Hbelow |]. intros x Hx. simpl in *. lia.
        -- repeat constructor. simpl. lia.
  - rewrite (filter_singleton_find _ _ _ Hc). eexists _, _. split; [reflexivity |].
    split; [done |]. cbn [log set_github w_github set_issue_comments gh_issue_comments
                           gh_next_id]. split.
    + by apply updated_tagged.
    + split; cbn [gh_issue_comments gh_next_id set_issue_comments].
      * by rewrite updated_ids.
      * apply Forall_forall. intros x Hx. unfold updated in Hx.
        apply list_elem_of_fmap in Hx as (y & -> & Hy).
        rewrite Forall_forall in Hbelow.
        destruct (Z.eqb_spec (ic_id y) (ic_id c)) as [Heq | _]; cbn [ic_id].
        -- rewrite <- Heq. by apply Hbelow.
        -- by apply Hbelow.
Qed.

(** C5, as the code has it.  [upsert_issue_comment_by_tag] updates in
    place the first comment whose body contains the tag and creates a
    comment only when there is none.  When the body written contains the
    tag and at most one comment carried it before, two upserts in a row
    leave exactly one comment with the tag: the second call updates the
    comment of the first and adds none. *)
Theorem upsert_twice_one_tagged (env : Env) (tag body1 body2 : string) (w : World) :
  (∀ n, fault env n = false) →
  contains tag body1 = true →
  contains tag body2 = true →
  ids_fresh (w_github w) →
  (length (tagged tag (w_github w)) ≤ 1)%nat →
  (∀ body w0,
     let g := w_github w0 in
     upsert_issue_comment_by_tag env body tag w0
     = match List.find (has_tag tag) (gh_issue_comments g) with
       | Some comment =>
           (Returned {| ic_id := ic_id comment; ic_body := Some body |},
            log (Request (UpdateIssueComment (ic_id comment) body) true)
              (set_github
                 (set_issue_comments
                    (updated (ic_id comment) body (gh_issue_comments g))
                    (gh_next_id g) g)
                 (log (Request ListIssueComments true) w0)))
       | None =>
           (Returned {| ic_id := gh_next_id g; ic_body := Some body |},
            log (Request (CreateIssueComment body) true)
              (set_github
                 (set_issue_comments
                    (gh_issue_comments g
                     ++ [{| ic_id := gh_next_id g; ic_body := Some body |}])
                    (gh_next_id g + 1) g)
                 (log (Request ListIssueComments true) w0)))
       end)
  ∧ ∃ c1 w1 c2 w2,
      upsert_issue_comment_by_tag env body1 tag w = (Returned c1, w1)
      ∧ upsert_issue_comment_by_tag env body2 tag w1 = (Returned c2, w2)
      ∧ tagged tag (w_github w2) = [c2]
      ∧ c2 = {| ic_id := ic_id c1; ic_body := Some body2 |}
      ∧ length (gh_issue_comments (w_github w2))
        = length (gh_issue_comments (w_github w1))
      ∧ w_trace w2
        = (w_trace w1 ++ [Request ListIssueComments true;
                          Request (UpdateIssueComment (ic_id c1) body2) true])%list.
Proof.
  intros no_fault Hbody1 Hbody2 Hfresh Hone.
  split; [intros body w0; by apply upsert_run |].
  destruct (upsert_first env tag body1 w no_fault Hbody1 Hfresh Hone)
    as (c1 & w1 & Hrun1 & Hc1 & Htag1 & Hfresh1).
  exists c1, w1. rewrite Hrun1.
  rewrite (upsert_run env tag body2 w1 no_fault). cbn zeta.
  unfold tagged in Htag1. rewrite (filter_singleton_find _ _ _ Htag1).
  eexists _, _. split; [reflexivity |]. split; [reflexivity |].
  cbn [log set_github w_github set_issue_comments gh_issue_comments w_trace].
  split; [| split; [reflexivity | split]].
  - unfold tagged. cbn [gh_issue_comments]. apply updated_tagged; [apply Hfresh1 | done..].
  - unfold updated. by rewrite length_map.
  - by rewrite <- app_assoc.
Qed.

Lemma upsert_twice_other_counts :
  ¬ (∀ tag body w,
       ids_fresh (w_github w) →
       contains tag body = true →
       one_tagged_after_two_upserts Samples.env0 tag body body w)
  ∧ ¬ (∀ tag body w,
         ids_fresh (w_github w) →
         (length (tagged tag (w_github w)) ≤ 1)%nat →
         one_tagged_after_two_upserts Samples.env0 tag body body w).
Proof.
  split; intros H.
  - destruct (H SUMMARIZE_TAG (SUMMARIZE_TAG ++ NL ++ "new summary")
                (Samples.world_of Samples.gh_two_summaries))
      as (c1 & w1 & c2 & w2 & Hrun1 & Hrun2 & Hcount).
    + split; [| repeat constructor]. simpl.
      apply NoDup_cons. split; [| apply NoDup_singleton].
      intros Hin. apply list_elem_of_singleton in Hin. discriminate Hin.
    + reflexivity.
    + vm_compute in Hrun1. injection Hrun1 as <- <-.
      vm_compute in Hrun2. injection Hrun2 as <- <-.
      vm_compute in Hcount. discriminate Hcount.
  - destruct (H SUMMARIZE_TAG "a summary without the tag"
                (Samples.world_of Samples.gh_plain))
      as (c1 & w1 & c2 & w2 & Hrun1 & Hrun2 & Hcount).
    + split; [apply NoDup_nil_2 | constructor].
    + simpl. lia.
    + vm_compute in Hrun1. injection Hrun1 as <- <-.
      vm_compute in Hrun2. injection Hrun2 as <- <-.
      vm_compute in Hcount. discriminate Hcount.
Qed.

Lemma upsert_twice_one_tagged_witness :
  let w := Samples.world_of Samples.gh_plain in
  let body1 := SUMMARIZE_TAG ++ NL ++ "first summary" in
  let body2 := SUMMARIZE_TAG ++ NL ++ "second summary" in
  (∀ n, fault Samples.env0 n = false)
  ∧ contains SUMMARIZE_TAG body1 = true
  ∧ contains SUMMARIZE_TAG body2 = true
  ∧ ids_fresh (w_github w)
  ∧ (length (tagged SUMMARIZE_TAG (w_github w)) ≤ 1)%nat
  ∧ ∃ c1 w1 c2 w2,
      upsert_issue_comment_by_tag Samples.env0 body1 SUMMARIZE_TAG w = (Returned c1, w1)
      ∧ upsert_issue_comment_by_tag Samples.env0 body2 SUMMARIZE_TAG w1 = (Returned c2, w2)
      ∧ tagged SUMMARIZE_TAG (w_github w2) = [c2]
      ∧ c2 = {| ic_id := ic_id c1; ic_body := Some body2 |}
      ∧ length (gh_issue_comments (w_github w2))
        = length (gh_issue_comments (w_github w1))
      ∧ w_trace w2
        = (w_trace w1 ++ [Request ListIssueComments true;
                          Request (UpdateIssueComment (ic_id c1) body2) true])%list.
Proof.
  intros w body1 body2.
  assert (Hfault : ∀ n, fault Samples.env0 n = false) by reflexivity.
  assert (Hfresh : ids_fresh (w_github w)) by (split; [apply NoDup_nil_2 | constructor]).
  assert (Hone : (length (tagged SUMMARIZE_TAG (w_github w)) ≤ 1)%nat) by (simpl; lia).
  split; [exact Hfault |]. split; [reflexivity |]. split; [reflexivity |].
  split; [exact Hfresh |]. split; [exact Hone |].
  exact (proj2 (upsert_twice_one_tagged Samples.env0 SUMMARIZE_TAG body1 body2 w
                  Hfault eq_refl eq_refl Hfresh Hone)).
Defined.

(** ** The review cycle *)

Lemma extend_nil (w : World) : extend [] w = w.
Proof. destruct w. unfold extend. simpl. by rewrite app_nil_r. Qed.

Lemma extend_extend (evs1 evs2 : list event) (w : World) :
  extend evs2 (extend evs1 w) = extend (evs1 ++ evs2) w.
Proof. unfold extend. simpl. by rewrite app_assoc. Qed.

Lemma log_extend (e : event) (w : World) : log e w = extend [e] w.
Proof. reflexivity. Qed.

Lemma bind_returned {A B} (m : M A) (k : A → M B) (w w' : World) (a : A) :
  m w = (Returned a, w') → bind m k w = k a w'.
Proof. unfold bind. by intros ->. Qed.


Lemma bind_raised {A B} (m : M A) (k : A → M B) (w w' : World) (e : exn) :
  m w = (Raised e, w') → bind m k w = (Raised e, w').
Proof. unfold bind. by intros ->. Qed.

Section Runs.
Context (cfg : Config) (env : Env).
Hypothesis no_fault : ∀ n, fault env n = false.

Lemma request_read {A} (r : request) (f : GitHub → A) (w : World) :
  _request env r (serve_read f) w
  = (Returned (f (w_github w)), extend [Request r true] w).
Proof.
  unfold _request, serve_read. by rewrite no_fault, set_github_same.
Qed.

Lemma get_pr_details_run (w : World) :
  get_pr_details env w
  = (Returned (Some (gh_pull (w_github w))), extend [Request GetPull true] w).
Proof.
  unfold get_pr_details, try_except.
  by rewrite (bind_returned _ _ _ _ _ (request_read _ _ _)).
Qed.

Lemma compare_branches_run (base head : option string) (w : World) :
  compare_branches env base head w
  = (Returned (Some (gh_compare (w_github w) base head)),
     extend [Request (GetCompare base head) true] w).
Proof.
  unfold compare_branches, try_except.
  by rewrite (bind_returned _ _ _ _ _ (request_read _ _ _)).
Qed.

Lemma find_issue_comment_with_tag_run (tag : string) (w : World) :
  find_issue_comment_with_tag env tag w
  = (Returned (List.find (has_tag tag) (gh_issue_comments (w_github w))),
     extend [Request ListIssueComments true] w).
Proof.
  unfold find_issue_comment_with_tag, list_issue_comments.
  by rewrite (bind_returned _ _ _ _ _ (request_read _ _ _)).
Qed.

Lemma get_all_commit_ids_from_run (remaining : list (list Commit)) (page : Z)
    (commits : list string) (w : World) :
  ∃ evs,
    forallb is_fetch evs = true
    ∧ get_all_commit_ids_from env remaining page commits w
      = (Returned (commits ++ listed_commit_ids remaining)%list, extend evs w).
Proof.
  revert page commits w. induction remaining as [| data rest IH]; intros page commits w.
  - exists [Request (ListCommits page) true]. split; [done |].
    cbn [get_all_commit_ids_from].
    rewrite (bind_returned _ _ _ _ _ (request_read _ _ _)).
    cbn [listed_commit_ids]. by rewrite app_nil_r.
  - cbn [get_all_commit_ids_from].
    rewrite (bind_returned _ _ _ _ _ (request_read _ _ _)). cbn [hd].
    destruct data as [| c data].
    + exists [Request (ListCommits page) true]. split; [done |].
      cbn [listed_commit_ids]. by rewrite app_nil_r.
    + destruct (IH (page + 1) (commits ++ shas_of (c :: data))%list
                  (extend [Request (ListCommits page) true] w)) as (evs & Hevs & Hrun).
      exists (Request (ListCommits page) true :: evs). split; [done |].
      rewrite Hrun, extend_extend. cbn [listed_commit_ids]. by rewrite <- app_assoc.
Qed.

Lemma get_all_commit_ids_run (w : World) :
  ∃ evs,
    forallb is_fetch evs = true
    ∧ get_all_commit_ids env w
      = (Returned (listed_commit_ids (gh_commit_pages (w_github w))), extend evs w).
Proof.
  unfold get_all_commit_ids.
  destruct (get_all_commit_ids_from_run (gh_commit_pages (w_github w)) 1 [] w)
    as (evs & Hevs & Hrun).
  by exists evs.
Qed.

(** The fetches of [review_pr]: when no request fails and the description
    does not carry the ignore keyword, [review_pr] reads the pull request,
    its comments and its commits, compares, and goes on with the files of
    the comparison. *)
Lemma review_pr_fetches (w : World) :
  ignored cfg (w_github w) = false →
  ∃ evs,
    forallb is_fetch evs = true
    ∧ review_pr cfg env w
      = review_compared cfg env (gh_pull (w_github w))
          (compared_files cfg (w_github w)) (extend evs w).
Proof.
  intros Hignored. unfold review_pr.
  rewrite (bind_returned _ _ _ _ _ (get_pr_details_run w)).
  cbn [extend w_github]. unfold ignored in Hignored. rewrite Hignored.
  rewrite (bind_returned _ _ _ _ _ (find_issue_comment_with_tag_run _ _)).
  cbn [extend w_github]. rewrite extend_extend.
  assert (Hcommits : ∃ evs,
             forallb is_fetch evs = true
             ∧ (if has_token cfg then get_all_commit_ids env else ret [])
                 (extend ([Request GetPull true] ++ [Request ListIssueComments true]) w)
               = (Returned (if has_token cfg
                            then listed_commit_ids (gh_commit_pages (w_github w))
                            else []),
                  extend evs w)).
  { destruct (has_token cfg).
    - destruct (get_all_commit_ids_run
                  (extend ([Request GetPull true] ++ [Request ListIssueComments true]) w))
        as (evs & Hevs & Hrun).
      eexists. split; [| rewrite Hrun, extend_extend; reflexivity].
      rewrite forallb_app. by rewrite Hevs.
    - eexists. split; [| reflexivity]. done. }
  destruct Hcommits as (evs & Hevs & Hrun).
  rewrite (bind_returned _ _ _ _ _ Hrun).
  rewrite (bind_returned _ _ _ _ _ (compare_branches_run _ _ _)).
  cbn [extend w_github]. rewrite extend_extend.
  eexists. split; [| reflexivity].
  rewrite forallb_app. by rewrite Hevs.
Qed.

End Runs.

Lemma fetch_is_quiet (evs : list event) :
  forallb is_fetch evs = true →
  forallb (λ e, negb (is_llm_call e) && negb (is_publish_call e)) evs = true.
Proof.
  intros H. apply forallb_forall. intros e He.
  eapply forallb_forall in H; [| exact He].
  by destruct e as [[] []|].
Qed.

(** C7.  When the comparison of [compare_base] against the head returns
    no file, [review_pr] ends in the skip state with the reason
    "no files to review" and the head commit id, [post_review] returns
    that result, and the cycle has made no model invocation and no
    publish call: all it did was read the pull request. *)
Theorem no_files_ends_in_skip (cfg : Config) (env : Env) (w : World) :
  let g := w_github w in
  let result :=
    skip_result (default "" (pr_head_sha (gh_pull g))) "no files to review" in
  (∀ n, fault env n = false) →
  ignored cfg g = false →
  compared_files cfg g = [] →
  ∃ evs,
    review_pr cfg env w = (Returned result, extend evs w)
    ∧ post_review cfg env w = (Returned result, extend evs w)
    ∧ skipped result = true
    ∧ skip_reason result = "no files to review"
    ∧ reviewed_sha result = default "" (pr_head_sha (gh_pull g))
    ∧ forallb is_fetch evs = true
    ∧ forallb (λ e, negb (is_llm_call e) && negb (is_publish_call e)) evs = true.
Proof.
  intros g result no_fault Hignored Hfiles.
  destruct (review_pr_fetches cfg env no_fault w Hignored) as (evs & Hevs & Hrun).
  fold g in Hrun. rewrite Hfiles in Hrun. cbn [review_compared] in Hrun.
  exists evs. split; [exact Hrun |]. split.
  - unfold post_review. by rewrite (bind_returned _ _ _ _ _ Hrun).
  - repeat split; [done | by apply fetch_is_quiet].
Qed.

Lemma no_files_ends_in_skip_witness :
  let w := Samples.world_of Samples.gh_reviewed in
  (∀ n, fault Samples.env0 n = false)
  ∧ ignored Samples.cfg0 (w_github w) = false
  ∧ compared_files Samples.cfg0 (w_github w) = []
  ∧ ∃ evs,
      review_pr Samples.cfg0 Samples.env0 w
      = (Returned (skip_result "c4" "no files to review"), extend evs w)
      ∧ post_review Samples.cfg0 Samples.env0 w
        = (Returned (skip_result "c4" "no files to review"), extend evs w)
      ∧ skipped (skip_result "c4" "no files to review") = true
      ∧ skip_reason (skip_result "c4" "no files to review") = "no files to review"
      ∧ reviewed_sha (skip_result "c4" "no files to review") = "c4"
      ∧ forallb is_fetch evs = true
      ∧ forallb (λ e, negb (is_llm_call e) && negb (is_publish_call e)) evs = true.
Proof.
  intros w.
  assert (Hfault : ∀ n, fault Samples.env0 n = false) by reflexivity.
  split; [exact Hfault |]. split; [reflexivity |]. split; [reflexivity |].
  exact (no_files_ends_in_skip Samples.cfg0 Samples.env0 w Hfault eq_refl eq_refl).
Defined.

Example no_files_trace :
  snd (post_review Samples.cfg0 Samples.env0 (Samples.world_of Samples.gh_reviewed))
  = extend [Request GetPull true; Request ListIssueComments true;
            Request (ListCommits 1) true; Request (ListCommits 2) true;
            Request (GetCompare (Some "c4") (Some "c4")) true]
      (Samples.world_of Samples.gh_reviewed).
Proof. vm_compute. reflexivity. Qed.

Section Pipeline.
Context (cfg : Config) (env : Env).
Hypothesis llm_answers : ∀ t n prompt, llm env t n prompt ≠ None.
Hypothesis summaries_decode : ∀ content, decode_file_summary env content ≠ None.







End Pipeline.







Example simple_changes_trace :
  map is_llm_call
      (w_trace (snd (review_pr Samples.cfg0 Samples.env0
                       (Samples.world_of Samples.gh_small))))
  = [false; false; false; false; false; true; true; true; true; true].
Proof. vm_compute. reflexivity. Qed.

(** ** Failing fetches *)

Lemma review_pr_raises_on_comment_listing (cfg : Config) (env : Env) (w : World) :
  fault env (length (w_trace w)) = false →
  fault env (S (length (w_trace w))) = true →
  ignored cfg (w_github w) = false →
  review_pr cfg env w
  = (Raised (HTTPError ListIssueComments),
     extend [Request GetPull true; Request ListIssueComments false] w).
Proof.
  intros Hpull Hlist Hignored.
  unfold review_pr, get_pr_details, try_except, bind, _request, serve_read.
  rewrite Hpull. cbn [ret]. rewrite set_github_same.
  unfold ignored in Hignored. cbn [log w_github]. rewrite Hignored.
  unfold find_issue_comment_with_tag, list_issue_comments, bind, _request.
  cbn [log w_trace]. rewrite length_app. cbn [length].
  replace (length (w_trace w) + 1)%nat with (S (length (w_trace w))) by lia.
  rewrite Hlist. unfold extend, log. cbn. by rewrite <- app_assoc.
Qed.

(** C8, on the code.  A failure to list the issue comments or the
    commits makes [review_pr], and [post_review] with it, raise, where a
    failure to fetch the pull request or the comparison gives a skipped
    result with a reason. *)
Theorem review_pr_raises_when_listing_fails :
  let w := Samples.world_of Samples.gh_small in
  fst (review_pr Samples.cfg0 (Samples.env_failing 1) w)
  = Raised (HTTPError ListIssueComments)
  ∧ fst (review_pr Samples.cfg0 (Samples.env_failing 2) w)
    = Raised (HTTPError (ListCommits 1))
  ∧ fst (post_review Samples.cfg0 (Samples.env_failing 1) w)
    = Raised (HTTPError ListIssueComments)
  ∧ fst (post_review Samples.cfg0 (Samples.env_failing 2) w)
    = Raised (HTTPError (ListCommits 1))
  ∧ fst (review_pr Samples.cfg0 (Samples.env_failing 0) w)
    = Returned (skip_result "" "failed to fetch PR details")
  ∧ fst (review_pr Samples.cfg0 (Samples.env_failing 4) w)
    = Returned (skip_result "c4" "failed to compare commits").
Proof. intros w. repeat split; vm_compute; reflexivity. Qed.

(** ** Calls that only read *)







Section Reads.
Context (cfg : Config) (env : Env).












End Reads.

(** ** Publishing *)

Lemma evolve_evolve (g1 g2 : GitHub) (evs1 evs2 : list event) (w : World) :
  evolve g2 evs2 (evolve g1 evs1 w) = evolve g2 (evs1 ++ evs2) w.
Proof. unfold evolve. simpl. by rewrite app_assoc. Qed.


Lemma evolve_nil (w : World) : evolve (w_github w) [] w = w.
Proof. destruct w. unfold evolve. simpl. by rewrite app_nil_r. Qed.

Lemma quiet_ret {A} (P : event → bool) (a : A) : quiet P (ret a).
Proof. intros w. exists (Returned a), (w_github w), []. by rewrite evolve_nil. Qed.

Lemma steps_ret {A} (P : event → bool) (a : A) : steps P (ret a).
Proof. intros w. exists a, (w_github w), []. by rewrite evolve_nil. Qed.

Lemma quiet_bind {A B} (P : event → bool) (m : M A) (k : A → M B) :
  quiet P m → (∀ a, quiet P (k a)) → quiet P (bind m k).
Proof.
  intros Hm Hk w. destruct (Hm w) as ([a | e] & g & evs & Hrun & Hevs);
    unfold bind; rewrite Hrun.
  - destruct (Hk a (evolve g evs w)) as (r & g' & evs' & Hrun' & Hevs').
    rewrite Hrun', evolve_evolve. eexists _, _, _. split; [done |].
    by rewrite forallb_app, Hevs, Hevs'.
  - by eexists _, _, _.
Qed.

Lemma steps_bind {A B} (P : event → bool) (m : M A) (k : A → M B) :
  steps P m → (∀ a, steps P (k a)) → steps P (bind m k).
Proof.
  intros Hm Hk w. destruct (Hm w) as (a & g & evs & Hrun & Hevs).
  unfold bind; rewrite Hrun.
  destruct (Hk a (evolve g evs w)) as (r & g' & evs' & Hrun' & Hevs').
  rewrite Hrun', evolve_evolve. eexists _, _, _. split; [done |].
  by rewrite forallb_app, Hevs, Hevs'.
Qed.

Lemma quiet_request {A} (P : event → bool) (env : Env) (r : request)
    (serve : GitHub → option (A * GitHub)) :
  P (Request r true) = true → P (Request r false) = true →
  quiet P (_request env r serve).
Proof.
  intros Hok Hko w. unfold _request. destruct (fault env _).
  - exists (Raised (HTTPError r)), (w_github w), [Request r false].
    split; [done |]. simpl. by rewrite Hko.
  - destruct (serve (w_github w)) as [[a g] |].
    + exists (Returned a), g, [Request r true]. split; [done |]. simpl. by rewrite Hok.
    + exists (Raised (HTTPError r)), (w_github w), [Request r false].
      split; [done |]. simpl. by rewrite Hko.
Qed.

(** [try: m except Exception: pass] never raises. *)
Lemma steps_try_except {A} (P : event → bool) (m : M A) (a : A) :
  quiet P m → steps P (try_except m (λ _, ret a)).
Proof.
  intros Hm w. destruct (Hm w) as ([x | e] & g & evs & Hrun & Hevs);
    unfold try_except; rewrite Hrun; by eexists _, _, _.
Qed.

Lemma steps_for_each {A} (P : event → bool) (xs : list A) (body : A → M unit) :
  (∀ x, steps P (body x)) → steps P (for_each xs body).
Proof.
  intros Hbody. induction xs as [| x xs IH]; cbn [for_each]; [apply steps_ret |].
  apply steps_bind; [apply Hbody | intros; apply IH].
Qed.

Section Publish.
Context (cfg : Config) (env : Env).
Hypothesis no_fault : ∀ n, fault env n = false.

Lemma steps_delete_pending_review : steps not_inline (delete_pending_review env).
Proof.
  apply steps_try_except. apply quiet_bind; [by apply quiet_request |].
  intros reviews. destruct (List.find _ reviews); [by apply quiet_request | apply quiet_ret].
Qed.

Lemma steps_update_description (message : string) :
  steps not_inline (update_description env message).
Proof.
  apply steps_try_except. apply quiet_bind; [by apply quiet_request |].
  intros pr. by apply quiet_request.
Qed.



Lemma set_buffer_twice (b1 b2 : list Buffered) (w : World) :
  set_buffer b2 (set_buffer b1 w) = set_buffer b2 w.
Proof. reflexivity. Qed.




End Publish.

Example int_on_line_values :
  map cpython_int ["12"; " 12 "; "-7"; "1_000"; "12-14"; "1__0"; "+"; ""; "3.0"]
  = [Some 12; Some 12; Some (-7); Some 1000; None; None; None; None; None]
  ∧ int_of_float (S754_finite false 5 (-1)) = inr 2
  ∧ int_of_float (S754_finite true 5 (-1)) = inr (-2)
  ∧ int_of_float (S754_finite false 25 2) = inr 100
  ∧ int_or_zero cpython_int (Some JNull) = inr 0
  ∧ int_or_zero cpython_int (Some (JBool true)) = inr 1
  ∧ int_or_zero cpython_int (Some (JString "12-14")) = inl ValueError
  ∧ int_or_zero cpython_int (Some (JArray [JInt 12])) = inl TypeError.
Proof. repeat split; vm_compute; reflexivity. Qed.

(** C10, on the code.  A review comment whose line is written as a
    range or a list does not pass [int]: [post_review] raises, after the
    summary comment has been published; no inline comment is submitted
    and the comment buffered before stays in the buffer.  A comment whose
    line is 0 is dropped in silence, and the review is submitted with
    the other one. *)
Theorem post_review_raises_on_unreadable_line :
  let w := Samples.world_of Samples.gh_large in
  let run := λ second_line,
    post_review Samples.cfg0 (Samples.env_reviewing second_line) w in
  let submitted := λ second_line,
    List.filter is_inline_submission (w_trace (snd (run second_line))) in
  fst (run (JString "12-14")) = Raised ValueError
  ∧ submitted (JString "12-14") = []
  ∧ existsb is_publish_call (w_trace (snd (run (JString "12-14")))) = true
  ∧ map bf_end_line (w_buffer (snd (run (JString "12-14")))) = [3]
  ∧ fst (run (JArray [JInt 12; JInt 14])) = Raised TypeError
  ∧ submitted (JArray [JInt 12; JInt 14]) = []
  ∧ (∃ result, fst (run (JInt 0)) = Returned result
               ∧ length (review_comments result) = 2%nat)
  ∧ map (λ e, match e with
              | Request (PostReview _ _ comments) true => map pl_line comments
              | _ => []
              end) (submitted (JInt 0)) = [[3]].
Proof.
  intros w run submitted. subst run submitted. cbn beta.
  repeat split; try (vm_compute; reflexivity).
  eexists. split; vm_compute; reflexivity.
Qed.

Example post_review_submits_one_review :
  List.filter is_inline_submission
    (w_trace (snd (post_review Samples.cfg0 Samples.env0
                     (Samples.world_of Samples.gh_large))))
  = [Request
       (PostReview "c4" ("CodeRabbit" ++ NL ++ NL ++ "Review completed")
          [{| pl_path := "retry.py";
              pl_body := "CodeRabbit" ++ NL ++ NL
                         ++ "re: review retry.py" ++ NL ++ "@@ -1,2 +1,2 @@" ++ NL
                         ++ "-: tries = 0" ++ NL ++ "1:+tries = 5"
                         ++ NL ++ NL ++ COMMENT_TAG;
              pl_line := 3; pl_start_line := None |}])
       true].
Proof. vm_compute. reflexivity. Qed.

(** * Further properties *)

(** ** Text between tags *)

Lemma no_linebreak_cons (c : ascii) (t : string) :
  no_linebreak (String c t) → Ascii.eqb c LF = false ∧ no_linebreak t.
Proof.
  unfold no_linebreak. simpl. intros [Hc Ht]%andb_true_iff. split; [| done].
  destruct (Ascii.eqb_spec c LF) as [-> |]; [discriminate Hc | done].
Qed.

Lemma prefix_line (tag a b : string) :
  no_linebreak tag →
  String.prefix tag (a ++ NL ++ b) = String.prefix tag a.
Proof.
  revert a. induction tag as [| c t IH]; intros a Htag.
  - by destruct a.
  - apply no_linebreak_cons in Htag as [Hc Ht]. destruct a as [| d a].
    + change ("" ++ NL ++ b) with (String LF b). rewrite prefix_cons, Hc. done.
    + change (String d a ++ NL ++ b) with (String d (a ++ NL ++ b)).
      rewrite !prefix_cons. destruct (Ascii.eqb c d); [by apply IH | done].
Qed.

Lemma contains_line (tag a b : string) :
  no_linebreak tag →
  contains tag (a ++ NL ++ b) = contains tag a || contains tag b.
Proof.
  intros Htag. induction a as [| d a IH].
  - change ("" ++ NL ++ b) with (String LF b). cbn [contains].
    change (String LF b) with ("" ++ NL ++ b). rewrite prefix_line by done.
    by rewrite orb_false_r.
  - change (String d a ++ NL ++ b) with (String d (a ++ NL ++ b)). cbn [contains].
    change (String d (a ++ NL ++ b)) with (String d a ++ NL ++ b).
    rewrite prefix_line by done. rewrite IH. by rewrite orb_assoc.
Qed.

Lemma drop_line (n : nat) (a b : string) :
  (n <= String.length a)%nat → drop n (a ++ NL ++ b) = drop n a ++ NL ++ b.
Proof.
  revert a. induction n as [| n IH]; intros a Hn; [done |].
  destruct a as [| d a]; [simpl in Hn; lia |].
  change (String d a ++ NL ++ b) with (String d (a ++ NL ++ b)). cbn [drop].
  apply IH. simpl in Hn. lia.
Qed.

Lemma prefix_length (p s : string) :
  String.prefix p s = true → (String.length p <= String.length s)%nat.
Proof.
  revert s. induction p as [| c p IH]; intros s H; [simpl; lia |].
  destruct s as [| d s]; [discriminate H |].
  rewrite prefix_cons in H. destruct (Ascii.eqb c d); [| discriminate H].
  apply IH in H. simpl. lia.
Qed.

Lemma split_once_line (tag a b : string) :
  no_linebreak tag →
  split_once tag (a ++ NL ++ b)
  = match split_once tag a with
    | Some (x, y) => Some (x, y ++ NL ++ b)
    | None =>
        match split_once tag b with
        | Some (x, y) => Some (a ++ NL ++ x, y)
        | None => None
        end
    end.
Proof.
  intros Htag. induction a as [| d a IH].
  - change ("" ++ NL ++ b) with (String LF b). cbn [split_once].
    change (String LF b) with ("" ++ NL ++ b). rewrite prefix_line by done.
    destruct (String.prefix tag "") eqn:Hp.
    + destruct tag; [| discriminate Hp]. done.
    + change ("" ++ NL ++ b) with (String LF b).
      destruct (split_once tag b) as [[x y] |]; done.
  - change (String d a ++ NL ++ b) with (String d (a ++ NL ++ b)). cbn [split_once].
    change (String d (a ++ NL ++ b)) with (String d a ++ NL ++ b).
    rewrite prefix_line by done.
    destruct (String.prefix tag (String d a)) eqn:Hp.
    + rewrite drop_line by by apply prefix_length. done.
    + rewrite IH. destruct (split_once tag a) as [[x y] |]; [done |].
      destruct (split_once tag b) as [[x y] |]; done.
Qed.

Lemma contains_split_once (tag s : string) :
  contains tag s = false → split_once tag s = None.
Proof.
  induction s as [| c s IH]; cbn [contains split_once].
  - intros H. apply orb_false_iff in H as [-> _]. done.
  - intros H. apply orb_false_iff in H as [-> H]. by rewrite IH.
Qed.

Lemma split_once_here (tag rest : string) :
  split_once tag (tag ++ rest) = Some ("", rest).
Proof.
  assert (Hp : String.prefix tag (tag ++ rest) = true).
  { induction tag as [| c t IH]; [by destruct rest |].
    change (String c t ++ rest) with (String c (t ++ rest)).
    by rewrite prefix_cons, Ascii.eqb_refl. }
  assert (Hd : drop (String.length tag) (tag ++ rest) = rest).
  { induction tag as [| c t IH]; [done |]. apply IH.
    change (String c t ++ rest) with (String c (t ++ rest)) in Hp.
    by rewrite prefix_cons, Ascii.eqb_refl in Hp. }
  destruct (tag ++ rest) as [| c s] eqn:E; cbn [split_once]; rewrite Hp; by rewrite Hd.
Qed.

Lemma contains_here (tag rest : string) : contains tag (tag ++ rest) = true.
Proof.
  assert (Hp : String.prefix tag (tag ++ rest) = true).
  { induction tag as [| c t IH]; [by destruct rest |].
    change (String c t ++ rest) with (String c (t ++ rest)).
    by rewrite prefix_cons, Ascii.eqb_refl. }
  destruct (tag ++ rest); cbn [contains]; by rewrite Hp.
Qed.

Lemma contains_empty (tag : string) : tag ≠ "" → contains tag "" = false.
Proof. by destruct tag. Qed.

Lemma contains_nonempty (tag s : string) : contains tag s = false → tag ≠ "".
Proof. intros H ->. by destruct s. Qed.

Lemma rstrip_space_end (s : string) (c : ascii) :
  isspace c = true → rstrip (s ++ String c "") = rstrip s.
Proof.
  intros Hc. induction s as [| d s IH].
  - change ("" ++ String c "") with (String c ""). cbn [rstrip]. by rewrite Hc.
  - change (String d s ++ String c "") with (String d (s ++ String c "")).
    cbn [rstrip]. by rewrite IH.
Qed.

Lemma strip_between_newlines (s : string) : strip (NL ++ s ++ NL) = strip s.
Proof.
  unfold strip. change (NL ++ s ++ NL) with (String LF (s ++ NL)). cbn [rstrip].
  unfold NL. rewrite rstrip_space_end by reflexivity.
  destruct (rstrip s) as [| c t]; [done |]. by cbn [lstrip].
Qed.

(** The text that follows the first [start_tag] of a text in which the
    tag opens a line. *)
Lemma split_once_opening (start_tag pre rest : string) :
  no_linebreak start_tag →
  pre = "" ∨ (∃ p, pre = p ++ NL) →
  contains start_tag pre = false →
  split_once start_tag (pre ++ start_tag ++ rest) = Some (pre, rest).
Proof.
  intros Htag Hpre Hfree. destruct Hpre as [-> | [p ->]].
  - exact (split_once_here start_tag rest).
  - pose proof (contains_nonempty _ _ Hfree) as Hne.
    rewrite <- (string_app_nil_r (p ++ NL)) in Hfree.
    rewrite string_app_assoc, contains_line in Hfree by done.
    apply orb_false_iff in Hfree as [Hp _].
    rewrite string_app_assoc, split_once_line by done.
    by rewrite (contains_split_once _ _ Hp), split_once_here.
Qed.

Lemma contains_after (tag a b : string) :
  contains tag b = true → contains tag (a ++ b) = true.
Proof.
  intros H. induction a as [| c a IH]; [done |].
  change (String c a ++ b) with (String c (a ++ b)). cbn [contains].
  rewrite IH. by rewrite orb_true_r.
Qed.

Lemma content_within_tags_of_wrapped (start_tag end_tag pre inner post : string) :
  no_linebreak start_tag → no_linebreak end_tag →
  pre = "" ∨ (∃ p, pre = p ++ NL) →
  contains start_tag pre = false →
  contains end_tag inner = false →
  get_content_within_tags
    (pre ++ start_tag ++ NL ++ inner ++ NL ++ end_tag ++ post) start_tag end_tag
  = strip inner.
Proof.
  intros Hs He Hpre Hfree Hinner. unfold get_content_within_tags.
  pose proof (contains_nonempty _ _ Hinner) as Hne.
  rewrite (contains_after start_tag pre) by apply contains_here.
  rewrite (contains_after end_tag pre)
    by (do 4 apply contains_after; apply contains_here).
  cbn [negb orb]. rewrite split_once_opening by done.
  change (NL ++ inner ++ NL ++ end_tag ++ post)
    with ("" ++ NL ++ inner ++ NL ++ end_tag ++ post).
  rewrite split_once_line by done.
  rewrite (contains_split_once end_tag "") by by apply contains_empty.
  rewrite split_once_line by done.
  rewrite (contains_split_once _ _ Hinner), split_once_here.
  change ("" ++ NL ++ inner ++ NL ++ "") with (NL ++ inner ++ NL).
  apply strip_between_newlines.
Qed.

Lemma contains_join (tag : string) (parts : list string) :
  no_linebreak tag → tag ≠ "" →
  contains tag (join NL parts) = existsb (contains tag) parts.
Proof.
  intros Htag Hne. unfold join. induction parts as [| p rest IH].
  - by apply contains_empty.
  - cbn [String.concat existsb]. destruct rest as [| q rest].
    + cbn [existsb]. by rewrite orb_false_r.
    + rewrite contains_line by done. by rewrite IH.
Qed.

Lemma contains_lstrip (tag s : string) :
  contains tag s = false → contains tag (lstrip s) = false.
Proof.
  induction s as [| c s IH]; [done |]. cbn [lstrip]. destruct (isspace c); [| done].
  cbn [contains]. intros [_ H]%orb_false_iff. by apply IH.
Qed.

Lemma prefix_app (p a b : string) :
  String.prefix p a = true → String.prefix p (a ++ b) = true.
Proof.
  revert a. induction p as [| c p IH]; intros a; [by destruct (a ++ b) |].
  destruct a as [| d a]; [discriminate |].
  change (String d a ++ b) with (String d (a ++ b)). rewrite !prefix_cons.
  destruct (Ascii.eqb c d); [apply IH | done].
Qed.

Lemma contains_app_l (tag a b : string) :
  contains tag (a ++ b) = false → contains tag a = false.
Proof.
  induction a as [| c a IH].
  - intros H. by apply contains_empty, (contains_nonempty _ _ H).
  - change (String c a ++ b) with (String c (a ++ b)). cbn [contains].
    intros [Hp H]%orb_false_iff. rewrite IH by done. rewrite orb_false_r.
    destruct (String.prefix tag (String c a)) eqn:E; [| done].
    apply (prefix_app _ _ b) in E.
    change (String c a ++ b) with (String c (a ++ b)) in E. congruence.
Qed.

Lemma rstrip_split (s : string) : ∃ w, s = rstrip s ++ w.
Proof.
  induction s as [| c s [w IH]]; [by exists "" |]. cbn [rstrip].
  destruct (rstrip s) as [| c' t] eqn:E.
  - destruct (isspace c).
    + by exists (String c s).
    + by exists s.
  - exists w. change (String c (String c' t) ++ w) with (String c (String c' t ++ w)).
    by rewrite <- IH.
Qed.

Lemma contains_rstrip (tag s : string) :
  contains tag s = false → contains tag (rstrip s) = false.
Proof.
  intros H. destruct (rstrip_split s) as [w Hw]. rewrite Hw in H.
  by apply contains_app_l in H.
Qed.

Lemma contains_strip (tag s : string) :
  contains tag s = false → contains tag (strip s) = false.
Proof. intros H. by apply contains_lstrip, contains_rstrip. Qed.

Lemma contains_skip (tag : string) (c d : ascii) (t s : string) :
  tag = String c t → Ascii.eqb c d = false →
  contains tag (String d s) = contains tag s.
Proof. intros -> Hcd. cbn [contains]. by rewrite prefix_cons, Hcd. Qed.

Lemma contains_bullets (tag : string) (c : ascii) (t : string) (notes : list string) :
  tag = String c t → no_linebreak tag →
  Ascii.eqb c "-" = false → Ascii.eqb c " " = false →
  Forall (λ n, contains tag n = false) notes →
  contains tag (join NL (map (λ n, "- " ++ n) notes)) = false.
Proof.
  intros Htag Hnl H1 H2 Hnotes. rewrite contains_join by (done || by subst).
  induction Hnotes as [| n rest Hn _ IH]; [done |]. cbn [map existsb].
  rewrite IH, orb_false_r. change ("- " ++ n) with (String "-" (String " " n)).
  by rewrite (contains_skip _ _ _ _ _ Htag H1), (contains_skip _ _ _ _ _ Htag H2).
Qed.

Lemma ledger_clean (existing_block commit_id : string) :
  commit_id = "" ∨ clean_id commit_id →
  Forall clean_id (ledger_after_add existing_block commit_id).
Proof.
  intros Hid. unfold ledger_after_add. rewrite ledger_of_block.
  pose proof (reviewed_ids_clean existing_block) as Hids.
  destruct Hid as [-> | Hclean]; [done |].
  destruct (truthy commit_id && _); [| done].
  apply Forall_app. split; [done |]. by apply Forall_singleton.
Qed.

Lemma summary_comment_wrapped (summary : string) (release_notes : list string)
    (raw_summary short_summary body : string) :
  ∃ head,
    _build_summary_comment summary release_notes raw_summary short_summary
      (COMMIT_ID_START_TAG ++ NL ++ body ++ NL ++ COMMIT_ID_END_TAG)
    = (head ++ NL) ++ COMMIT_ID_START_TAG ++ NL ++ body ++ NL ++ COMMIT_ID_END_TAG ++ NL
    ∧ (contains COMMIT_ID_START_TAG summary = false →
       Forall (λ n, contains COMMIT_ID_START_TAG n = false) release_notes →
       contains COMMIT_ID_START_TAG raw_summary = false →
       contains COMMIT_ID_START_TAG short_summary = false →
       contains COMMIT_ID_START_TAG (head ++ NL) = false)
    ∧ contains SUMMARIZE_TAG (head ++ NL) = true.
Proof.
  set (notes := match release_notes with
                | [] => "- (none)"
                | _ :: _ => join NL (map (λ n, "- " ++ n) release_notes)
                end).
  exists (join NL [SUMMARIZE_TAG; "### Summary"; ""; summary; ""; "### Release Notes";
                   notes; ""; RAW_SUMMARY_START_TAG; raw_summary; RAW_SUMMARY_END_TAG;
                   SHORT_SUMMARY_START_TAG; short_summary; SHORT_SUMMARY_END_TAG; ""]).
  split; [| split].
  - unfold _build_summary_comment, join. fold notes. cbn [String.concat].
    rewrite !string_app_assoc. reflexivity.
  - intros Hs Hn Hr Hsh.
    assert (Hnotes : contains COMMIT_ID_START_TAG notes = false).
    { subst notes. destruct release_notes as [| n rest]; [reflexivity |].
      by apply (contains_bullets _ "<" "!-- commit_ids_reviewed_start -->"). }
    match goal with
    | |- contains _ (join NL ?ps ++ NL) = false =>
        change (join NL ps ++ NL) with (join NL ps ++ NL ++ "")
    end.
    rewrite contains_line, contains_join by done.
    cbn [existsb]. rewrite Hs, Hnotes, Hr, Hsh. reflexivity.
  - unfold join. cbn [String.concat]. rewrite string_app_assoc. apply contains_here.
Qed.

Lemma rstrip_app_solid (x t : string) :
  rstrip t = t → t ≠ "" → rstrip (x ++ t) = x ++ t.
Proof.
  intros Ht Hne. induction x as [| c x IH]; [done |].
  change (String c x ++ t) with (String c (x ++ t)). cbn [rstrip]. rewrite IH.
  destruct (x ++ t) eqn:E; [| done]. destruct x; [| discriminate E]. by destruct t.
Qed.

Lemma lstrip_solid (s : string) : lstrip s = "" ∨ starts_solid (lstrip s).
Proof.
  induction s as [| c s IH]; [by left |]. cbn [lstrip].
  destruct (isspace c) eqn:Hc; [done |]. right. by exists c, s.
Qed.

Lemma lstrip_starts_solid (s : string) : starts_solid s → lstrip s = s.
Proof. intros (c & t & -> & Hc). cbn [lstrip]. by rewrite Hc. Qed.

Lemma clean_id_ends (id : string) :
  clean_id id → rstrip id = id ∧ starts_solid id.
Proof.
  intros (Hstrip & Hne & _). unfold strip in Hstrip. split.
  - rewrite <- Hstrip at 1. by rewrite rstrip_lstrip, rstrip_idem.
  - destruct (lstrip_solid (rstrip id)) as [H | H]; rewrite Hstrip in H; done.
Qed.

Lemma strip_join_clean (ids : list string) :
  Forall clean_id ids → strip (join NL ids) = join NL ids.
Proof.
  intros Hids. unfold strip.
  assert (Hr : rstrip (join NL ids) = join NL ids).
  { unfold join. induction Hids as [| id rest Hid Hrest IH]; [done |].
    cbn [String.concat]. destruct rest as [| q rest]; [by apply clean_id_ends |].
    rewrite <- string_app_assoc. apply rstrip_app_solid; [done |].
    apply Forall_cons in Hrest as [(_ & Hq & _) _]. cbn [String.concat].
    destruct rest; [done |]. by destruct q. }
  rewrite Hr. destruct Hids as [| id rest Hid Hrest]; [done |].
  apply lstrip_starts_solid. apply join_starts_solid. by apply clean_id_ends.
Qed.

Lemma contains_join_free (tag : string) (parts : list string) :
  no_linebreak tag → tag ≠ "" →
  Forall (λ p, contains tag p = false) parts →
  contains tag (join NL parts) = false.
Proof.
  intros Htag Hne Hparts. rewrite contains_join by done.
  induction Hparts as [| p rest Hp _ IH]; [done |]. cbn [existsb]. by rewrite Hp, IH.
Qed.

Lemma summary_comment_block (summary : string) (release_notes : list string)
    (raw_summary short_summary existing_block commit_id : string) :
  let ledger := ledger_after_add existing_block commit_id in
  commit_id = "" ∨ clean_id commit_id →
  Forall (λ id, contains COMMIT_ID_END_TAG id = false) ledger →
  contains COMMIT_ID_START_TAG summary = false →
  Forall (λ n, contains COMMIT_ID_START_TAG n = false) release_notes →
  contains COMMIT_ID_START_TAG raw_summary = false →
  contains COMMIT_ID_START_TAG short_summary = false →
  get_reviewed_commit_ids_block
    (_build_summary_comment summary release_notes raw_summary short_summary
       (add_reviewed_commit_id existing_block commit_id))
  = join NL ledger.
Proof.
  intros ledger Hid Hend Hs Hn Hr Hsh. unfold add_reviewed_commit_id. fold ledger.
  destruct (summary_comment_wrapped summary release_notes raw_summary short_summary
              (join NL ledger)) as (head & -> & Hhead & _).
  pose proof (ledger_clean existing_block commit_id Hid) as Hclean. fold ledger in Hclean.
  unfold get_reviewed_commit_ids_block.
  rewrite content_within_tags_of_wrapped; try done.
  - by apply strip_join_clean.
  - right. by exists head.
  - by apply Hhead.
  - by apply contains_join_free.
Qed.

Lemma ledger_after_add_again (existing_block commit_id : string) :
  commit_id = "" ∨ clean_id commit_id →
  ledger_after_add (join NL (ledger_after_add existing_block commit_id)) commit_id
  = ledger_after_add existing_block commit_id.
Proof.
  intros Hid. pose proof (ledger_clean existing_block commit_id Hid) as Hclean.
  destruct Hid as [-> | Hid]; [| by apply ledger_read_back].
  unfold ledger_after_add at 1. rewrite ledger_of_block. cbn [truthy andb].
  by apply read_back_clean.
Qed.

(** X1.  The ledger survives the summary comment.  When the summary,
    the release notes and the raw and short summaries do not contain the
    opening tag of the ledger, no id of the ledger contains its closing
    tag, and the commit id is empty or one clean line, the ids read from
    the comment that [_build_summary_comment] builds around the block of
    [add_reviewed_commit_id] are the ids that were written, and adding
    the same id to the block read back writes the same block again. *)
Theorem summary_comment_keeps_ledger (summary : string) (release_notes : list string)
    (raw_summary short_summary existing_block commit_id : string) :
  let ledger := ledger_after_add existing_block commit_id in
  let written :=
    _build_summary_comment summary release_notes raw_summary short_summary
      (add_reviewed_commit_id existing_block commit_id) in
  commit_id = "" ∨ clean_id commit_id →
  Forall (λ id, contains COMMIT_ID_END_TAG id = false) ledger →
  contains COMMIT_ID_START_TAG summary = false →
  Forall (λ n, contains COMMIT_ID_START_TAG n = false) release_notes →
  contains COMMIT_ID_START_TAG raw_summary = false →
  contains COMMIT_ID_START_TAG short_summary = false →
  get_reviewed_commit_ids (get_reviewed_commit_ids_block written) = ledger
  ∧ add_reviewed_commit_id (get_reviewed_commit_ids_block written) commit_id
    = add_reviewed_commit_id existing_block commit_id.
Proof.
  intros ledger written Hid Hend Hs Hn Hr Hsh. subst written ledger.
  rewrite summary_comment_block by done. split.
  - apply read_back_clean. by apply ledger_clean.
  - unfold add_reviewed_commit_id. by rewrite ledger_after_add_again.
Qed.

Lemma summary_comment_keeps_ledger_witness :
  let ledger := ledger_after_add "c3" "c4" in
  ledger = ["c3"; "c4"]
  ∧ get_reviewed_commit_ids
      (get_reviewed_commit_ids_block
         (_build_summary_comment "Bounds the retry loop." ["Retries stop after five tries"]
            "retry.py: bounded" "Bounded retries."
            (add_reviewed_commit_id "c3" "c4")))
    = ["c3"; "c4"].
Proof.
  intros ledger. split; [reflexivity |].
  refine (proj1 (summary_comment_keeps_ledger "Bounds the retry loop."
                   ["Retries stop after five tries"] "retry.py: bounded"
                   "Bounded retries." "c3" "c4"
                   _ _ _ _ _ _)).
  - right. split; [reflexivity | split; [discriminate | reflexivity]].
  - repeat constructor.
  - reflexivity.
  - repeat constructor.
  - reflexivity.
  - reflexivity.
Defined.

Lemma lstrip_app (a b : string) :
  lstrip (a ++ b) = match lstrip a with "" => lstrip b | s => s ++ b end.
Proof.
  induction a as [| c a IH]; [done |].
  change (String c a ++ b) with (String c (a ++ b)). cbn [lstrip].
  destruct (isspace c); [apply IH | done].
Qed.

Lemma rstrip_two_newlines (s : string) : rstrip (s ++ NL ++ NL) = rstrip s.
Proof.
  rewrite <- string_app_assoc. unfold NL at 2.
  rewrite rstrip_space_end by reflexivity. unfold NL.
  by rewrite rstrip_space_end by reflexivity.
Qed.

(** The description that [update_description] writes is [pre] followed
    by the tagged region, [pre] being empty or the old description and a
    blank line. *)
Lemma new_description_shape (description clean_message : string) :
  ∃ pre,
    strip (description ++ NL ++ NL ++ DESCRIPTION_START_TAG ++ NL
           ++ clean_message ++ NL ++ DESCRIPTION_END_TAG)
    = pre ++ DESCRIPTION_START_TAG ++ NL ++ clean_message ++ NL
      ++ DESCRIPTION_END_TAG ++ ""
    ∧ (pre = "" ∨ ∃ p, pre = p ++ NL)
    ∧ lstrip (rstrip pre) = strip description
    ∧ (∀ tag, no_linebreak tag → contains tag description = false →
              contains tag pre = false).
Proof.
  unfold strip at 1.
  rewrite <- !string_app_assoc. rewrite rstrip_app_solid by done.
  rewrite !string_app_assoc. rewrite lstrip_app.
  destruct (lstrip description) as [| c t] eqn:Hl.
  - exists "". split; [done |]. split; [by left |]. split.
    + unfold strip. by rewrite <- (rstrip_lstrip description), Hl.
    + intros tag _ H. by apply contains_empty, (contains_nonempty _ _ H).
  - exists (String c t ++ NL ++ NL). split; [by rewrite !string_app_assoc |]. split.
    + right. exists (String c t ++ NL). by rewrite string_app_assoc.
    + split.
      * rewrite rstrip_two_newlines, <- Hl, (rstrip_lstrip description).
        apply lstrip_idem.
      * intros tag Htag H. pose proof (contains_nonempty _ _ H) as Hne.
        apply contains_lstrip in H. rewrite Hl in H.
        change (String c t ++ NL ++ NL) with (String c t ++ NL ++ "" ++ NL ++ "").
        rewrite !contains_line by done. rewrite H. by rewrite contains_empty.
Qed.

Lemma split_once_closing (start_tag end_tag pre inner post : string) :
  no_linebreak end_tag →
  pre = "" ∨ (∃ p, pre = p ++ NL) →
  contains end_tag pre = false →
  contains end_tag start_tag = false →
  contains end_tag inner = false →
  split_once end_tag (pre ++ start_tag ++ NL ++ inner ++ NL ++ end_tag ++ post)
  = Some (pre ++ start_tag ++ NL ++ inner ++ NL, post).
Proof.
  intros He Hpre Hp Hs Hi.
  assert (Hrest : split_once end_tag (start_tag ++ NL ++ inner ++ NL ++ end_tag ++ post)
                  = Some (start_tag ++ NL ++ inner ++ NL, post)).
  { rewrite split_once_line, (contains_split_once _ _ Hs) by done.
    by rewrite split_once_line, (contains_split_once _ _ Hi), split_once_here by done. }
  destruct Hpre as [-> | [p ->]]; [exact Hrest |].
  pose proof (contains_nonempty _ _ Hi) as Hne.
  change (p ++ NL) with (p ++ NL ++ "") in Hp. rewrite contains_line in Hp by done.
  apply orb_false_iff in Hp as [Hp _].
  rewrite string_app_assoc, split_once_line, (contains_split_once _ _ Hp), Hrest by done.
  by rewrite !string_app_assoc.
Qed.

Lemma remove_content_of_wrapped (start_tag end_tag pre inner post : string) :
  no_linebreak start_tag → no_linebreak end_tag →
  pre = "" ∨ (∃ p, pre = p ++ NL) →
  contains start_tag pre = false →
  contains end_tag pre = false →
  contains end_tag start_tag = false →
  contains end_tag inner = false →
  remove_content_within_tags
    (pre ++ start_tag ++ NL ++ inner ++ NL ++ end_tag ++ post) start_tag end_tag
  = strip (rstrip pre ++ NL ++ NL ++ lstrip post).
Proof.
  intros Hs He Hpre Hps Hpe Hes Hi. unfold remove_content_within_tags.
  rewrite (contains_after start_tag pre) by apply contains_here.
  rewrite (contains_after end_tag pre)
    by (do 4 apply contains_after; apply contains_here).
  cbn [negb orb]. rewrite split_once_opening by done.
  by rewrite split_once_closing.
Qed.

(** What [update_description] writes: the description without its old
    region, then the region with the message. *)
Lemma new_description_read_back (description clean_message : string) :
  contains DESCRIPTION_START_TAG description = false →
  contains DESCRIPTION_END_TAG description = false →
  contains DESCRIPTION_END_TAG clean_message = false →
  let new_description :=
    strip (description ++ NL ++ NL ++ DESCRIPTION_START_TAG ++ NL
           ++ clean_message ++ NL ++ DESCRIPTION_END_TAG) in
  get_description new_description = strip description
  ∧ get_content_within_tags new_description DESCRIPTION_START_TAG DESCRIPTION_END_TAG
    = strip clean_message.
Proof.
  intros Hs He Hm new_description. subst new_description.
  destruct (new_description_shape description clean_message)
    as (pre & -> & Hpre & Hstrip & Hfree).
  split.
  - unfold get_description. rewrite remove_content_of_wrapped; try done; try by apply Hfree.
    cbn [lstrip]. change (rstrip pre ++ NL ++ NL ++ "") with (rstrip pre ++ NL ++ NL).
    unfold strip at 1. by rewrite rstrip_two_newlines, rstrip_idem.
  - rewrite content_within_tags_of_wrapped; try done. by apply Hfree.
Qed.

(** X2.  [update_description] replaces its region and keeps the rest.
    When no request fails, the description without its old region
    contains neither tag and the message, cleaned of a region of its
    own, does not contain the closing tag, the pull request body written
    is such that [get_description] gives back the old description,
    stripped, and the content between the tags is the message,
    stripped. *)
Theorem update_description_replaces_region (env : Env) (message : string) (w : World) :
  let body := default "" (pr_body (gh_pull (w_github w))) in
  let description := get_description body in
  let clean_message :=
    remove_content_within_tags message DESCRIPTION_START_TAG DESCRIPTION_END_TAG in
  (∀ n, fault env n = false) →
  contains DESCRIPTION_START_TAG description = false →
  contains DESCRIPTION_END_TAG description = false →
  contains DESCRIPTION_END_TAG clean_message = false →
  ∃ new_body g,
    update_description env message w
    = (Returned tt,
       evolve g [Request GetPull true; Request (PatchPullBody new_body) true] w)
    ∧ pr_body (gh_pull g) = Some new_body
    ∧ get_description new_body = strip description
    ∧ get_content_within_tags new_body DESCRIPTION_START_TAG DESCRIPTION_END_TAG
      = strip clean_message.
Proof.
  intros body description clean_message no_fault Hs He Hm.
  destruct (new_description_read_back description clean_message Hs He Hm)
    as [Hdescription Hregion].
  eexists _, _. split; [| split; [| split; [exact Hdescription | exact Hregion]]].
  - unfold update_description, try_except.
    rewrite (bind_returned _ _ _ _ _ (request_read env no_fault _ _ _)).
    unfold _request, serve_patch_pull_body. rewrite no_fault.
    unfold log, set_github, evolve, extend. cbn.
    rewrite <- app_assoc. reflexivity.
  - reflexivity.
Qed.

Lemma contains_before (tag a b : string) :
  contains tag a = true → contains tag (a ++ b) = true.
Proof.
  intros H. destruct (contains tag (a ++ b)) eqn:E; [done |].
  apply contains_app_l in E. congruence.
Qed.

(** X3.  The ledger is stored by the upsert.  When no request fails,
    comment ids are fresh, at most one comment carries the summary tag,
    the commit id is empty or one clean line, no id of the ledger
    contains its closing tag, and the summary, the release notes and the
    raw and short summaries do not contain its opening tag, the upsert
    of the summary comment built around the block of
    [add_reviewed_commit_id] is answered, the next
    [find_issue_comment_with_tag] returns the comment written, and the
    ledger that the next cycle reads from GitHub is the one written. *)
Theorem upsert_summary_stores_ledger (env : Env) (w : World) (summary : string)
    (release_notes : list string)
    (raw_summary short_summary existing_block commit_id : string) :
  let ledger := ledger_after_add existing_block commit_id in
  let summary_body :=
    _build_summary_comment summary release_notes raw_summary short_summary
      (add_reviewed_commit_id existing_block commit_id) in
  (∀ n, fault env n = false) →
  ids_fresh (w_github w) →
  (length (tagged SUMMARIZE_TAG (w_github w)) ≤ 1)%nat →
  commit_id = "" ∨ clean_id commit_id →
  Forall (λ id, contains COMMIT_ID_END_TAG id = false) ledger →
  contains COMMIT_ID_START_TAG summary = false →
  Forall (λ n, contains COMMIT_ID_START_TAG n = false) release_notes →
  contains COMMIT_ID_START_TAG raw_summary = false →
  contains COMMIT_ID_START_TAG short_summary = false →
  ∃ c w',
    upsert_issue_comment_by_tag env summary_body SUMMARIZE_TAG w = (Returned c, w')
    ∧ find_issue_comment_with_tag env SUMMARIZE_TAG w'
      = (Returned (Some c), extend [Request ListIssueComments true] w')
    ∧ ic_body c = Some summary_body
    ∧ reviewed_ids_of (w_github w') = ledger.
Proof.
  intros ledger summary_body no_fault Hfresh Hone Hid Hend Hs Hn Hr Hsh.
  assert (Htag : contains SUMMARIZE_TAG summary_body = true).
  { subst summary_body. unfold add_reviewed_commit_id.
    destruct (summary_comment_wrapped summary release_notes raw_summary short_summary
                (join NL (ledger_after_add existing_block commit_id)))
      as (head & -> & _ & Hhead).
    by apply contains_before. }
  destruct (upsert_first env SUMMARIZE_TAG summary_body w no_fault Htag Hfresh Hone)
    as (c & w' & Hrun & Hbody & Htagged & _).
  exists c, w'. split; [exact Hrun |].
  apply filter_singleton_find in Htagged.
  split; [| split; [exact Hbody |]].
  - by rewrite find_issue_comment_with_tag_run, Htagged.
  - unfold reviewed_ids_of. rewrite Htagged, Hbody. cbn [default from_option id].
    subst summary_body. rewrite summary_comment_block by done.
    apply read_back_clean. by apply ledger_clean.
Qed.

Lemma upsert_summary_stores_ledger_witness :
  let w := Samples.world_of Samples.gh_reviewed in
  let summary_body :=
    _build_summary_comment "Bounds the retry loop." ["Retries stop after five tries"]
      "retry.py: bounded" "Bounded retries."
      (add_reviewed_commit_id ("c3" ++ NL ++ "c4") "c5") in
  ledger_after_add ("c3" ++ NL ++ "c4") "c5" = ["c3"; "c4"; "c5"]
  ∧ ∃ c w',
      upsert_issue_comment_by_tag Samples.env0 summary_body SUMMARIZE_TAG w
      = (Returned c, w')
      ∧ find_issue_comment_with_tag Samples.env0 SUMMARIZE_TAG w'
        = (Returned (Some c), extend [Request ListIssueComments true] w')
      ∧ ic_body c = Some summary_body
      ∧ reviewed_ids_of (w_github w') = ["c3"; "c4"; "c5"].
Proof.
  intros w summary_body. split; [reflexivity |].
  refine (upsert_summary_stores_ledger Samples.env0 w "Bounds the retry loop."
            ["Retries stop after five tries"] "retry.py: bounded" "Bounded retries."
            ("c3" ++ NL ++ "c4") "c5" _ _ _ _ _ _ _ _ _).
  - reflexivity.
  - split; [apply NoDup_singleton | repeat constructor].
  - vm_compute. lia.
  - right. split; [reflexivity | split; [discriminate | reflexivity]].
  - repeat constructor.
  - reflexivity.
  - repeat constructor.
  - reflexivity.
  - reflexivity.
Defined.

Lemma update_description_replaces_region_witness :
  let w := Samples.world_of Samples.gh_plain in
  ∃ new_body g,
    update_description Samples.env0 "- Retries stop after five tries" w
    = (Returned tt,
       evolve g [Request GetPull true; Request (PatchPullBody new_body) true] w)
    ∧ pr_body (gh_pull g) = Some new_body
    ∧ get_description new_body = "Stops after five tries."
    ∧ get_content_within_tags new_body DESCRIPTION_START_TAG DESCRIPTION_END_TAG
      = "- Retries stop after five tries".
Proof.
  intros w.
  exact (update_description_replaces_region Samples.env0
           "- Retries stop after five tries" w
           (λ _, eq_refl) eq_refl eq_refl eq_refl).
Defined.

Import Effects.

(** ** What a review cycle never does *)

Lemma observes_ret {A} (P : event → bool) (a : A) : observes P (ret a).
Proof. intros w. exists (Returned a), []. by rewrite extend_nil. Qed.

Lemma observes_raise {A} (P : event → bool) (e : exn) : observes P (@raise A e).
Proof. intros w. exists (Raised e), []. by rewrite extend_nil. Qed.

Lemma observes_bind {A B} (P : event → bool) (m : M A) (k : A → M B) :
  observes P m → (∀ a, observes P (k a)) → observes P (bind m k).
Proof.
  intros Hm Hk w. destruct (Hm w) as ([a | e] & evs & Hrun & Hevs);
    unfold bind; rewrite Hrun.
  - destruct (Hk a (extend evs w)) as (r & evs' & Hrun' & Hevs').
    rewrite Hrun', extend_extend. eexists _, _. split; [done |].
    by rewrite forallb_app, Hevs, Hevs'.
  - by eexists _, _.
Qed.

Lemma observes_try_except {A} (P : event → bool) (m : M A) (h : exn → M A) :
  observes P m → (∀ e, observes P (h e)) → observes P (try_except m h).
Proof.
  intros Hm Hh w. destruct (Hm w) as ([a | e] & evs & Hrun & Hevs);
    unfold try_except; rewrite Hrun.
  - by eexists _, _.
  - destruct (Hh e (extend evs w)) as (r & evs' & Hrun' & Hevs').
    rewrite Hrun', extend_extend. eexists _, _. split; [done |].
    by rewrite forallb_app, Hevs, Hevs'.
Qed.

Lemma observes_request {A} (P : event → bool) (env : Env) (r : request)
    (f : GitHub → A) :
  P (Request r true) = true → P (Request r false) = true →
  observes P (_request env r (serve_read f)).
Proof.
  intros Hok Hko w. unfold _request, serve_read. destruct (fault env _).
  - eexists _, [_]. split; [done |]. simpl. by rewrite Hko.
  - rewrite set_github_same. eexists _, [_]. split; [done |]. simpl. by rewrite Hok.
Qed.

Lemma observes_if {A} (P : event → bool) (b : bool) (m1 m2 : M A) :
  observes P m1 → observes P m2 → observes P (if b then m1 else m2).
Proof. by destruct b. Qed.

Section Observes.
Context (cfg : Config) (env : Env) (P : event → bool).

(** The steps of [review_pr] that only invoke models. *)
Section Invocations.
Hypothesis P_invoke : ∀ t site prompt, P (Invoke t site prompt) = true.

Lemma observes_invoke (t : tier) (site : llm_site) (prompt : string) :
  observes P (invoke env t site prompt).
Proof.
  intros w. unfold invoke.
  destruct (llm env t _ prompt); eexists _, [_]; (split; [done |]);
    simpl; by rewrite P_invoke.
Qed.

Lemma observes_summarize_files (pr : PullRequest) (files : list FileChange)
    (summaries : list (string * string * string)) :
  observes P (summarize_files cfg env pr files summaries).
Proof.
  revert summaries. induction files as [| file rest IH]; intros summaries;
    cbn [summarize_files]; [apply observes_ret |].
  apply observes_if; [apply IH |]. apply observes_if; [apply IH |].
  apply observes_bind.
  - apply observes_bind; [apply observes_invoke | intros content].
    destruct (decode_file_summary env content);
      [apply observes_ret | apply observes_raise].
  - intros st. apply observes_if; [apply observes_ret | apply IH].
Qed.

Lemma observes_run_summary (raw : string) : observes P (_run_summary cfg env raw).
Proof.
  unfold _run_summary.
  repeat (apply observes_bind; [apply observes_invoke | intros ?]). apply observes_ret.
Qed.

Lemma observes_run_file_review (path patch short : string) :
  observes P (_run_file_review cfg env path patch short).
Proof.
  unfold _run_file_review. apply observes_if; [apply observes_ret |].
  apply observes_bind; [apply observes_invoke | intros; apply observes_ret].
Qed.

Lemma observes_review_files (files : list FileChange)
    (summaries : list (string * string * string)) (simple_reason short : string)
    (acc : list ReviewItem) :
  observes P (review_files cfg env files summaries simple_reason short acc).
Proof.
  revert acc. induction files as [| file rest IH]; intros acc;
    cbn [review_files]; [apply observes_ret |].
  repeat (apply observes_if; [apply IH |]).
  apply observes_bind; [apply observes_run_file_review | intros; apply IH].
Qed.

Lemma observes_review_compared (pr : PullRequest) (files : list FileChange) :
  observes P (review_compared cfg env pr files).
Proof.
  unfold review_compared. destruct files as [| file rest]; [apply observes_ret |].
  destruct (_should_skip_review cfg (file :: rest)) as [skipped reason].
  apply observes_bind; [apply observes_summarize_files | intros summaries].
  apply observes_bind; [apply observes_run_summary | intros [[summary notes] short]].
  apply observes_if; [apply observes_ret |].
  apply observes_bind; [apply observes_review_files | intros; apply observes_ret].
Qed.

End Invocations.

(** The steps of [review_pr] that read the pull request before the
    comparison. *)
Section Fetches.
Hypothesis P_pull : ∀ ok, P (Request GetPull ok) = true.
Hypothesis P_comments : ∀ ok, P (Request ListIssueComments ok) = true.
Hypothesis P_commits : ∀ page ok, P (Request (ListCommits page) ok) = true.

Lemma observes_get_pr_details : observes P (get_pr_details env).
Proof.
  apply observes_try_except; [| intros; apply observes_ret].
  apply observes_bind; [by apply observes_request | intros; apply observes_ret].
Qed.

Lemma observes_find_issue_comment_with_tag (tag : string) :
  observes P (find_issue_comment_with_tag env tag).
Proof.
  apply observes_bind; [by apply observes_request | intros; apply observes_ret].
Qed.

Lemma observes_get_all_commit_ids : observes P (get_all_commit_ids env).
Proof.
  assert (H : ∀ remaining page commits,
             observes P (get_all_commit_ids_from env remaining page commits)).
  { induction remaining as [| data rest IH]; intros page commits;
      cbn [get_all_commit_ids_from].
    - apply observes_bind; [by apply observes_request | intros; apply observes_ret].
    - apply observes_bind; [by apply observes_request |].
      intros [| c d]; [apply observes_ret | apply IH]. }
  intros w. apply H.
Qed.

End Fetches.

End Observes.

Lemma observes_compare_branches (env : Env) (base head : option string) :
  observes is_query (compare_branches env base head).
Proof.
  apply observes_try_except; [| intros; apply observes_ret].
  apply observes_bind; [by apply observes_request | intros; apply observes_ret].
Qed.

Lemma observes_review_pr (cfg : Config) (env : Env) :
  observes is_query (review_pr cfg env).
Proof.
  unfold review_pr. apply observes_bind; [by apply observes_get_pr_details |].
  intros [pr |]; [| apply observes_ret].
  apply observes_if; [apply observes_ret |].
  apply observes_bind; [by apply observes_find_issue_comment_with_tag | intros existing].
  apply observes_bind;
    [apply observes_if; [by apply observes_get_all_commit_ids | apply observes_ret] |].
  intros commits. apply observes_bind; [apply observes_compare_branches |].
  intros [compare |]; [by apply observes_review_compared | apply observes_ret].
Qed.

Lemma query_not_publish (evs : list event) :
  forallb is_query evs = true →
  forallb (λ e, negb (is_publish_call e)) evs = true.
Proof.
  intros H. apply forallb_forall. intros e He.
  eapply forallb_forall in H; [| exact He]. by destruct e as [[] ?|].
Qed.

(** X4.  Whatever fails, [review_pr] only reads: GitHub and the
    buffer of pending comments are as before, and every call logged is a
    read of the pull request, its comments, its commits or a comparison,
    or an invocation of a model; none is a publish call. *)
Theorem review_pr_only_reads (cfg : Config) (env : Env) (w : World) :
  ∃ r evs,
    review_pr cfg env w = (r, extend evs w)
    ∧ forallb is_query evs = true
    ∧ forallb (λ e, negb (is_publish_call e)) evs = true.
Proof.
  destruct (observes_review_pr cfg env w) as (r & evs & Hrun & Hevs).
  exists r, evs. split; [done |]. split; [done | by apply query_not_publish].
Qed.

Lemma post_review_returns_review (cfg : Config) (env : Env) (w : World) :
  has_token cfg = false
  ∨ (∀ result w', review_pr cfg env w = (Returned result, w') → skipped result = true) →
  post_review cfg env w = review_pr cfg env w.
Proof.
  intros H. unfold post_review, bind.
  destruct (review_pr cfg env w) as [[result | e] w'] eqn:Hrun; [| done].
  destruct (skipped result) eqn:Hskipped; [done |].
  destruct H as [-> | H]; [done |]. specialize (H result w' eq_refl). congruence.
Qed.

(** X5.  Without a GitHub token, [post_review] is [review_pr]: the
    same outcome, the same calls, GitHub and the buffer untouched and no
    publish call, whatever the review found. *)
Theorem post_review_without_token_only_reads (cfg : Config) (env : Env) (w : World) :
  has_token cfg = false →
  ∃ r evs,
    post_review cfg env w = (r, extend evs w)
    ∧ review_pr cfg env w = (r, extend evs w)
    ∧ forallb (λ e, negb (is_publish_call e)) evs = true.
Proof.
  intros Htoken. rewrite post_review_returns_review by by left.
  destruct (observes_review_pr cfg env w) as (r & evs & Hrun & Hevs).
  exists r, evs. split; [done |]. split; [done | by apply query_not_publish].
Qed.

(** ** Early exits of the review cycle *)

Lemma review_pr_ignored (cfg : Config) (env : Env) (w : World) :
  fault env (length (w_trace w)) = false →
  ignored cfg (w_github w) = true →
  review_pr cfg env w
  = (Returned (skip_result "" "ignored by keyword"), extend [Request GetPull true] w).
Proof.
  intros Hfault Hignored.
  unfold review_pr, get_pr_details, try_except, bind, _request, serve_read.
  rewrite Hfault. cbn [ret]. rewrite set_github_same.
  unfold ignored in Hignored. cbn [log w_github]. by rewrite Hignored.
Qed.

(** X6.  When the description of the pull request contains the ignore
    keyword, [review_pr] and [post_review] return the skipped result
    "ignored by keyword", with an empty commit id, after the one request
    that fetched the pull request. *)
Theorem ignore_keyword_skips (cfg : Config) (env : Env) (w : World) :
  let result := skip_result "" "ignored by keyword" in
  fault env (length (w_trace w)) = false →
  ignored cfg (w_github w) = true →
  review_pr cfg env w = (Returned result, extend [Request GetPull true] w)
  ∧ post_review cfg env w = (Returned result, extend [Request GetPull true] w).
Proof.
  intros result Hfault Hignored.
  pose proof (review_pr_ignored cfg env w Hfault Hignored) as Hrun.
  split; [exact Hrun |]. unfold post_review. by rewrite (bind_returned _ _ _ _ _ Hrun).
Qed.

(** X7.  When the request for the pull request fails, [review_pr] and
    [post_review] return the skipped result "failed to fetch PR details"
    and make no other call: the error is caught by [get_pr_details]. *)
Theorem pull_request_fetch_failure_skips (cfg : Config) (env : Env) (w : World) :
  let result := skip_result "" "failed to fetch PR details" in
  fault env (length (w_trace w)) = true →
  review_pr cfg env w = (Returned result, extend [Request GetPull false] w)
  ∧ post_review cfg env w = (Returned result, extend [Request GetPull false] w).
Proof.
  intros result Hfault.
  assert (Hrun : review_pr cfg env w
                 = (Returned result, extend [Request GetPull false] w)).
  { unfold review_pr, get_pr_details, try_except, bind, _request.
    by rewrite Hfault. }
  split; [exact Hrun |]. unfold post_review. by rewrite (bind_returned _ _ _ _ _ Hrun).
Qed.

Lemma get_pr_details_cases (env : Env) (w : World) :
  ∃ pr ok,
    get_pr_details env w = (Returned pr, extend [Request GetPull ok] w)
    ∧ (pr = None ∨ pr = Some (gh_pull (w_github w))).
Proof.
  unfold get_pr_details, try_except, bind, _request, serve_read.
  destruct (fault env _).
  - exists None, false. split; [done | by left].
  - exists (Some (gh_pull (w_github w))), true. rewrite set_github_same.
    split; [done | by right].
Qed.

Lemma none_failed (evs : list event) :
  forallb (λ e, negb (is_failed_compare e)) evs = true →
  existsb is_failed_compare evs = false.
Proof.
  induction evs as [| e evs IH]; [done |]. cbn [forallb existsb].
  intros [He Hevs]%andb_true_iff. apply negb_true_iff in He. by rewrite He, IH.
Qed.

Lemma calm_fetch_weaken (evs : list event) :
  forallb (λ e, negb (is_failed_compare e) && negb (is_llm_call e)) evs = true →
  forallb (λ e, negb (is_failed_compare e)) evs = true
  ∧ forallb (λ e, negb (is_llm_call e)) evs = true.
Proof.
  induction evs as [| e evs IH]; [done |]. cbn [forallb].
  intros [[H1 H2]%andb_true_iff Hevs]%andb_true_iff.
  destruct (IH Hevs) as [IH1 IH2]. by rewrite H1, H2, IH1, IH2.
Qed.

(** X8.  Whenever the comparison request of a run of [review_pr] is
    not answered, the run returns the skipped result "failed to compare
    commits" with the head commit id, no model has been invoked, and
    [post_review] returns the same result after the same calls: the
    error is caught by [compare_branches]. *)
Theorem compare_failure_skips (cfg : Config) (env : Env) (w : World)
    (r : outcome ReviewResult) (evs : list event) :
  review_pr cfg env w = (r, extend evs w) →
  existsb is_failed_compare evs = true →
  r = Returned (skip_result (default "" (pr_head_sha (gh_pull (w_github w))))
                  "failed to compare commits")
  ∧ forallb (λ e, negb (is_llm_call e)) evs = true
  ∧ post_review cfg env w = (r, extend evs w).
Proof.
  set (P1 := λ e, negb (is_failed_compare e) && negb (is_llm_call e)).
  set (Q := λ e, negb (is_failed_compare e)).
  intros Hrun Hfailed.
  assert (Hgoal :
    r = Returned (skip_result (default "" (pr_head_sha (gh_pull (w_github w))))
                    "failed to compare commits")
    ∧ forallb (λ e, negb (is_llm_call e)) evs = true).
  { unfold review_pr in Hrun.
    destruct (get_pr_details_cases env w) as (pr & ok & Hdetails & Hpr).
    rewrite (bind_returned _ _ _ _ _ Hdetails) in Hrun.
    destruct Hpr as [-> | ->].
    { cbn [ret] in Hrun. injection Hrun as _ Hevs. apply app_inv_head in Hevs.
      subst evs. by destruct ok. }
    destruct (truthy (ignore_keyword cfg) && _).
    { cbn [ret] in Hrun. injection Hrun as _ Hevs. apply app_inv_head in Hevs.
      subst evs. by destruct ok. }
    destruct (observes_find_issue_comment_with_tag env P1 (λ _, eq_refl) SUMMARIZE_TAG
                (extend [Request GetPull ok] w)) as (r2 & evs2 & Hfind & Hevs2).
    unfold bind at 1 in Hrun. rewrite Hfind, extend_extend in Hrun.
    apply calm_fetch_weaken in Hevs2 as [Hq2 Hl2].
    destruct r2 as [existing | e].
    2: { injection Hrun as _ Hevs. apply app_inv_head in Hevs. subst evs.
         cbn [app existsb] in Hfailed. rewrite (none_failed _ Hq2) in Hfailed.
         by destruct ok. }
    assert (Hcommits : observes P1 (if has_token cfg then get_all_commit_ids env
                                    else ret [])).
    { apply observes_if; [| apply observes_ret].
      by apply observes_get_all_commit_ids. }
    destruct (Hcommits (extend ([Request GetPull ok] ++ evs2) w))
      as (r3 & evs3 & Hlist & Hevs3).
    unfold bind at 1 in Hrun. rewrite Hlist, extend_extend in Hrun.
    apply calm_fetch_weaken in Hevs3 as [Hq3 Hl3].
    destruct r3 as [commits | e].
    2: { injection Hrun as _ Hevs. apply app_inv_head in Hevs. subst evs.
         cbn [app existsb] in Hfailed.
         rewrite existsb_app, (none_failed _ Hq2), (none_failed _ Hq3) in Hfailed.
         by destruct ok. }
    unfold bind at 1, compare_branches, try_except, bind at 1, _request, serve_read
      in Hrun.
    destruct (fault env _).
    - cbn [ret] in Hrun. injection Hrun as <- Hevs. cbn [extend w_github].
      split; [done |]. cbn [log extend w_trace] in Hevs.
      rewrite <- app_assoc in Hevs. apply app_inv_head in Hevs. subst evs.
      cbn [app forallb]. rewrite !forallb_app, Hl2, Hl3. by destruct ok.
    - cbn [ret] in Hrun. rewrite set_github_same, log_extend, extend_extend in Hrun.
      cbn [extend w_github] in Hrun.
      match type of Hrun with
      | review_compared _ _ ?pr ?files ?w0 = _ =>
          destruct (observes_review_compared cfg env Q (λ _ _ _, eq_refl) pr files w0)
            as (r4 & evs4 & Hcompared & Hevs4)
      end.
      rewrite Hcompared, extend_extend in Hrun. injection Hrun as _ Hevs.
      apply app_inv_head in Hevs. subst evs.
      cbn [app existsb] in Hfailed.
      rewrite !existsb_app, (none_failed _ Hq2), (none_failed _ Hq3),
        (none_failed _ Hevs4) in Hfailed.
      by destruct ok. }
  destruct Hgoal as [-> Hcalls]. split; [done |]. split; [done |].
  unfold post_review. by rewrite (bind_returned _ _ _ _ _ Hrun).
Qed.

Lemma compare_failure_skips_witness :
  let w := Samples.world_of Samples.gh_large in
  let env := Samples.env_failing 4 in
  let evs := [Request GetPull true; Request ListIssueComments true;
              Request (ListCommits 1) true; Request (ListCommits 2) true;
              Request (GetCompare (Some "b0") (Some "c4")) false] in
  review_pr Samples.cfg0 env w
  = (Returned (skip_result "c4" "failed to compare commits"), extend evs w)
  ∧ existsb is_failed_compare evs = true
  ∧ forallb (λ e, negb (is_llm_call e)) evs = true
  ∧ post_review Samples.cfg0 env w
    = (Returned (skip_result "c4" "failed to compare commits"), extend evs w).
Proof.
  intros w env evs.
  assert (Hrun : review_pr Samples.cfg0 env w
                 = (Returned (skip_result "c4" "failed to compare commits"),
                    extend evs w)) by (vm_compute; reflexivity).
  split; [exact Hrun |]. split; [reflexivity |].
  exact (proj2 (compare_failure_skips Samples.cfg0 env w _ evs Hrun eq_refl)).
Defined.

(** ** Documentation-only changes *)




Lemma post_review_without_token_only_reads_witness :
  let cfg := Cases.without_token Samples.cfg0 in
  let w := Samples.world_of Samples.gh_large in
  has_token cfg = false
  ∧ ∃ r evs,
      post_review cfg Samples.env0 w = (r, extend evs w)
      ∧ review_pr cfg Samples.env0 w = (r, extend evs w)
      ∧ forallb (λ e, negb (is_publish_call e)) evs = true.
Proof.
  intros cfg w. split; [reflexivity |].
  exact (post_review_without_token_only_reads cfg Samples.env0 w eq_refl).
Defined.

Lemma ignore_keyword_skips_witness :
  let w := Samples.world_of Cases.gh_ignored in
  let result := skip_result "" "ignored by keyword" in
  fault Samples.env0 (length (w_trace w)) = false
  ∧ ignored Samples.cfg0 (w_github w) = true
  ∧ review_pr Samples.cfg0 Samples.env0 w
    = (Returned result, extend [Request GetPull true] w)
  ∧ post_review Samples.cfg0 Samples.env0 w
    = (Returned result, extend [Request GetPull true] w).
Proof.
  intros w result. split; [reflexivity |]. split; [reflexivity |].
  exact (ignore_keyword_skips Samples.cfg0 Samples.env0 w eq_refl eq_refl).
Defined.

Lemma pull_request_fetch_failure_skips_witness :
  let w := Samples.world_of Samples.gh_large in
  let env := Samples.env_failing 0 in
  let result := skip_result "" "failed to fetch PR details" in
  fault env (length (w_trace w)) = true
  ∧ review_pr Samples.cfg0 env w = (Returned result, extend [Request GetPull false] w)
  ∧ post_review Samples.cfg0 env w = (Returned result, extend [Request GetPull false] w).
Proof.
  intros w env result. split; [reflexivity |].
  exact (pull_request_fetch_failure_skips Samples.cfg0 env w eq_refl).
Defined.


(** ** The limit on summarised files *)

Lemma summarize_files_bounded (cfg : Config) (env : Env) (pr : PullRequest)
    (files : list FileChange) (summaries : list (string * string * string)) (w : World) :
  Z.of_nat (length summaries) < max_files cfg →
  ∃ r evs,
    summarize_files cfg env pr files summaries w = (r, extend evs w)
    ∧ forallb is_file_summary_call evs = true
    ∧ Z.of_nat (length summaries) + Z.of_nat (length evs) <= max_files cfg
    ∧ (∀ out, r = Returned out → Z.of_nat (length out) <= max_files cfg).
Proof.
  revert summaries w. induction files as [| file rest IH]; intros summaries w Hlt.
  - exists (Returned summaries), []. rewrite extend_nil. repeat split; simpl; try lia.
    intros out [= <-]. lia.
  - cbn [summarize_files].
    destruct (negb (truthy (default "" (fc_filename file)))
              || negb (truthy (default "" (fc_patch file)))); [by apply IH |].
    destruct (bool_decide _); [by apply IH |].
    unfold _run_file_summary, bind at 1 2, invoke.
    destruct (llm env Light _ _) as [content |].
    2: { eexists _, [_]. split; [reflexivity |]. repeat split; simpl; try lia.
         intros out [=]. }
    destruct (decode_file_summary env content) as [st |].
    + cbn [ret]. rewrite length_app. cbn [length].
      assert (Hpos : (0 <? max_files cfg) = true) by (apply Z.ltb_lt; lia).
      rewrite Hpos. cbn [andb].
      destruct (Z.leb_spec (max_files cfg)
                  (Z.of_nat (length summaries + 1))) as [Hfull | Hroom].
      * eexists _, [_]. split; [reflexivity |]. repeat split; simpl; try lia.
        intros out [= <-]. rewrite length_app. simpl. lia.
      * match goal with
        | |- context [summarize_files cfg env pr rest ?s ?w'] =>
            destruct (IH s w') as (r & evs & Hrun & Hevs & Hlen & Hout)
        end.
        { rewrite length_app. simpl. lia. }
        rewrite Hrun. rewrite log_extend, extend_extend.
        eexists r, (_ :: evs). split; [reflexivity |].
        rewrite length_app in Hlen. simpl in Hlen. repeat split; simpl; try lia; done.
    + cbn [raise]. eexists _, [_]. split; [reflexivity |].
      repeat split; simpl; try lia. intros out [=].
Qed.

(** X10.  With [REVIEW_MAX_FILES] positive, the first loop of
    [review_pr] makes at most that many file-summary invocations and
    returns at most that many summaries, whatever the models answer. *)
Theorem summarize_files_respects_max_files (cfg : Config) (env : Env)
    (pr : PullRequest) (files : list FileChange) (w : World) :
  0 < max_files cfg →
  ∃ r evs,
    summarize_files cfg env pr files [] w = (r, extend evs w)
    ∧ forallb is_file_summary_call evs = true
    ∧ Z.of_nat (length evs) <= max_files cfg
    ∧ (∀ out, r = Returned out → Z.of_nat (length out) <= max_files cfg).
Proof.
  intros Hpos.
  destruct (summarize_files_bounded cfg env pr files [] w Hpos)
    as (r & evs & Hrun & Hevs & Hlen & Hout).
  exists r, evs. simpl in Hlen. by repeat split.
Qed.

Lemma summarize_files_respects_max_files_witness :
  let cfg := Cases.with_max_files 1 Samples.cfg0 in
  let files := [Samples.small_file; Samples.large_file] in
  let w := Samples.world_of Samples.gh_small in
  0 < max_files cfg
  ∧ ∃ r evs,
      summarize_files cfg Samples.env0 Samples.pull0 files [] w = (r, extend evs w)
      ∧ forallb is_file_summary_call evs = true
      ∧ Z.of_nat (length evs) <= 1
      ∧ (∀ out, r = Returned out → Z.of_nat (length out) <= 1).
Proof.
  intros cfg files w. split; [reflexivity |].
  exact (summarize_files_respects_max_files cfg Samples.env0 Samples.pull0 files w
           eq_refl).
Defined.

(** ** Best-effort publishing *)

Lemma steps_try_except_steps {A} (P : event → bool) (m : M A) (h : exn → M A) :
  quiet P m → (∀ e, steps P (h e)) → steps P (try_except m h).
Proof.
  intros Hm Hh w. destruct (Hm w) as ([x | e] & g & evs & Hrun & Hevs);
    unfold try_except; rewrite Hrun.
  - by eexists _, _, _.
  - destruct (Hh e (evolve g evs w)) as (a & g' & evs' & Hrun' & Hevs').
    rewrite Hrun', evolve_evolve. eexists _, _, _. split; [done |].
    by rewrite forallb_app, Hevs, Hevs'.
Qed.

Lemma quiet_steps {A} (P : event → bool) (m : M A) : steps P m → quiet P m.
Proof. intros H w. destruct (H w) as (a & g & evs & Hrun & Hevs). by eexists _, _, _. Qed.

Lemma steps_get_buffer (P : event → bool) : steps P get_buffer.
Proof. intros w. exists (w_buffer w), (w_github w), []. by rewrite evolve_nil. Qed.

Lemma submit_review_steps (cfg : Config) (env : Env) (commit_id status_msg : string)
    (w : World) :
  ∃ g evs,
    submit_review cfg env commit_id status_msg w
    = (Returned tt, set_buffer [] (evolve g evs w)).
Proof.
  unfold submit_review.
  rewrite (bind_returned _ _ _ _ _ (eq_refl : get_buffer w = (Returned (w_buffer w), w))).
  unfold try_finally.
  match goal with
  | |- context [try_except ?m ?h w] =>
      assert (Hsteps : steps (λ _, true) (try_except m h))
  end.
  { apply steps_try_except_steps.
    - apply quiet_bind; [by apply quiet_request | intros existing].
      apply quiet_bind.
      + apply quiet_steps, steps_for_each. intros e.
        destruct (contains _ _); [| apply steps_ret].
        apply steps_try_except. by apply quiet_request.
      + intros _. apply quiet_bind.
        * apply quiet_steps. intros w0.
          destruct (steps_delete_pending_review env w0) as (a & g & evs & Hrun & _).
          exists a, g, evs. split; [done |]. by apply forallb_forall.
        * intros _. by apply quiet_request.
    - intros _. apply steps_bind; [apply steps_get_buffer | intros pending].
      apply steps_for_each. intros c. apply steps_try_except.
      apply quiet_bind; [by apply quiet_request | intros; apply quiet_ret]. }
  destruct (Hsteps w) as ([] & g & evs & Hrun & _). rewrite Hrun. cbn [put_buffer].
  by exists g, evs.
Qed.

(** X11.  The best-effort steps of publishing never raise, whichever
    requests fail: [update_description], [delete_pending_review] and
    [submit_review] return, and [submit_review] leaves the buffer of
    pending comments empty. *)
Theorem publishing_steps_never_raise (cfg : Config) (env : Env)
    (message commit_id status_msg : string) (w : World) :
  (∃ g evs, update_description env message w = (Returned tt, evolve g evs w))
  ∧ (∃ g evs, delete_pending_review env w = (Returned tt, evolve g evs w))
  ∧ (∃ g evs,
       submit_review cfg env commit_id status_msg w
       = (Returned tt, set_buffer [] (evolve g evs w))).
Proof.
  split; [| split].
  - destruct (steps_update_description env message w) as ([] & g & evs & Hrun & _).
    by exists g, evs.
  - destruct (steps_delete_pending_review env w) as ([] & g & evs & Hrun & _).
    by exists g, evs.
  - apply submit_review_steps.
Qed.

(** The loop that [submit_review] falls back to: one attempt to post
    each buffered comment on its own, at its last line. *)
Lemma fallback_run (env : Env) (commit_id : string) (pending : list Buffered)
    (w : World) :
  ∃ g evs,
    for_each pending
      (λ c, try_except
              (create_review_comment env (bf_message c) commit_id (bf_path c)
                 (bf_end_line c) ;;; ret tt)
              (λ _, ret tt)) w
    = (Returned tt, evolve g evs w)
    ∧ map request_of evs
      = map (λ c, Some (PostReviewComment (bf_message c) commit_id (bf_path c)
                          (bf_end_line c))) pending.
Proof.
  revert w. induction pending as [| c rest IH]; intros w; cbn [for_each].
  - exists (w_github w), []. by rewrite evolve_nil.
  - assert (Hone : ∃ g ok,
               try_except
                 (create_review_comment env (bf_message c) commit_id (bf_path c)
                    (bf_end_line c) ;;; ret tt)
                 (λ _, ret tt) w
               = (Returned tt,
                  evolve g [Request (PostReviewComment (bf_message c) commit_id
                                       (bf_path c) (bf_end_line c)) ok] w)).
    { unfold try_except, bind, create_review_comment, _request,
        serve_post_review_comment.
      destruct (fault env _); [by exists (w_github w), false |]. by eexists _, true. }
    destruct Hone as (g1 & ok & Hone). rewrite (bind_returned _ _ _ _ _ Hone).
    destruct (IH (evolve g1 [Request (PostReviewComment (bf_message c) commit_id
                                        (bf_path c) (bf_end_line c)) ok] w))
      as (g & evs & Hrun & Hevs).
    rewrite Hrun, evolve_evolve. eexists g, (_ :: evs). split; [reflexivity |].
    cbn [map request_of]. by rewrite Hevs.
Qed.

(** X12.  When the listing of the review comments fails,
    [submit_review] falls back to one attempt per buffered comment, in
    buffer order, each a single comment on the last line of its range,
    and still returns with the buffer emptied. *)
Theorem submit_review_falls_back (cfg : Config) (env : Env)
    (commit_id status_msg : string) (w : World) :
  fault env (length (w_trace w)) = true →
  ∃ g evs,
    submit_review cfg env commit_id status_msg w
    = (Returned tt,
       set_buffer [] (evolve g (Request ListReviewComments false :: evs) w))
    ∧ map request_of evs
      = map (λ c, Some (PostReviewComment (bf_message c) commit_id (bf_path c)
                          (bf_end_line c))) (w_buffer w).
Proof.
  intros Hfault. unfold submit_review.
  rewrite (bind_returned _ _ _ _ _ (eq_refl : get_buffer w = (Returned (w_buffer w), w))).
  unfold try_finally, try_except at 1.
  assert (Hlist : list_review_comments env w
                  = (Raised (HTTPError ListReviewComments),
                     evolve (w_github w) [Request ListReviewComments false] w)).
  { unfold list_review_comments, _request. by rewrite Hfault. }
  rewrite (bind_raised _ _ _ _ _ Hlist).
  rewrite (bind_returned _ _ _ _ _
             (eq_refl : get_buffer (evolve (w_github w) [Request ListReviewComments false] w)
                        = (Returned (w_buffer w), _))).
  destruct (fallback_run env commit_id (w_buffer w)
              (evolve (w_github w) [Request ListReviewComments false] w))
    as (g & evs & Hrun & Hevs).
  rewrite Hrun, evolve_evolve. cbn [put_buffer]. by exists g, evs.
Qed.

Lemma submit_review_falls_back_witness :
  let buffered := {| bf_path := "retry.py"; bf_start_line := 2; bf_end_line := 5;
                     bf_message := "Bound the loop." |} in
  let w := {| w_github := Samples.gh_large; w_buffer := [buffered]; w_trace := [] |} in
  let env := Samples.env_failing 0 in
  fault env (length (w_trace w)) = true
  ∧ ∃ g evs,
      submit_review Samples.cfg0 env "c4" "Review completed" w
      = (Returned tt,
         set_buffer [] (evolve g (Request ListReviewComments false :: evs) w))
      ∧ map request_of evs
        = [Some (PostReviewComment "Bound the loop." "c4" "retry.py" 5)].
Proof.
  intros buffered w env. split; [reflexivity |].
  exact (submit_review_falls_back Samples.cfg0 env "c4" "Review completed" w eq_refl).
Defined.

(** ** Paging through the commits *)

Lemma commit_pages_run (env : Env) (full rest : list (list Commit)) (page : nat)
    (commits : list string) (w : World) :
  (∀ n, fault env n = false) →
  Forall (λ data, data ≠ []) full →
  rest = [] ∨ (∃ rest', rest = [] :: rest') →
  get_all_commit_ids_from env (full ++ rest) (Z.of_nat page) commits w
  = (Returned (commits ++ concat (map shas_of full))%list,
     extend (map (λ i, Request (ListCommits (Z.of_nat i)) true)
               (seq page (S (length full)))) w).
Proof.
  intros no_fault Hfull Hrest. revert page commits w.
  induction Hfull as [| data full Hdata _ IH]; intros page commits w.
  - cbn [app map concat length seq]. rewrite app_nil_r.
    destruct Hrest as [-> | [rest' ->]]; cbn [get_all_commit_ids_from];
      by rewrite (bind_returned _ _ _ _ _ (request_read env no_fault _ _ _)).
  - cbn [app get_all_commit_ids_from].
    rewrite (bind_returned _ _ _ _ _ (request_read env no_fault _ _ _)). cbn [hd].
    destruct data as [| c data]; [done |].
    replace (Z.of_nat page + 1) with (Z.of_nat (S page)) by lia.
    rewrite IH, extend_extend. cbn [map concat length seq]. by rewrite <- app_assoc.
Qed.

(** X13.  [get_all_commit_ids] asks for the pages in order, from page
    1, until the first page that comes back empty: with [full] the pages
    before it, it makes [length full + 1] requests and returns the
    non-empty commit ids of [full], in order; pages after an empty page
    are never requested. *)
Theorem get_all_commit_ids_reads_until_empty_page (env : Env) (w : World)
    (full rest : list (list Commit)) :
  (∀ n, fault env n = false) →
  gh_commit_pages (w_github w) = (full ++ rest)%list →
  Forall (λ data, data ≠ []) full →
  rest = [] ∨ (∃ rest', rest = [] :: rest') →
  get_all_commit_ids env w
  = (Returned (concat (map shas_of full)),
     extend (map (λ i, Request (ListCommits (Z.of_nat i)) true)
               (seq 1 (S (length full)))) w).
Proof.
  intros no_fault Hpages Hfull Hrest. unfold get_all_commit_ids. rewrite Hpages.
  exact (commit_pages_run env full rest 1 [] w no_fault Hfull Hrest).
Qed.

Lemma get_all_commit_ids_reads_until_empty_page_witness :
  let page1 := [{| commit_sha := Some "c1" |}; {| commit_sha := None |}] in
  let page2 := [{| commit_sha := Some "c2" |}] in
  let page4 := [{| commit_sha := Some "c4" |}] in
  let g := {| gh_pull := Samples.pull0; gh_commit_pages := [page1; page2; []; page4];
              gh_compare := fun _ _ => {| cmp_files := None |};
              gh_issue_comments := []; gh_review_comments := []; gh_reviews := [];
              gh_next_id := 1 |} in
  let w := Samples.world_of g in
  get_all_commit_ids Samples.env0 w
  = (Returned ["c1"; "c2"],
     extend [Request (ListCommits 1) true; Request (ListCommits 2) true;
             Request (ListCommits 3) true] w).
Proof.
  intros page1 page2 page4 g w.
  refine (get_all_commit_ids_reads_until_empty_page Samples.env0 w [page1; page2]
            [[]; page4] _ eq_refl _ _).
  - reflexivity.
  - by repeat constructor.
  - right. by eexists.
Defined.

Import Reply.

(** ** Replies to review comments *)

Lemma contains_self (tag : string) : contains tag tag = true.
Proof. rewrite <- (string_app_nil_r tag) at 2. apply contains_here. Qed.

Lemma contains_at_end (tag s : string) : contains tag (s ++ tag) = true.
Proof. apply contains_after, contains_self. Qed.

Lemma tagged_comment_is_ignored (cfg : Config) (st : Settings) (o : Oracle)
    (fuel : nat) (event : CommentEvent) (comment : ReviewComment) :
  ev_comment event = Some comment →
  contains COMMENT_TAG (default "" (rc_body comment)) = true
  ∨ contains COMMENT_REPLY_TAG (default "" (rc_body comment)) = true →
  handle_review_comment_event cfg st o fuel event = ([], Finished).
Proof.
  intros Hcomment Htag. unfold handle_review_comment_event.
  destruct (negb _); [done |]. rewrite Hcomment.
  destruct Htag as [-> | ->]; [done | by rewrite orb_true_r].
Qed.

(** Closes a goal [c ∈ calls → _] when [c] differs from every call of
    the explicit list [calls]. *)
Ltac not_among :=
  let H := fresh "H" in
  intros H;
  repeat (apply elem_of_cons in H as [H | H]; [discriminate H |]);
  by apply elem_of_nil in H.

Lemma posted_reply_is_tagged (cfg : Config) (st : Settings) (o : Oracle)
    (fuel : nat) (event : CommentEvent) (body : string) (target : Z) :
  PostReply body target ∈ fst (handle_review_comment_event cfg st o fuel event) →
  contains COMMENT_REPLY_TAG body = true.
Proof.
  unfold handle_review_comment_event.
  destruct (negb _); [not_among |].
  destruct (ev_comment event) as [comment |]; [| not_among].
  destruct (_ || _); [not_among |].
  destruct (_ || _); [not_among |].
  destruct (listed o) as [comments |]; [| not_among].
  destruct (comment_chain fuel comments comment) as [[chain top_level] |]; [| not_among].
  destruct (_ && _); [not_among |].
  destruct (answer o _) as [content |]; [| not_among].
  destruct (has_token cfg); [| not_among].
  cbn [reply_review_comment fst]. intros H.
  do 2 (apply elem_of_cons in H as [H | H]; [discriminate H |]).
  apply list_elem_of_singleton in H. injection H as -> _.
  rewrite <- !string_app_assoc. apply contains_at_end.
Qed.

(** X14.  The service never answers itself.  An event for a comment
    whose body is a reply that [handle_review_comment_event] posted, on
    any run, or an inline comment that [post_review] submitted, is
    dropped before any call is made. *)
Theorem service_comments_never_trigger_replies (cfg : Config) (st : Settings)
    (o : Oracle) (fuel : nat) (event : CommentEvent) (comment : ReviewComment) :
  ev_comment event = Some comment →
  (∃ cfg0 st0 o0 fuel0 event0 target,
     PostReply (default "" (rc_body comment)) target
     ∈ fst (handle_review_comment_event cfg0 st0 o0 fuel0 event0))
  ∨ (∃ cfg0 item,
       rc_body comment = Some (pl_body (comment_data (buffered_of cfg0 item)))) →
  handle_review_comment_event cfg st o fuel event = ([], Finished).
Proof.
  intros Hcomment Horigin. apply (tagged_comment_is_ignored _ _ _ _ _ comment Hcomment).
  destruct Horigin as [(cfg0 & st0 & o0 & fuel0 & event0 & target & Hposted)
                      | (cfg0 & item & ->)].
  - right. by eapply posted_reply_is_tagged.
  - left. cbn [default from_option id comment_data pl_body buffered_of bf_message].
    rewrite <- !string_app_assoc. apply contains_at_end.
Qed.

Lemma service_comments_never_trigger_replies_witness :
  let reply := "@user The loop ends after five tries." ++ NL ++ NL ++ COMMENT_REPLY_TAG in
  handle_review_comment_event Samples.cfg0 settings0 oracle0 10 asked
  = ([ListThread;
      Chat ("reply on retry.py" ++ NL ++ "ann: why a loop here?" ++ NL
            ++ "bob: it is bounded" ++ NL ++ "user: @coderabbitai explain");
      PostReply reply 11], Finished)
  ∧ handle_review_comment_event Samples.cfg0 settings0 oracle0 10 (event_for reply)
    = ([], Finished).
Proof.
  intros reply. split; [vm_compute; reflexivity |].
  refine (service_comments_never_trigger_replies Samples.cfg0 settings0 oracle0 10
            (event_for reply) _ eq_refl _).
  left. exists Samples.cfg0, settings0, oracle0, 10%nat, asked, 11.
  vm_compute. repeat constructor.
Defined.

Lemma contains_join_part (tag part : string) (parts : list string) :
  part ∈ parts → contains tag part = true → contains tag (join NL parts) = true.
Proof.
  intros Hin Hpart. unfold join. induction parts as [| p rest IH]; [by apply elem_of_nil in Hin |].
  cbn [String.concat]. destruct rest as [| q rest].
  - apply list_elem_of_singleton in Hin. by subst.
  - apply elem_of_cons in Hin as [-> | Hin].
    + by apply contains_before.
    + do 2 apply contains_after. by apply IH.
Qed.

Lemma substring_length_le (n : nat) (s : string) :
  (String.length (String.substring 0 n s) ≤ n)%nat.
Proof.
  revert s. induction n as [| n IH]; intros s; [by destruct s |].
  destruct s as [| c s]; simpl; [lia |]. specialize (IH s). lia.
Qed.

(** X15.  A mention anywhere in the thread triggers a reply.  For a
    created comment that is not the service's own, on a thread whose
    reply links do not loop, [handle_review_comment_event] walks the
    thread and, when a comment met on the walk mentions the bot and the
    model answers, posts one reply, addressed to the author of the
    triggering comment, sent to the top-level comment of the walk and
    carrying at most 2000 characters of the stripped answer. *)
Theorem mention_in_thread_triggers_reply (cfg : Config) (st : Settings) (o : Oracle)
    (rank : ReviewComment → nat) (fuel : nat) (event : CommentEvent)
    (comment : ReviewComment) (comments : list ReviewComment) :
  let body := default "" (rc_body comment) in
  ev_action event = Some "created" →
  ev_comment event = Some comment →
  contains COMMENT_TAG body = false →
  contains COMMENT_REPLY_TAG body = false →
  default "" (ev_repo event) ≠ "" →
  default 0 (ev_pr_number event) ≠ 0 →
  listed o = Some comments →
  ranked rank comments comment →
  (rank comment < fuel)%nat →
  has_token cfg = true →
  ∃ visited top_level,
    walks (index_by_id comments) comment comment visited top_level
    ∧ head visited = Some comment
    ∧ ∀ asker content,
        asker ∈ visited →
        contains (mention st) (default "" (rc_body asker)) = true →
        let prompt :=
          chat_prompt st (ev_pr_title event) (ev_path event) (ev_diff_hunk event)
            (join NL (map chain_line (rev visited))) in
        let reply_text := String.substring 0 2000 (strip content) in
        answer o prompt = Some content →
        handle_review_comment_event cfg st o fuel event
        = ([ListThread; Chat prompt;
            PostReply (("@" ++ default "user" (rc_login comment) ++ " " ++ reply_text)
                       ++ NL ++ NL ++ COMMENT_REPLY_TAG)
                      (rc_id top_level)],
           if reply_accepted o then Finished else Failed)
        ∧ (String.length reply_text ≤ 2000)%nat.
Proof.
  intros body Haction Hcomment Htag Hreply Hrepo Hpr Hlisted Hranked Hfuel Htoken.
  destruct (comment_chain_ranked rank comments comment Hranked)
    as (visited & top_level & Hwalk & Hhead & Hrun).
  exists visited, top_level. split; [exact Hwalk |]. split; [exact Hhead |].
  intros asker content Hasker Hmention prompt reply_text Hanswer.
  split; [| apply substring_length_le].
  unfold handle_review_comment_event.
  rewrite Haction, (bool_decide_eq_true_2 _ eq_refl), Hcomment. cbn [negb].
  fold body. rewrite Htag, Hreply. cbn [orb].
  apply truthy_true in Hrepo. rewrite Hrepo. apply Z.eqb_neq in Hpr. rewrite Hpr.
  cbn [negb orb]. rewrite Hlisted, (Hrun fuel Hfuel).
  assert (Hchain : contains (mention st) (join NL (map chain_line (rev visited))) = true).
  { apply (contains_join_part _ (chain_line asker)).
    - apply list_elem_of_fmap. exists asker. split; [done |].
      apply list_elem_of_In, in_rev. rewrite rev_involutive. by apply list_elem_of_In.
    - unfold chain_line. by do 2 apply contains_after. }
  rewrite Hchain, andb_false_r. fold prompt. rewrite Hanswer, Htoken.
  reflexivity.
Qed.

Lemma mention_in_thread_triggers_reply_witness :
  (Z.to_nat (rc_id Samples.thread_last) < 14)%nat
  ∧ contains "@coderabbitai" (default "" (rc_body Samples.thread_last)) = true
  ∧ ∃ visited top_level,
      walks (index_by_id Samples.thread) Samples.thread_last Samples.thread_last
        visited top_level
      ∧ handle_review_comment_event Samples.cfg0 settings0 oracle0 14 asked
        = ([ListThread;
            Chat (chat_prompt settings0 "Bound the retry loop" "retry.py"
                    "@@ -1,2 +1,2 @@" (join NL (map chain_line (rev visited))));
            PostReply ("@user The loop ends after five tries." ++ NL ++ NL
                       ++ COMMENT_REPLY_TAG)
                      (rc_id top_level)],
           Finished).
Proof.
  split; [vm_compute; lia |]. split; [reflexivity |].
  destruct (mention_in_thread_triggers_reply Samples.cfg0 settings0 oracle0
              (λ c, Z.to_nat (rc_id c)) 14 asked Samples.thread_last Samples.thread)
    as (visited & top_level & Hwalk & Hhead & Hreply);
    try reflexivity; try discriminate; [exact thread_ranked | vm_compute; lia |].
  exists visited, top_level. split; [exact Hwalk |].
  destruct visited as [| first rest]; [discriminate Hhead |].
  injection Hhead as ->.
  exact (proj1 (Hreply Samples.thread_last "  The loop ends after five tries.  "
                  (list_elem_of_here _ _) eq_refl eq_refl)).
Defined.

(** ** From one review cycle to the next *)

Lemma same_ledger_refl (g : GitHub) : same_ledger g g.
Proof. repeat split; lia. Qed.












Lemma settles_put_buffer (b : list Buffered) : settles (put_buffer b).
Proof. intros w. eexists tt, _. split; [done | apply same_ledger_refl]. Qed.



Section Settles.
Context (cfg : Config) (env : Env).







End Settles.










(** X17.  [post_review] raises when it cannot list the issue comments:
    after a review that is not skipped, with a token, a failure of the
    listing that precedes the upsert leaves [post_review] with the HTTP
    error, and nothing of the review has been published. *)
Theorem post_review_raises_when_listing_fails (cfg : Config) (env : Env) (w w1 : World)
    (result : ReviewResult) :
  review_pr cfg env w = (Returned result, w1) →
  skipped result = false →
  has_token cfg = true →
  fault env (length (w_trace w1) + 1) = true →
  ∃ ok,
    post_review cfg env w
    = (Raised (HTTPError ListIssueComments),
       extend [Request GetPull ok; Request ListIssueComments false] w1).
Proof.
  intros Hreview Hskipped Htoken Hfault.
  unfold post_review. rewrite (bind_returned _ _ _ _ _ Hreview), Hskipped, Htoken.
  cbn [negb].
  destruct (get_pr_details_cases env w1) as (pr & ok & Hdetails & _).
  rewrite (bind_returned _ _ _ _ _ Hdetails). exists ok.
  assert (Hfind : find_issue_comment_with_tag env SUMMARIZE_TAG
                    (extend [Request GetPull ok] w1)
                  = (Raised (HTTPError ListIssueComments),
                     extend [Request GetPull ok; Request ListIssueComments false] w1)).
  { unfold find_issue_comment_with_tag, list_issue_comments, bind, _request.
    cbn [extend w_trace]. rewrite length_app. cbn [length]. rewrite Hfault.
    unfold log, extend. cbn. by rewrite <- app_assoc. }
  by rewrite (bind_raised _ _ _ _ _ Hfind).
Qed.

Lemma post_review_raises_when_listing_fails_witness :
  let w := Samples.world_of Samples.gh_large in
  let env := Samples.env_failing 12 in
  ∃ result w1,
    review_pr Samples.cfg0 env w = (Returned result, w1)
    ∧ skipped result = false
    ∧ fault env (length (w_trace w1) + 1) = true
    ∧ post_review Samples.cfg0 env w
      = (Raised (HTTPError ListIssueComments),
         extend [Request GetPull true; Request ListIssueComments false] w1).
Proof.
  intros w env.
  destruct (review_pr Samples.cfg0 env w) as [[result | e] w1] eqn:Hrun;
    [| vm_compute in Hrun; discriminate Hrun].
  pose proof Hrun as Hvalue. vm_compute in Hvalue. injection Hvalue as Hresult Hw1.
  assert (Hskipped : skipped result = false) by (by rewrite <- Hresult).
  assert (Hfault : fault env (length (w_trace w1) + 1) = true) by (by rewrite <- Hw1).
  exists result, w1. repeat (split; [done |]).
  destruct (post_review_raises_when_listing_fails Samples.cfg0 env w w1 result
              Hrun Hskipped eq_refl Hfault) as (ok & Hpost).
  rewrite Hpost. destruct ok; [reflexivity |].
  exfalso. rewrite <- Hw1 in Hpost. vm_compute in Hpost. discriminate Hpost.
Defined.

(** ** Reading the ledger *)

(** X18.  What [get_reviewed_commit_ids] returns is normalised: every
    id is one non-empty line without white space around it, and joining
    the ids by newlines gives a block that is already stripped and reads
    back as the same ids. *)
Theorem reviewed_ids_are_normalised (block : string) :
  let ids := get_reviewed_commit_ids block in
  Forall clean_id ids
  ∧ strip (join NL ids) = join NL ids
  ∧ get_reviewed_commit_ids (join NL ids) = ids.
Proof.
  intros ids. pose proof (reviewed_ids_clean block) as Hclean. fold ids in Hclean.
  split; [exact Hclean |]. split; [by apply strip_join_clean | by apply read_back_clean].
Qed.

(** ** Every line of a patch is rendered *)



(** ** What is sent as an inline comment *)





(** ** Which files are sent to the line review *)







Import Webhook.

(** ** The webhook: recent events and signatures *)

Lemma push_event_latest {E} (ev : E) (recent : list E) :
  (length recent ≤ MAX_EVENTS)%nat →
  push_event ev recent
  = skipn (length (recent ++ [ev]) - MAX_EVENTS) (recent ++ [ev])%list.
Proof.
  intros Hlen. unfold push_event. rewrite length_app. cbn [length].
  destruct (Nat.ltb_spec MAX_EVENTS (length recent + 1)) as [Hfull | Hroom].
  - replace (length recent + 1 - MAX_EVENTS)%nat with 1%nat by lia.
    by destruct (recent ++ [ev])%list.
  - by replace (length recent + 1 - MAX_EVENTS)%nat with 0%nat by lia.
Qed.

Lemma push_events_latest {E} (evs recent all : list E) :
  (length recent ≤ MAX_EVENTS)%nat →
  recent = skipn (length all - MAX_EVENTS) all →
  fold_left (λ r ev, push_event ev r) evs recent
  = skipn (length (all ++ evs) - MAX_EVENTS) (all ++ evs)%list.
Proof.
  revert recent all. induction evs as [| ev evs IH]; intros recent all Hlen Hrecent.
  - cbn [fold_left]. by rewrite app_nil_r.
  - cbn [fold_left].
    replace (all ++ ev :: evs)%list with ((all ++ [ev]) ++ evs)%list
      by by rewrite <- app_assoc.
    apply IH.
    + rewrite push_event_latest by done. rewrite length_skipn, length_app. cbn [length]. lia.
    + rewrite push_event_latest by done. rewrite Hrecent.
      rewrite !skipn_app, !length_app, !length_skipn, skipn_skipn. cbn [length].
      unfold MAX_EVENTS. f_equal; f_equal; lia.
Qed.

(** X22.  [push_event] keeps the latest events: starting from at most
    [MAX_EVENTS] events, after any number of pushes [RECENT_EVENTS]
    holds the last [MAX_EVENTS] of all events, in order, and never
    more. *)
Theorem recent_events_are_the_latest {E} (recent evs : list E) :
  let final := fold_left (λ r ev, push_event ev r) evs recent in
  let all := (recent ++ evs)%list in
  (length recent ≤ MAX_EVENTS)%nat →
  final = skipn (length all - MAX_EVENTS) all
  ∧ length final = Nat.min MAX_EVENTS (length all).
Proof.
  intros final all Hlen.
  assert (Hfinal : final = skipn (length all - MAX_EVENTS) all).
  { apply push_events_latest; [done |].
    replace (length recent - MAX_EVENTS)%nat with 0%nat by lia. done. }
  split; [exact Hfinal |]. rewrite Hfinal, length_skipn. lia.
Qed.

Lemma recent_events_are_the_latest_witness :
  let recent := repeat 0 199 in
  (length recent ≤ MAX_EVENTS)%nat
  ∧ fold_left (λ r ev, push_event ev r) [1; 2; 3] recent = (repeat 0 197 ++ [1; 2; 3])%list
  ∧ length (fold_left (λ r ev, push_event ev r) [1; 2; 3] recent) = 200%nat.
Proof.
  intros recent. split; [vm_compute; lia |].
  destruct (recent_events_are_the_latest recent [1; 2; 3]) as [Hfinal Hlen];
    [vm_compute; lia |].
  split; [rewrite Hfinal | rewrite Hlen]; reflexivity.
Defined.

Lemma prefix_drop (sep s : string) :
  String.prefix sep s = true → s = sep ++ drop (String.length sep) s.
Proof.
  revert s. induction sep as [| d sep IH]; intros s Hp; [done |].
  destruct s as [| c s]; [discriminate Hp |]. rewrite prefix_cons in Hp.
  destruct (Ascii.eqb_spec d c) as [-> |]; [| discriminate Hp].
  cbn [String.length drop].
  change (String c sep ++ drop (String.length sep) s)
    with (String c (sep ++ drop (String.length sep) s)).
  f_equal. by apply IH.
Qed.

Lemma split_once_join (sep s a b : string) :
  split_once sep s = Some (a, b) → s = a ++ sep ++ b.
Proof.
  revert a. induction s as [| c s IH]; intros a; cbn [split_once].
  - destruct (String.prefix sep "") eqn:Hp; [| done].
    destruct sep; [| discriminate Hp]. by intros [= <- <-].
  - destruct (String.prefix sep (String c s)) eqn:Hp.
    + intros [= <- <-]. by apply prefix_drop.
    + destruct (split_once sep s) as [[a' b'] |]; [| done].
      intros [= <- <-]. change (String c a' ++ sep ++ b') with (String c (a' ++ sep ++ b')).
      f_equal. by apply IH.
Qed.

Lemma split_once_char (c : ascii) (a b : string) :
  forallb (λ d, negb (Ascii.eqb c d)) (list_ascii_of_string a) = true →
  split_once (String c "") (a ++ String c b) = Some (a, b).
Proof.
  induction a as [| d a IH]; cbn [list_ascii_of_string forallb].
  - intros _. change ("" ++ String c b) with (String c b). cbn [split_once].
    rewrite prefix_cons, Ascii.eqb_refl. by destruct b.
  - intros [Hd Ha]%andb_true_iff. apply negb_true_iff in Hd.
    change (String d a ++ String c b) with (String d (a ++ String c b)).
    cbn [split_once]. rewrite prefix_cons, Hd. by rewrite IH.
Qed.

(** X23.  [verify_signature] accepts exactly the header [sha256=]
    followed by the hex digest of the payload under the secret; a header
    [sha256=...] whose signature is not ASCII makes
    [hmac.compare_digest] raise instead of returning [False]. *)
Theorem verify_signature_accepts_only_the_digest
    (hexdigest : string → string → string) (secret payload : string) :
  is_ascii (hexdigest secret payload) = true →
  (∀ signature_header,
     verify_signature hexdigest secret payload signature_header = Some true
     ↔ signature_header = "sha256=" ++ hexdigest secret payload)
  ∧ (∀ signature,
       is_ascii signature = false →
       verify_signature hexdigest secret payload ("sha256=" ++ signature) = None).
Proof.
  intros Hhex.
  assert (Hsplit : ∀ signature,
             split_once "=" ("sha256=" ++ signature) = Some ("sha256", signature)).
  { intros signature. by apply (split_once_char "=" "sha256" signature). }
  split.
  - intros header. unfold verify_signature. split.
    + destruct (truthy header); [| discriminate]. cbn [negb].
      destruct (split_once "=" header) as [[sha_name signature] |] eqn:Hparts;
        [| discriminate].
      apply split_once_join in Hparts.
      destruct (String.eqb_spec sha_name "sha256") as [-> |]; [| discriminate].
      cbn [negb]. rewrite Hhex. cbn [andb].
      destruct (is_ascii signature); [| discriminate].
      intros [= Heq]. apply String.eqb_eq in Heq. by rewrite Heq.
    + intros ->. rewrite Hsplit. cbn [truthy negb append].
      change (String.eqb "sha256" "sha256") with true. cbn [negb].
      rewrite Hhex. cbn [andb]. by rewrite String.eqb_refl.
  - intros signature Hsig. unfold verify_signature. rewrite Hsplit.
    cbn [truthy append negb]. rewrite Hsig.
    change (String.eqb "sha256" "sha256") with true. cbn [negb]. by rewrite andb_false_r.
Qed.

Lemma verify_signature_accepts_only_the_digest_witness :
  let hexdigest := λ secret payload : string, "5d41402abc4b2a76" in
  is_ascii (hexdigest "secret" "{}") = true
  ∧ verify_signature hexdigest "secret" "{}" "sha256=5d41402abc4b2a76" = Some true
  ∧ verify_signature hexdigest "secret" "{}" "sha1=5d41402abc4b2a76" ≠ Some true
  ∧ verify_signature hexdigest "secret" "{}"
      ("sha256=" ++ String (ascii_of_nat 233) "") = None.
Proof.
  intros hexdigest.
  destruct (verify_signature_accepts_only_the_digest hexdigest "secret" "{}" eq_refl)
    as [Hiff Hraise].
  split; [reflexivity |]. split; [by apply Hiff |]. split.
  - intros H. apply Hiff in H. discriminate H.
  - by apply Hraise.
Defined.
